(** * Live call analytics: the voice-tone processor and the call-event processor

    A shallow embedding of the two Lambda handlers

    - [lca-chimevc-stack/lambda_functions/voice_tone_processor/lambda_function.py]
    - [lca-ai-stack/source/lambda_functions/call_event_processor/lambda_function.py]

    Python values that travel through the handlers (events, DynamoDB items,
    emitted records) are values of [json].  Module-level mutable state (the
    two process-local caches), the DynamoDB table and the calls made to AWS
    clients are fields of [World]; a handler is a function from a world to an
    outcome and a new world, and a raised exception keeps the writes made
    before it.

    What the model takes from outside:

    - texts are strings of bytes; [str.upper] and the case-insensitive
      literals of [strptime] act on the ASCII letters;
    - a [float] is a binary64 number ([spec_float] with 53 bits of
      precision): [total_seconds()], [... * 1000] and [endMillis - 5000]
      are the standard library's [SFdiv], [SFmul] and [SFsub], rounding to
      nearest, ties to even, and a number inside an emitted record is
      written by its value, a rational ([SF2Q]); the two timestamps of a
      run are at most 9998 years apart, so no offset is infinite or a NaN;
    - a request to DynamoDB or Kinesis that passes the client's parameter
      validation is answered: a read returns the stored item if there is
      one, a write and a put succeed; the answer of the Chime service, the
      clock and [json.loads] are parameters of a run ([Env]);
    - [TranscriptStateManager] and [TranscriptBatchProcessor] are not among
      the sources; the transcript handler is stated over their interfaces. *)

From Stdlib Require Import ZArith QArith Qabs Qpower Qfield String Ascii List Bool Lia Lqa.
From Stdlib Require Import Floats.SpecFloat.
From stdpp Require Import base option list gmap strings.

Set Warnings "-register-all".
Local Open Scope Z_scope.

(** ** Python values *)

Inductive json : Type :=
| JNull
| JBool (b : bool)
| JNum (q : Q)
| JStr (s : string)
| JArr (l : list json)
| JObj (fields : list (string * json)).

Inductive exn : Type :=
| KeyError (key : string)
| TypeError
| ValueError
| AttributeError
| ParamValidationError
| ClientError.

Inductive outcome (A : Type) : Type :=
| Returned (a : A)
| Raised (e : exn).
Arguments Returned {A} a.
Arguments Raised {A} e.

Definition obind {A B} (o : outcome A) (f : A -> outcome B) : outcome B :=
  match o with
  | Returned a => f a
  | Raised e => Raised e
  end.

(** [d[k]] on a [dict] built from JSON: the first binding of [k]. *)
Fixpoint dict_get (k : string) (fields : list (string * json)) : option json :=
  match fields with
  | [] => None
  | (k', v) :: rest => if String.eqb k' k then Some v else dict_get k rest
  end.

(** [v[k]] with a string subscript: defined on a [dict] and raising
    [KeyError] on a missing key; every other JSON value raises [TypeError]
    (a list or a string wants an integer index, the rest is not
    subscriptable). *)
Definition subscript (v : json) (k : string) : outcome json :=
  match v with
  | JObj fields =>
      match dict_get k fields with
      | Some x => Returned x
      | None => Raised (KeyError k)
      end
  | _ => Raised TypeError
  end.

(** [v == s] for a string literal [s]: only a string compares equal. *)
Definition eq_str (v : json) (s : string) : bool :=
  match v with
  | JStr t => String.eqb t s
  | _ => false
  end.

(** [v == True]: [bool] is a subclass of [int], so the numbers of value one
    compare equal to [True] as well. *)
Definition eq_True (v : json) : bool :=
  match v with
  | JBool b => b
  | JNum q => Qeq_bool q 1
  | _ => false
  end.

(** [v != True] *)
Definition ne_True (v : json) : bool := negb (eq_True v).

(** [v[3:]]: slicing is defined on strings and lists. *)
Fixpoint string_drop (n : nat) (s : string) : string :=
  match n, s with
  | O, _ => s
  | S n', String _ r => string_drop n' r
  | S _, EmptyString => EmptyString
  end.

Definition slice_from3 (v : json) : outcome json :=
  match v with
  | JStr s => Returned (JStr (string_drop 3 s))
  | JArr l => Returned (JArr (drop 3 l))
  | _ => Raised TypeError
  end.

(** [str.upper()], on the ASCII letters. *)
Definition upper_ascii (c : ascii) : ascii :=
  let n := nat_of_ascii c in
  if ((97 <=? n)%nat && (n <=? 122)%nat)%bool then ascii_of_nat (n - 32) else c.

Fixpoint upper (s : string) : string :=
  match s with
  | EmptyString => EmptyString
  | String c r => String (upper_ascii c) (upper r)
  end.

(** [v.upper()]: only [str] has the method. *)
Definition call_upper (v : json) : outcome json :=
  match v with
  | JStr s => Returned (JStr (upper s))
  | _ => Raised AttributeError
  end.

(** ** [datetime] *)

Record datetime : Type := mkDatetime {
  year : Z; month : Z; day : Z;
  hour : Z; minute : Z; second : Z; microsecond : Z
}.

Definition is_leap (y : Z) : bool :=
  ((y mod 4 =? 0) && (negb (y mod 100 =? 0) || (y mod 400 =? 0)))%bool.

Definition days_in_month (y m : Z) : Z :=
  if m =? 2 then (if is_leap y then 29 else 28)
  else if ((m =? 4) || (m =? 6) || (m =? 9) || (m =? 11))%bool then 30
  else 31.

Definition days_before_year (y : Z) : Z :=
  let p := y - 1 in p * 365 + p / 4 - p / 100 + p / 400.

Fixpoint days_before_month_aux (y : Z) (n : nat) : Z :=
  match n with
  | O => 0
  | S n' => days_before_month_aux y n' + days_in_month y (Z.of_nat n)
  end.

Definition days_before_month (y m : Z) : Z :=
  days_before_month_aux y (Z.to_nat (m - 1)).

Definition toordinal (d : datetime) : Z :=
  days_before_year (year d) + days_before_month (year d) (month d) + day d.

(** The constructor's range checks. *)
Definition valid_datetime (d : datetime) : bool :=
  ((1 <=? year d) && (year d <=? 9999) &&
   (1 <=? month d) && (month d <=? 12) &&
   (1 <=? day d) && (day d <=? days_in_month (year d) (month d)) &&
   (0 <=? hour d) && (hour d <=? 23) &&
   (0 <=? minute d) && (minute d <=? 59) &&
   (0 <=? second d) && (second d <=? 59) &&
   (0 <=? microsecond d) && (microsecond d <=? 999999))%bool.

(** [a - b] as a [timedelta], in microseconds (integer arithmetic, exact in
    Python too). *)
Definition seconds_of_day (d : datetime) : Z :=
  (hour d * 60 + minute d) * 60 + second d.

Definition timedelta_micros (a b : datetime) : Z :=
  ((toordinal a - toordinal b) * 86400 + (seconds_of_day a - seconds_of_day b)) * 1000000
  + (microsecond a - microsecond b).

(** ** [float]

    Binary64: 53 bits of precision, exponents below 1024. *)
Definition SF64mul : spec_float -> spec_float -> spec_float := SFmul 53 1024.
Definition SF64div : spec_float -> spec_float -> spec_float := SFdiv 53 1024.
Definition SF64sub : spec_float -> spec_float -> spec_float := SFsub 53 1024.

(** [float(n)] for an [int], as the arithmetic operators convert an [int]
    operand: the nearest binary64 number. *)
Definition float_of_int (n : Z) : spec_float := binary_normalize 53 1024 n 0 false.

(** The value of a finite binary64 number.  The infinities and NaN have no
    value; no offset is one of them. *)
Definition SF2Q (f : spec_float) : Q :=
  match f with
  | S754_finite s m e => (inject_Z (cond_Zopp s (Zpos m)) * 2 ^ e)%Q
  | _ => 0%Q
  end.

Definition is_finite (f : spec_float) : bool :=
  match f with
  | S754_finite _ _ _ | S754_zero _ => true
  | S754_infinity _ | S754_nan => false
  end.

(** [timedelta.total_seconds()]: the microseconds, an [int], divided by
    [10 ** 6]; the true division of two [int]s is the quotient correctly
    rounded, whatever their size, and [0 / 10 ** 6] is [0.0]. *)
Definition total_seconds (micros : Z) : spec_float :=
  match micros with
  | Z0 => S754_zero false
  | Zpos p => SF64div (S754_finite false p 0) (S754_finite false 1000000 0)
  | Zneg p => SF64div (S754_finite true p 0) (S754_finite false 1000000 0)
  end.

(** ** [datetime.strptime(s, '%Y-%m-%dT%H:%M:%S.%fZ')]

    [strptime] turns the format into a regular expression, one group per
    directive, compiled case-insensitively, and matches it at the start of
    the text; the whole text must be consumed.  A directive's group is an
    alternation of fixed sequences of character classes; here every group
    is followed by a literal that is not a digit, so the first alternative
    that matches is the only one that can lead to a match. *)

Definition cls : Type := (ascii * ascii)%type.

Definition in_cls (c : ascii) (k : cls) : bool :=
  ((nat_of_ascii (fst k) <=? nat_of_ascii c)%nat &&
   (nat_of_ascii c <=? nat_of_ascii (snd k))%nat)%bool.

Definition one (c : ascii) : cls := (c, c).
Definition digit : cls := ("0"%char, "9"%char).
Definition rng (a b : ascii) : cls := (a, b).

Fixpoint match_seq (p : list cls) (s : string) : option (string * string) :=
  match p with
  | [] => Some (EmptyString, s)
  | k :: p' =>
      match s with
      | String c r =>
          if in_cls c k then
            match match_seq p' r with
            | Some (m, rest) => Some (String c m, rest)
            | None => None
            end
          else None
      | EmptyString => None
      end
  end.

Fixpoint match_alt (alts : list (list cls)) (s : string) : option (string * string) :=
  match alts with
  | [] => None
  | p :: alts' =>
      match match_seq p s with
      | Some r => Some r
      | None => match_alt alts' s
      end
  end.

Definition re_Y : list (list cls) := [[digit; digit; digit; digit]].
Definition re_m : list (list cls) :=
  [[one "1"; rng "0" "2"]; [one "0"; rng "1" "9"]; [rng "1" "9"]]%char.
Definition re_d : list (list cls) :=
  [[one "3"; rng "0" "1"]; [rng "1" "2"; digit]; [one "0"; rng "1" "9"];
   [rng "1" "9"]; [one " "; rng "1" "9"]]%char.
Definition re_H : list (list cls) :=
  [[one "2"; rng "0" "3"]; [rng "0" "1"; digit]; [digit]]%char.
Definition re_M : list (list cls) := [[rng "0" "5"; digit]; [digit]]%char.
Definition re_S : list (list cls) :=
  [[one "6"; rng "0" "1"]; [rng "0" "5"; digit]; [digit]]%char.
(** [[0-9]{1,6}], greedy *)
Definition re_f : list (list cls) :=
  [[digit; digit; digit; digit; digit; digit]; [digit; digit; digit; digit; digit];
   [digit; digit; digit; digit]; [digit; digit; digit]; [digit; digit]; [digit]].

(** A literal of the format, matched without regard to case. *)
Definition match_lit (c : ascii) (s : string) : option string :=
  match s with
  | String c' r => if Ascii.eqb (upper_ascii c') (upper_ascii c) then Some r else None
  | EmptyString => None
  end.

(** [int(text)] on a group's text: digits, with the blank of [%d] skipped. *)
Fixpoint int_of_acc (acc : Z) (s : string) : Z :=
  match s with
  | EmptyString => acc
  | String c r =>
      if in_cls c digit
      then int_of_acc (acc * 10 + (Z.of_nat (nat_of_ascii c) - 48)) r
      else int_of_acc acc r
  end.
Definition int_of (s : string) : Z := int_of_acc 0 s.

(** The fraction is padded with zeros on the right to six digits. *)
Fixpoint pad_right0 (n : nat) (s : string) : string :=
  match n with
  | O => s
  | S n' =>
      match s with
      | EmptyString => String "0"%char (pad_right0 n' EmptyString)
      | String c r => String c (pad_right0 n' r)
      end
  end.

Definition group (alts : list (list cls)) (s : string) : option (Z * string) :=
  match match_alt alts s with
  | Some (m, rest) => Some (int_of m, rest)
  | None => None
  end.

Definition group_f (s : string) : option (Z * string) :=
  match match_alt re_f s with
  | Some (m, rest) => Some (int_of (pad_right0 6 m), rest)
  | None => None
  end.

Definition parse_fields (s : string) : option datetime :=
  '(yy, s) ← group re_Y s;
  s ← match_lit "-" s;
  '(mo, s) ← group re_m s;
  s ← match_lit "-" s;
  '(dd, s) ← group re_d s;
  s ← match_lit "T" s;
  '(hh, s) ← group re_H s;
  s ← match_lit ":" s;
  '(mi, s) ← group re_M s;
  s ← match_lit ":" s;
  '(ss, s) ← group re_S s;
  s ← match_lit "." s;
  '(ff, s) ← group_f s;
  s ← match_lit "Z" s;
  match s with
  | EmptyString => Some (mkDatetime yy mo dd hh mi ss ff)
  | String _ _ => None
  end.

(** [strptime] on a JSON value: a [str] is needed, a text that does not
    match or names no valid date raises [ValueError]. *)
Definition strptime_str (s : string) : outcome datetime :=
  match parse_fields s with
  | Some d => if valid_datetime d then Returned d else Raised ValueError
  | None => Raised ValueError
  end.

Definition strptime (v : json) : outcome datetime :=
  match v with
  | JStr s => strptime_str s
  | _ => Raised TypeError
  end.

(** [strftime('%Y-%m-%dT%H:%M:%SZ')] *)
Definition digit_char (z : Z) : ascii := ascii_of_nat (48 + Z.to_nat (z mod 10)).

Fixpoint zero_pad (width : nat) (z : Z) (acc : string) : string :=
  match width with
  | O => acc
  | S w => zero_pad w (z / 10) (String (digit_char z) acc)
  end.

Definition strftime (d : datetime) : string :=
  zero_pad 4 (year d)
    (String "-" (zero_pad 2 (month d)
    (String "-" (zero_pad 2 (day d)
    (String "T" (zero_pad 2 (hour d)
    (String ":" (zero_pad 2 (minute d)
    (String ":" (zero_pad 2 (second d) (String "Z" EmptyString))))))))))).

(** * The voice-tone processor *)

(** ** The world the handler runs in *)

(** A DynamoDB item: attribute name to value. *)
Abbreviation item := (gmap string json).

Inductive aws_call : Type :=
| DynamoGetItem (pk sk : string)
| DynamoPutItem (it : item)
| ChimeStartVoiceToneAnalysisTask (voiceConnectorId transactionId languageCode token : string)
| KinesisPutRecord (streamName : string) (data : json) (partitionKey : string).

(** What [print] writes; [PrintJson v] stands for the text [json.dumps(v)]. *)
Inductive line : Type :=
| PrintJson (v : json)
| PrintText (s : string).

Record World : Type := mkWorld {
  voiceTaskCache : gmap string json;
  callDetailCache : gmap string item;
  dynamoTable : gmap (string * string) item;
  calls : list aws_call;
  stdout : list line
}.

(** What one invocation takes from outside: the configured stream name, the
    answer of the Chime service to a start request, the clock, and
    [json.loads].  In [KinesisPutRecord] the field [data] is the object whose
    [json.dumps] text is sent. *)
Record Env : Type := mkEnv {
  KINESIS_STREAM_NAME : string;
  start_voice_tone_analysis_task : string -> string -> string -> string -> outcome json;
  now : datetime;
  json_loads : string -> outcome json
}.

(** A computation over a state [S] that returns or raises, keeping the
    writes made so far. *)
Definition ST (S A : Type) : Type := S -> outcome A * S.

Definition ret {S A} (a : A) : ST S A := fun w => (Returned a, w).
Definition raise {S A} (e : exn) : ST S A := fun w => (Raised e, w).
Definition lift {S A} (o : outcome A) : ST S A := fun w => (o, w).
Definition bind {S A B} (m : ST S A) (f : A -> ST S B) : ST S B :=
  fun w =>
    match m w with
    | (Returned a, w') => f a w'
    | (Raised e, w') => (Raised e, w')
    end.

Notation "x <- m ;; k" := (bind m (fun x => k))
  (at level 100, m at next level, right associativity).
Notation "m ;;; k" := (bind m (fun _ => k))
  (at level 100, right associativity).

Abbreviation M := (ST World).

Definition get_world : M World := fun w => (Returned w, w).

Definition print (l : line) : M unit :=
  fun w => (Returned tt,
            mkWorld (voiceTaskCache w) (callDetailCache w) (dynamoTable w)
                    (calls w) (stdout w ++ [l])).

Definition record_call (c : aws_call) : M unit :=
  fun w => (Returned tt,
            mkWorld (voiceTaskCache w) (callDetailCache w) (dynamoTable w)
                    (calls w ++ [c]) (stdout w)).

Definition set_voiceTaskCache (k : string) (v : json) : M unit :=
  fun w => (Returned tt,
            mkWorld (<[k := v]> (voiceTaskCache w)) (callDetailCache w) (dynamoTable w)
                    (calls w) (stdout w)).

Definition set_callDetailCache (k : string) (v : item) : M unit :=
  fun w => (Returned tt,
            mkWorld (voiceTaskCache w) (<[k := v]> (callDetailCache w)) (dynamoTable w)
                    (calls w) (stdout w)).

(** [dynamoTable.get_item(Key={'PK': pk, 'SK': sk})]: the response holds
    ['Item'] when the table has the key. *)
Definition dynamo_get_item (pk sk : string) : M (option item) :=
  record_call (DynamoGetItem pk sk) ;;;
  w <- get_world ;;
  ret (dynamoTable w !! (pk, sk)).

(** [dynamoTable.put_item(Item=it)] for an item with string keys [pk], [sk]. *)
Definition dynamo_put_item (pk sk : string) (it : item) : M unit :=
  record_call (DynamoPutItem it) ;;;
  fun w => (Returned tt,
            mkWorld (voiceTaskCache w) (callDetailCache w)
                    (<[(pk, sk) := it]> (dynamoTable w)) (calls w) (stdout w)).

(** [response['Item']] *)
Definition response_Item (response : option item) : outcome item :=
  match response with
  | Some it => Returned it
  | None => Raised (KeyError "Item")
  end.

(** [it[k]] on an item *)
Definition item_get (it : item) (k : string) : outcome json :=
  match it !! k with
  | Some v => Returned v
  | None => Raised (KeyError k)
  end.

(** ** The three table helpers *)

Definition get_call_record (callId : json) : M item :=
  match callId with
  | JStr c =>
      w <- get_world ;;
      match callDetailCache w !! c with
      | Some rec => ret rec
      | None =>
          let pk := "cd#" +:+ c in
          let sk := "BOTH"%string in
          response <- dynamo_get_item pk sk ;;
          it <- lift (response_Item response) ;;
          set_callDetailCache c it ;;;
          lift (response_Item response)
      end
  | _ => raise TypeError
  end.

Definition put_voice_task (voiceToneAnalysisTaskId callId : json) : M unit :=
  match voiceToneAnalysisTaskId with
  | JStr t =>
      let pk := "vta#" +:+ t in
      dynamo_put_item pk "VTA"
        (<["PK"%string := JStr pk]>
          (<["SK"%string := JStr "VTA"]>
            (<["VoiceToneAnalysisTaskId"%string := voiceToneAnalysisTaskId]>
              (<["CallId"%string := callId]> ∅)))) ;;;
      set_voiceTaskCache t callId
  | _ => raise TypeError
  end.

Definition get_callId_for_voiceTask (voiceToneAnalysisTaskId : json) : M json :=
  match voiceToneAnalysisTaskId with
  | JStr t =>
      w <- get_world ;;
      match voiceTaskCache w !! t with
      | Some c => ret c
      | None =>
          let pk := "vta#" +:+ t in
          response <- dynamo_get_item pk "VTA" ;;
          it <- lift (response_Item response) ;;
          callId <- lift (item_get it "CallId") ;;
          set_voiceTaskCache t callId ;;;
          ret callId
      end
  | _ => raise TypeError
  end.

(** ** [lambda_handler] *)

(** Parameter validation of a client call, made before any request is
    sent: a [str] is required, and it must not be empty where the service
    model gives the parameter a minimum length of one. *)
Definition param_str (v : json) : outcome string :=
  match v with
  | JStr s => Returned s
  | _ => Raised ParamValidationError
  end.

Definition param_str_min1 (v : json) : outcome string :=
  match v with
  | JStr EmptyString => Raised ParamValidationError
  | JStr s => Returned s
  | _ => Raised ParamValidationError
  end.

(** [chimeClient.start_voice_tone_analysis_task(...)]: the three arguments
    taken from the event are validated, then the request is made. *)
Definition chime_start (env : Env) (voiceConnectorId transactionId token : json) : M json :=
  vc <- lift (param_str_min1 voiceConnectorId) ;;
  tx <- lift (param_str_min1 transactionId) ;;
  tk <- lift (param_str token) ;;
  record_call (ChimeStartVoiceToneAnalysisTask vc tx "en-US" tk) ;;;
  lift (start_voice_tone_analysis_task env vc tx "en-US" tk).

(** [kdsClient.put_record(StreamName=..., Data=json.dumps(putObj), PartitionKey=callId)] *)
Definition kinesis_put_record (env : Env) (putObj callId : json) : M unit :=
  streamName <- lift (param_str_min1 (JStr (KINESIS_STREAM_NAME env))) ;;
  pk <- lift (param_str_min1 callId) ;;
  record_call (KinesisPutRecord streamName putObj pk).

(** ["RESPONSE TASK_ID: " + v] *)
Definition concat_str (prefix : string) (v : json) : outcome string :=
  match v with
  | JStr s => Returned (prefix +:+ s)
  | _ => Raised TypeError
  end.

(** [json.loads(v)] *)
Definition loads (env : Env) (v : json) : outcome json :=
  match v with
  | JStr s => json_loads env s
  | _ => Raised TypeError
  end.

Definition analytics_ready (env : Env) (detail : json) : M unit :=
  voiceConnectorId <- lift (subscript detail "voiceConnectorId") ;;
  transactionId <- lift (subscript detail "transactionId") ;;
  token <- lift (subscript detail "callId") ;;
  response <- chime_start env voiceConnectorId transactionId token ;;
  task <- lift (subscript response "VoiceToneAnalysisTask") ;;
  voiceToneAnalysisTaskId <- lift (subscript task "VoiceToneAnalysisTaskId") ;;
  msg <- lift (concat_str "RESPONSE TASK_ID: " voiceToneAnalysisTaskId) ;;
  print (PrintText msg) ;;;
  callId <- lift (subscript detail "callId") ;;
  put_voice_task voiceToneAnalysisTaskId callId.

(** [detail['voiceToneAnalysisDetails']['currentAverageVoiceTone'][k]] *)
Definition current_tone (detail : json) (k : string) : outcome json :=
  obind (subscript detail "voiceToneAnalysisDetails") (fun d =>
  obind (subscript d "currentAverageVoiceTone") (fun t =>
  subscript t k)).

Definition voice_tone_successful (env : Env) (event detail : json) : M unit :=
  taskId <- lift (subscript detail "taskId") ;;
  callId <- get_callId_for_voiceTask taskId ;;
  taskId' <- lift (subscript detail "taskId") ;;
  callId' <- get_callId_for_voiceTask taskId' ;;
  callRecord <- get_call_record callId' ;;
  callDataStr <- lift (item_get callRecord "CallData") ;;
  callData <- lift (loads env callDataStr) ;;
  callStartTimeStr <- lift (subscript callData "callStreamingStartTime") ;;
  callStartTime <- lift (strptime callStartTimeStr) ;;
  let timestampStr := strftime (now env) in
  isCaller <- lift (subscript detail "isCaller") ;;
  let participant :=
    if ne_True isCaller then "CALLER_VOICE_SENTIMENT"%string
    else "AGENT_VOICE_SENTIMENT"%string in
  label <- lift (current_tone detail "voiceToneLabel") ;;
  sentiment <- lift (call_upper label) ;;
  segmentStartTimeStr <- lift (current_tone detail "startTime") ;;
  segmentStartTime <- lift (strptime segmentStartTimeStr) ;;
  segmentEndTimeStr <- lift (current_tone detail "endTime") ;;
  segmentEndTime <- lift (strptime segmentEndTimeStr) ;;
  let endMillis :=
    SF64mul (total_seconds (timedelta_micros segmentEndTime callStartTime))
            (float_of_int 1000) in
  let startMillis := SF64sub endMillis (float_of_int 5000) in
  id <- lift (subscript event "id") ;;
  utteranceId <- lift (slice_from3 id) ;;
  let putObj :=
    JObj [("EventType", JStr "ADD_TRANSCRIPT_SEGMENT");
          ("CallId", callId);
          ("UtteranceEvent",
            JObj [("UtteranceId", utteranceId);
                  ("ParticipantRole", JStr participant);
                  ("isPartial", JBool false);
                  ("Transcript", JStr "voice tone");
                  ("Sentiment", sentiment);
                  ("BeginOffsetMillis", JNum (SF2Q startMillis));
                  ("EndOffsetMillis", JNum (SF2Q endMillis))]);
          ("CreatedAt", JStr timestampStr);
          ("UpdatedAt", JStr timestampStr)]%string in
  print (PrintJson putObj) ;;;
  kinesis_put_record env putObj callId.

(** The handler returns [None], here [tt]. *)
Definition lambda_handler (env : Env) (event : json) : M unit :=
  print (PrintJson event) ;;;
  detail <- lift (subscript event "detail") ;;
  status <- lift (subscript detail "detailStatus") ;;
  (if eq_str status "AnalyticsReady" then analytics_ready env detail else ret tt) ;;;
  status' <- lift (subscript detail "detailStatus") ;;
  (if eq_str status' "VoiceToneAnalysisSuccessful"
   then voice_tone_successful env event detail else ret tt) ;;;
  ret tt.

(** ** Observations on a run *)

(** The records put on the stream among a list of client calls. *)
Definition kinesis_records (cs : list aws_call) : list (string * json * string) :=
  omap (fun c => match c with
                 | KinesisPutRecord s d k => Some (s, d, k)
                 | _ => None
                 end) cs.

(** The client calls made between two worlds of one run. *)
Definition new_calls (w w' : World) : list aws_call :=
  drop (length (calls w)) (calls w').

Definition emitted (w w' : World) : list (string * json * string) :=
  kinesis_records (new_calls w w').

(** Cache first, table second: what a task id and a call id resolve to. *)
Definition resolved_callId (w : World) (t : string) : option json :=
  match voiceTaskCache w !! t with
  | Some c => Some c
  | None => it ← dynamoTable w !! ("vta#" +:+ t, "VTA"%string); it !! "CallId"%string
  end.

Definition resolved_call_record (w : World) (c : string) : option item :=
  match callDetailCache w !! c with
  | Some rec => Some rec
  | None => dynamoTable w !! ("cd#" +:+ c, "BOTH"%string)
  end.

(** A fresh execution environment over the same table: both caches empty. *)
Definition cold (w : World) : World :=
  mkWorld ∅ ∅ (dynamoTable w) (calls w) (stdout w).

(** A field of an emitted object, and of its nested utterance event. *)
Definition field (k : string) (v : json) : option json :=
  match v with
  | JObj fields => dict_get k fields
  | _ => None
  end.

Definition utterance_field (k : string) (putObj : json) : option json :=
  u ← field "UtteranceEvent" putObj; field k u.

Definition number (v : json) : option Q :=
  match v with
  | JNum q => Some q
  | _ => None
  end.

Definition BeginOffsetMillis (putObj : json) : option Q :=
  utterance_field "BeginOffsetMillis" putObj ≫= number.

Definition EndOffsetMillis (putObj : json) : option Q :=
  utterance_field "EndOffsetMillis" putObj ≫= number.

(** * The call-event processor *)

(** ** Mutation dispatch *)

Inductive mutation_fn : Type :=
| execute_process_transcribe_event_api_mutation
| execute_process_contact_lens_event_api_mutation.

(** The dict display, its four entries inserted in the order written. *)
Definition MUTATION_FUNCTION_MAPPING : gmap string mutation_fn :=
  <["Amazon Connect Contact Lens"%string :=
      execute_process_contact_lens_event_api_mutation]>
  (<["Genesys Cloud Audiohook Web Socket"%string :=
      execute_process_transcribe_event_api_mutation]>
  (<["Chime Voice Connector (SIPREC)"%string :=
      execute_process_transcribe_event_api_mutation]>
  (<["Demo Asterisk PBX Server"%string :=
      execute_process_transcribe_event_api_mutation]> ∅))).

(** [MUTATION_FUNCTION_MAPPING.get(CALL_AUDIO_SOURCE)], where
    [getenv("CALL_AUDIO_SOURCE")] is [None] when the variable is unset. *)
Definition MUTATION_FUNCTION_NAME (CALL_AUDIO_SOURCE : option string) : option mutation_fn :=
  match CALL_AUDIO_SOURCE with
  | Some label => MUTATION_FUNCTION_MAPPING !! label
  | None => None
  end.

(** ** Batch results and the state manager *)

(** An element of an [errors] list: an exception instance or another value. *)
Inductive error_obj : Type :=
| ErrException (repr : string)
| ErrValue (v : json).

(** [isinstance(error, Exception)] *)
Definition is_exception (e : error_obj) : bool :=
  match e with
  | ErrException _ => true
  | ErrValue _ => false
  end.

(** The results of the batch processor: a dict with the optional keys
    ["successes"] and ["errors"], each success nesting the same shape. *)
Record record_result : Type := mkRecordResult {
  item_successes : option (list json);
  item_errors : option (list error_obj)
}.

Record batch_results : Type := mkBatchResults {
  successes : option (list record_result);
  errors : option (list error_obj)
}.

(** [d.get(key, [])] *)
Definition get_or_empty {A} (o : option (list A)) : list A :=
  match o with
  | Some l => l
  | None => []
  end.

(** [TranscriptStateManager] is defined in [state_manager.py], outside the
    sources at hand; the handler is stated over its interface: entering the
    context, [update_state(input_item=...)], the [state] property and
    leaving the context. *)
Record StateManager : Type := mkStateManager {
  manager : Type;
  aenter : json -> outcome manager;
  manager_update_state : manager -> json -> outcome (manager * json);
  manager_state : manager -> json;
  aexit : manager -> outcome unit
}.

(** [TranscriptBatchProcessor] comes from a Lambda layer; [process_event]
    hands back its [results]. *)
Record Processor : Type := mkProcessor {
  process_event : json -> outcome batch_results;
  state_manager : StateManager
}.

Inductive log_entry : Type :=
| LogDebug (msg : string)
| LogError (msg : string) (e : error_obj)
| LogException (msg : string).

Abbreviation L := (ST (list log_entry)).

Definition log (e : log_entry) : L unit := fun l => (Returned tt, l ++ [e]).

(** Truth value of [if item:] *)
Definition truthy (v : json) : bool :=
  match v with
  | JNull => false
  | JBool b => b
  | JNum q => negb (Qeq_bool q 0)
  | JStr s => negb (String.eqb s EmptyString)
  | JArr l => match l with [] => false | _ => true end
  | JObj f => match f with [] => false | _ => true end
  end.

(** [event.get("state", {})] *)
Definition event_get_state (event : json) : outcome json :=
  match event with
  | JObj fields =>
      match dict_get "state" fields with
      | Some s => Returned s
      | None => Returned (JObj [])
      end
  | _ => Raised AttributeError
  end.

(** ** [update_state] *)

(** The inner loop: [for item in result.get("successes", [])]. *)
Fixpoint fold_items (sm : StateManager) (items : list json) (m : manager sm)
  : L (manager sm) :=
  match items with
  | [] => ret m
  | it :: rest =>
      log (LogDebug "event_processor item") ;;;
      m' <- (if truthy it then
               r <- lift (manager_update_state sm m it) ;;
               log (LogDebug "updated state") ;;;
               ret (fst r)
             else ret m) ;;
      fold_items sm rest m'
  end.

(** The outer loop: [for result in event_processor_results.get("successes", [])]. *)
Fixpoint fold_results (sm : StateManager) (results : list record_result) (m : manager sm)
  : L (manager sm) :=
  match results with
  | [] => ret m
  | r :: rest =>
      log (LogDebug "event_processor result") ;;;
      m' <- fold_items sm (get_or_empty (item_successes r)) m ;;
      fold_results sm rest m'
  end.

Definition update_state (sm : StateManager) (event : json)
    (event_processor_results : batch_results) : L json :=
  outgoing_state <- lift (event_get_state event) ;;
  m <- lift (aenter sm event) ;;
  m' <- fold_results sm (get_or_empty (successes event_processor_results)) m ;;
  let outgoing_state := manager_state sm m' in
  lift (aexit sm m') ;;;
  ret outgoing_state.

(** ** [handler] *)

(** The loop over [event_processor_results.get("errors", [])]: every
    element is logged; an exception instance is raised and caught on the
    spot, and logged once more. *)
Fixpoint log_errors (errs : list error_obj) : L unit :=
  match errs with
  | [] => ret tt
  | error :: rest =>
      log (LogError "event processor error: %s" error) ;;;
      (if is_exception error then log (LogException "event processor exception")
       else ret tt) ;;;
      log_errors rest
  end.

Definition handler (p : Processor) (event : json) : L json :=
  log (LogDebug "lambda event") ;;;
  event_processor_results <- lift (process_event p event) ;;
  log (LogDebug "event processor results") ;;;
  log_errors (get_or_empty (errors event_processor_results)) ;;;
  outgoing_state <- update_state (state_manager p) event event_processor_results ;;
  incoming_state <- lift (event_get_state event) ;;
  log (LogDebug "state") ;;;
  ret (JObj [("state"%string, outgoing_state)]).


(** * Auxiliary notions for the properties *)

Definition vta_item (t : string) (callId : json) : item :=
  <["PK"%string := JStr ("vta#" +:+ t)]>
    (<["SK"%string := JStr "VTA"]>
      (<["VoiceToneAnalysisTaskId"%string := JStr t]>
        (<["CallId"%string := callId]> ∅))).

Definition quiet {A} (m : M A) : Prop :=
  forall w o w', m w = (o, w') ->
    exists l, calls w' = calls w ++ l /\ kinesis_records l = [].

Definition quiet_on_raise {A} (m : M A) : Prop :=
  forall w e w', m w = (Raised e, w') ->
    exists l, calls w' = calls w ++ l /\ kinesis_records l = [].

(** The values the handler reads from the event, the caches, the table and
    the decoded call data on the way to a record. *)
Record segment_inputs : Type := mkSegmentInputs {
  si_taskId : string;
  si_callId : string;
  si_callRecord : item;
  si_callData : json;
  si_callStart : datetime;
  si_isCaller : json;
  si_label : string;
  si_segmentStart : datetime;
  si_segmentEnd : datetime;
  si_utteranceId : json
}.

Definition reads (env : Env) (event detail : json) (w : World) (x : segment_inputs) : Prop :=
  subscript detail "taskId" = Returned (JStr (si_taskId x)) /\
  resolved_callId w (si_taskId x) = Some (JStr (si_callId x)) /\
  resolved_call_record w (si_callId x) = Some (si_callRecord x) /\
  obind (item_get (si_callRecord x) "CallData") (loads env) = Returned (si_callData x) /\
  obind (subscript (si_callData x) "callStreamingStartTime") strptime
    = Returned (si_callStart x) /\
  subscript detail "isCaller" = Returned (si_isCaller x) /\
  current_tone detail "voiceToneLabel" = Returned (JStr (si_label x)) /\
  obind (current_tone detail "startTime") strptime = Returned (si_segmentStart x) /\
  obind (current_tone detail "endTime") strptime = Returned (si_segmentEnd x) /\
  obind (subscript event "id") slice_from3 = Returned (si_utteranceId x).

Definition participant_role (isCaller : json) : string :=
  if ne_True isCaller then "CALLER_VOICE_SENTIMENT"%string
  else "AGENT_VOICE_SENTIMENT"%string.

(** The two offsets as the handler computes them, binary64 numbers, and
    their values. *)
Definition endMillis (micros : Z) : spec_float :=
  SF64mul (total_seconds micros) (float_of_int 1000).

Definition startMillis (micros : Z) : spec_float :=
  SF64sub (endMillis micros) (float_of_int 5000).

Definition offset_micros (x : segment_inputs) : Z :=
  timedelta_micros (si_segmentEnd x) (si_callStart x).

Definition end_millis (x : segment_inputs) : Q := SF2Q (endMillis (offset_micros x)).

Definition begin_millis (x : segment_inputs) : Q := SF2Q (startMillis (offset_micros x)).

Definition segment_record (env : Env) (x : segment_inputs) : json :=
  JObj [("EventType", JStr "ADD_TRANSCRIPT_SEGMENT");
        ("CallId", JStr (si_callId x));
        ("UtteranceEvent",
          JObj [("UtteranceId", si_utteranceId x);
                ("ParticipantRole", JStr (participant_role (si_isCaller x)));
                ("isPartial", JBool false);
                ("Transcript", JStr "voice tone");
                ("Sentiment", JStr (upper (si_label x)));
                ("BeginOffsetMillis", JNum (begin_millis x));
                ("EndOffsetMillis", JNum (end_millis x))]);
        ("CreatedAt", JStr (strftime (now env)));
        ("UpdatedAt", JStr (strftime (now env)))]%string.

Definition successful_event (event detail : json) : Prop :=
  subscript event "detail" = Returned detail /\
  subscript detail "detailStatus" = Returned (JStr "VoiceToneAnalysisSuccessful").

(** The world the branches of the handler start from: the event is printed. *)
Definition printed (event : json) (w : World) : World :=
  mkWorld (voiceTaskCache w) (callDetailCache w) (dynamoTable w)
          (calls w) (stdout w ++ [PrintJson event]).

(** The log entries the loop over the errors writes. *)
Definition error_entries (errs : list error_obj) : list log_entry :=
  flat_map (fun error =>
              LogError "event processor error: %s" error ::
              (if is_exception error then [LogException "event processor exception"]
               else []))
           errs.

Definition is_debug (e : log_entry) : Prop := exists msg, e = LogDebug msg.

Definition is_error_entry (e : log_entry) : bool :=
  match e with
  | LogError _ _ => true
  | _ => false
  end.

(** The nested success items of the results, in order. *)
Definition nested_items (succ : option (list record_result)) : list json :=
  flat_map (fun r => get_or_empty (item_successes r)) (get_or_empty succ).

(** The state manager run over a list of items, without the logging. *)
Fixpoint fold_updates (sm : StateManager) (items : list json) (m : manager sm)
  : outcome (manager sm) :=
  match items with
  | [] => Returned m
  | it :: rest =>
      obind (manager_update_state sm m it) (fun r => fold_updates sm rest (fst r))
  end.

(** What [handler] returns, as a function of the event and the successes. *)
Definition outgoing (sm : StateManager) (event : json)
    (succ : option (list record_result)) : outcome json :=
  obind (event_get_state event) (fun _ =>
  obind (aenter sm event) (fun m =>
  obind (fold_updates sm (List.filter truthy (nested_items succ)) m) (fun m' =>
  obind (aexit sm m') (fun _ =>
  Returned (JObj [("state"%string, manager_state sm m')]))))).

(** * A sample environment

    Concrete data on which the handlers are run: a decoder for the JSON
    texts used below (objects, arrays, strings without escapes, integers
    and the three literals), a table holding one call record, and events of
    the shapes the voice-tone handler receives. *)

Definition dquote : ascii := ascii_of_nat 34.

Definition is_space (c : ascii) : bool :=
  let n := nat_of_ascii c in
  ((n =? 32)%nat || (n =? 9)%nat || (n =? 10)%nat || (n =? 13)%nat)%bool.

Fixpoint skip_spaces (s : string) : string :=
  match s with
  | String c r => if is_space c then skip_spaces r else s
  | EmptyString => s
  end.

(** The text of a string up to its closing quote. *)
Fixpoint scan_string (s : string) : option (string * string) :=
  match s with
  | EmptyString => None
  | String c r =>
      if Ascii.eqb c dquote then Some (EmptyString, r)
      else if Ascii.eqb c "\"%char then None
      else '(m, rest) ← scan_string r; Some (String c m, rest)
  end.

Fixpoint scan_digits (acc : Z) (s : string) : Z * string :=
  match s with
  | String c r =>
      if in_cls c digit
      then scan_digits (acc * 10 + (Z.of_nat (nat_of_ascii c) - 48)) r
      else (acc, s)
  | EmptyString => (acc, s)
  end.

Definition scan_literal (lit : string) (v : json) (s : string) : option (json * string) :=
  if String.prefix lit s
  then Some (v, string_drop (String.length lit) s)
  else None.

(** [d[k] = v] while a dict is built: a repeated key keeps its place and
    takes the last value. *)
Fixpoint dict_set (k : string) (v : json) (fields : list (string * json))
  : list (string * json) :=
  match fields with
  | [] => [(k, v)]
  | (k', v') :: rest =>
      if String.eqb k' k then (k', v) :: rest else (k', v') :: dict_set k v rest
  end.

Fixpoint decode_value (fuel : nat) (s : string) : option (json * string) :=
  match fuel with
  | O => None
  | S n =>
      match skip_spaces s with
      | EmptyString => None
      | String c r =>
          if Ascii.eqb c dquote then
            '(m, rest) ← scan_string r; Some (JStr m, rest)
          else if Ascii.eqb c "{" then
            match skip_spaces r with
            | String "}" rest => Some (JObj [], rest)
            | _ => decode_members n r []
            end
          else if Ascii.eqb c "[" then
            match skip_spaces r with
            | String "]" rest => Some (JArr [], rest)
            | _ => decode_elements n r []
            end
          else if Ascii.eqb c "-" then
            match r with
            | String d _ =>
                if in_cls d digit
                then let '(z, rest) := scan_digits 0 r in Some (JNum (inject_Z (- z)), rest)
                else None
            | EmptyString => None
            end
          else if in_cls c digit then
            let '(z, rest) := scan_digits 0 (String c r) in Some (JNum (inject_Z z), rest)
          else if Ascii.eqb c "t" then scan_literal "true" (JBool true) (String c r)
          else if Ascii.eqb c "f" then scan_literal "false" (JBool false) (String c r)
          else if Ascii.eqb c "n" then scan_literal "null" JNull (String c r)
          else None
      end
  end
with decode_members (fuel : nat) (s : string) (acc : list (string * json))
  : option (json * string) :=
  match fuel with
  | O => None
  | S n =>
      match skip_spaces s with
      | String c r =>
          if Ascii.eqb c dquote then
            '(k, rest) ← scan_string r;
            match skip_spaces rest with
            | String ":" rest1 =>
                '(v, rest2) ← decode_value n rest1;
                match skip_spaces rest2 with
                | String "," rest3 => decode_members n rest3 (dict_set k v acc)
                | String "}" rest3 => Some (JObj (dict_set k v acc), rest3)
                | _ => None
                end
            | _ => None
            end
          else None
      | EmptyString => None
      end
  end
with decode_elements (fuel : nat) (s : string) (acc : list json)
  : option (json * string) :=
  match fuel with
  | O => None
  | S n =>
      '(v, rest) ← decode_value n s;
      match skip_spaces rest with
      | String "," rest1 => decode_elements n rest1 (acc ++ [v])
      | String "]" rest1 => Some (JArr (acc ++ [v]), rest1)
      | _ => None
      end
  end.

(** The whole text is one value; a failure is [JSONDecodeError], a
    subclass of [ValueError]. *)
Definition sample_loads (s : string) : outcome json :=
  match decode_value (S (String.length s)) s with
  | Some (v, rest) =>
      match skip_spaces rest with
      | EmptyString => Returned v
      | String _ _ => Raised ValueError
      end
  | None => Raised ValueError
  end.

(** A text with [`] standing for the double quote. *)
Fixpoint quoted (s : string) : string :=
  match s with
  | EmptyString => EmptyString
  | String c r => String (if Ascii.eqb c "`" then dquote else c) (quoted r)
  end.

Definition sample_CallData : string :=
  quoted "{`callId`: `call1`, `callStreamingStartTime`: `2024-01-01T00:00:00.000Z`, `shouldRecordCall`: true, `samplingRate`: 8000}".

Definition sample_call_record : item :=
  <["PK"%string := JStr "cd#call1"]>
    (<["SK"%string := JStr "BOTH"]>
      (<["CallId"%string := JStr "call1"]>
        (<["CallData"%string := JStr sample_CallData]> ∅))).

(** The Chime service answers every start request with task ["task1"]. *)
Definition sample_env : Env :=
  mkEnv "CallDataStream"
        (fun _ _ _ _ =>
           Returned (JObj [("VoiceToneAnalysisTask"%string,
                            JObj [("VoiceToneAnalysisTaskId"%string, JStr "task1");
                                  ("VoiceToneAnalysisTaskStatus"%string, JStr "NotStarted")])]))
        (mkDatetime 2024 1 1 0 0 12 345678)
        sample_loads.

(** A fresh execution environment over a table that holds the call record. *)
Definition sample_world : World :=
  mkWorld ∅ ∅ (<[("cd#call1", "BOTH") := sample_call_record]> ∅)%string [] [].

Definition ready_event : json :=
  JObj [("id", JStr "0a1b2c3d");
        ("detail",
          JObj [("detailStatus", JStr "AnalyticsReady");
                ("voiceConnectorId", JStr "vc1");
                ("transactionId", JStr "tx1");
                ("callId", JStr "call1")])]%string.

(** A successful analysis for task ["task1"] with the given [isCaller]
    and the given segment times. *)
Definition tone_event (isCaller : json) (startTime endTime : string) : json :=
  JObj [("id", JStr "0a1b2c3d");
        ("detail",
          JObj [("detailStatus", JStr "VoiceToneAnalysisSuccessful");
                ("taskId", JStr "task1");
                ("isCaller", isCaller);
                ("voiceToneAnalysisDetails",
                  JObj [("currentAverageVoiceTone",
                          JObj [("startTime", JStr startTime);
                                ("endTime", JStr endTime);
                                ("voiceToneLabel", JStr "neutral");
                                ("voiceToneScore",
                                  JObj [("neutral", JNum 1); ("positive", JNum 0);
                                        ("negative", JNum 0)])])])])]%string.

Definition failed_event : json :=
  JObj [("id", JStr "0a1b2c3d");
        ("detail",
          JObj [("detailStatus", JStr "VoiceToneAnalysisFailed");
                ("taskId", JStr "task1")])]%string.

(** The world after the start event of the call. *)
Definition started_world : World := snd (lambda_handler sample_env ready_event sample_world).

Definition scenario_event : json :=
  tone_event (JBool false) "2024-01-01T00:00:05.000Z" "2024-01-01T00:00:10.000Z".

(** A segment that ends two seconds into the call. *)
Definition early_event : json :=
  tone_event (JBool false) "2024-01-01T00:00:00.500Z" "2024-01-01T00:00:02.000Z".

(** A segment that ends 1.001 seconds into the call. *)
Definition fraction_event : json :=
  tone_event (JBool false) "2024-01-01T00:00:00.000Z" "2024-01-01T00:00:01.001Z".

(** A segment that ends 3.192004 seconds before the call starts. *)
Definition before_start_event : json :=
  tone_event (JBool false) "2023-12-31T23:59:55.000Z" "2023-12-31T23:59:56.807996Z".

(** [isCaller] given as the number one. *)
Definition numeric_event : json :=
  tone_event (JNum 1) "2024-01-01T00:00:05.000Z" "2024-01-01T00:00:10.000Z".

Definition detail_of (event : json) : json :=
  match subscript event "detail" with
  | Returned d => d
  | Raised _ => JNull
  end.

Definition sample_callData : json :=
  JObj [("callId", JStr "call1");
        ("callStreamingStartTime", JStr "2024-01-01T00:00:00.000Z");
        ("shouldRecordCall", JBool true);
        ("samplingRate", JNum (inject_Z 8000))]%string.

Definition scenario_inputs : segment_inputs :=
  mkSegmentInputs "task1" "call1" sample_call_record sample_callData
    (mkDatetime 2024 1 1 0 0 0 0) (JBool false) "neutral"
    (mkDatetime 2024 1 1 0 0 5 0) (mkDatetime 2024 1 1 0 0 10 0) (JStr "b2c3d").

(** A state manager that starts from the event's state, a list, and
    appends every item it is given; an item that is a string is refused. *)
Definition collecting_manager : StateManager :=
  mkStateManager (list json)
    (fun event =>
       match event_get_state event with
       | Returned (JArr l) => Returned l
       | Returned _ => Returned []
       | Raised e => Raised e
       end)
    (fun m it =>
       match it with
       | JStr _ => Raised ValueError
       | _ => Returned (m ++ [it], JArr (m ++ [it]))
       end)
    (fun m => JArr m)
    (fun _ => Returned tt).

(** Two records, one processed and one failed. *)
Definition one_success_one_error : batch_results :=
  mkBatchResults
    (Some [mkRecordResult
             (Some [JObj [("CallId", JStr "call1"); ("Status", JStr "STARTED")]; JNull]%string)
             (Some [ErrValue (JStr "ignored")])])
    (Some [ErrException "ClientError('throttled')"]).

Definition sample_processor : Processor :=
  mkProcessor (fun _ => Returned one_success_one_error) collecting_manager.

Definition transcript_event : json :=
  JObj [("Records", JArr []); ("state", JArr [JNum 7])]%string.

(** The service refuses every start request. *)
Definition refusing_env : Env :=
  mkEnv "CallDataStream" (fun _ _ _ _ => Raised ClientError)
        (mkDatetime 2024 1 1 0 0 12 345678) sample_loads.

(** A world that knows the task but holds no record of the call. *)
Definition orphan_world : World :=
  mkWorld ∅ ∅ (<[("vta#task1", "VTA")%string := vta_item "task1" (JStr "call1")]> ∅) [] [].

(** The same items as [one_success_one_error], spread over two records
    with other gaps and other errors. *)
Definition regrouped_results : batch_results :=
  mkBatchResults
    (Some [mkRecordResult (Some [JObj []; JStr EmptyString]) None;
           mkRecordResult
             (Some [JObj [("CallId", JStr "call1"); ("Status", JStr "STARTED")]]%string)
             (Some [ErrException "ignored"]);
           mkRecordResult None None])
    None.

Definition empty_results : batch_results := mkBatchResults None None.


(** Another call, whose start request the service answers with ["task2"]. *)
Definition other_env : Env :=
  mkEnv "CallDataStream"
        (fun _ _ _ _ =>
           Returned (JObj [("VoiceToneAnalysisTask"%string,
                            JObj [("VoiceToneAnalysisTaskId"%string, JStr "task2")])]))
        (mkDatetime 2024 1 1 0 0 20 0) sample_loads.

Definition other_ready_event : json :=
  JObj [("id", JStr "4e5f6a7b");
        ("detail",
          JObj [("detailStatus", JStr "AnalyticsReady");
                ("voiceConnectorId", JStr "vc1");
                ("transactionId", JStr "tx2");
                ("callId", JStr "call2")])]%string.

(** After the start of the call: a segment is handled, another call
    starts, and the execution environment is replaced. *)
Definition busy_world : World :=
  cold (snd (lambda_handler other_env other_ready_event
          (snd (lambda_handler sample_env early_event started_world)))).

(** A table whose item for the task has lost its [CallId]. *)
Definition damaged_world : World :=
  mkWorld ∅ ∅
    (<[("vta#task1", "VTA")%string :=
         <["PK"%string := JStr "vta#task1"]> (<["SK"%string := JStr "VTA"]> ∅)]> ∅) [] [].

(** * Further notions: frames, coherence of the caches, flags *)

(** An event that reports the start of the analytics of a call. *)
Definition start_event (event detail : json) : Prop :=
  subscript event "detail" = Returned detail /\
  subscript detail "detailStatus" = Returned (JStr "AnalyticsReady").

(** Every run of [m] relates the world it starts from to the world it
    leaves, whatever the outcome. *)
Definition steps_within (R : World -> World -> Prop) {A} (m : M A) : Prop :=
  forall w o w', m w = (o, w') -> R w w'.

(** The same, for the runs that raise. *)
Definition raises_within (R : World -> World -> Prop) {A} (m : M A) : Prop :=
  forall w e w', m w = (Raised e, w') -> R w w'.

(** The steps that leave the caches, the table and the client calls alone. *)
Definition same_state (w w' : World) : Prop :=
  voiceTaskCache w' = voiceTaskCache w /\
  callDetailCache w' = callDetailCache w /\
  dynamoTable w' = dynamoTable w /\
  calls w' = calls w.

(** The caches agree with the table: a cached call id is the [CallId] of
    the task's item, a cached call record is the call's item. *)
Definition coherent (w : World) : Prop :=
  (forall t c, voiceTaskCache w !! t = Some c ->
     exists it, dynamoTable w !! ("vta#" +:+ t, "VTA"%string) = Some it /\
                it !! "CallId"%string = Some c) /\
  (forall c rec, callDetailCache w !! c = Some rec ->
     dynamoTable w !! ("cd#" +:+ c, "BOTH"%string) = Some rec).

(** What every run keeps: cached call records stay as they are, cached
    task ids stay cached, and caches that agree with the table still do. *)
Definition grows (w w' : World) : Prop :=
  callDetailCache w ⊆ callDetailCache w' /\
  dom (voiceTaskCache w) ⊆ dom (voiceTaskCache w') /\
  (coherent w -> coherent w').

(** A client call that writes nothing to the table and starts no task. *)
Definition is_read_or_emit (c : aws_call) : Prop :=
  match c with
  | DynamoGetItem _ _ => True
  | KinesisPutRecord _ _ _ => True
  | DynamoPutItem _ => False
  | ChimeStartVoiceToneAnalysisTask _ _ _ _ => False
  end.

(** What a run keeps when it handles no start event: the table, the cached
    call ids, and client calls that only read the table or put a record. *)
Definition reads_only (w w' : World) : Prop :=
  dynamoTable w' = dynamoTable w /\
  voiceTaskCache w ⊆ voiceTaskCache w' /\
  exists l, calls w' = calls w ++ l /\ Forall is_read_or_emit l.

(** What a run keeps when it writes nothing: the table and both caches,
    with no client call made but start requests to Chime. *)
Definition is_chime_start (c : aws_call) : Prop :=
  match c with
  | ChimeStartVoiceToneAnalysisTask _ _ _ _ => True
  | _ => False
  end.

Definition writes_nothing (w w' : World) : Prop :=
  dynamoTable w' = dynamoTable w /\
  voiceTaskCache w' = voiceTaskCache w /\
  callDetailCache w' = callDetailCache w /\
  exists l, calls w' = calls w ++ l /\ Forall is_chime_start l.

(** The same world over another table: what other writers did in between. *)
Definition with_table (tbl : gmap (string * string) item) (w : World) : World :=
  mkWorld (voiceTaskCache w) (callDetailCache w) tbl (calls w) (stdout w).

(** The character occurs in the text. *)
Fixpoint occurs (c : ascii) (s : string) : Prop :=
  match s with
  | EmptyString => False
  | String c' r => c' = c \/ occurs c r
  end.

(** [str.lower()], on the ASCII letters. *)
Definition lower_ascii (c : ascii) : ascii :=
  let n := nat_of_ascii c in
  if ((65 <=? n)%nat && (n <=? 90)%nat)%bool then ascii_of_nat (n + 32) else c.

Fixpoint lower (s : string) : string :=
  match s with
  | EmptyString => EmptyString
  | String c r => String (lower_ascii c) (lower r)
  end.

(** [getenv(name, "true").lower() == "true"], the test behind
    [IS_LEX_AGENT_ASSIST_ENABLED], [IS_LAMBDA_AGENT_ASSIST_ENABLED] and
    [IS_SENTIMENT_ANALYSIS_ENABLED]. *)
Definition flag_enabled (value : option string) : bool :=
  String.eqb (lower (match value with Some s => s | None => "true"%string end)) "true".

(** The Comprehend client is built when sentiment analysis is enabled and is
    [None] otherwise; [client] stands for the client object. *)
Definition COMPREHEND_CLIENT {C} (client : C) (IS_SENTIMENT_ANALYSIS_ENABLED : option string)
  : option C :=
  if flag_enabled IS_SENTIMENT_ANALYSIS_ENABLED then Some client else None.

(** The table reads a segment costs: none for what the caches hold. *)
Definition task_reads (w : World) (t : string) : list aws_call :=
  match voiceTaskCache w !! t with
  | Some _ => []
  | None => [DynamoGetItem ("vta#" +:+ t) "VTA"]
  end.

Definition record_reads (w : World) (c : string) : list aws_call :=
  match callDetailCache w !! c with
  | Some _ => []
  | None => [DynamoGetItem ("cd#" +:+ c) "BOTH"]
  end.

(** The world after a segment is handled: both look-ups cached, the reads
    and the put made, the event and the record printed. *)
Definition after_segment (env : Env) (event : json) (w : World) (x : segment_inputs) : World :=
  mkWorld (<[si_taskId x := JStr (si_callId x)]> (voiceTaskCache w))
          (<[si_callId x := si_callRecord x]> (callDetailCache w))
          (dynamoTable w)
          (calls w ++ task_reads w (si_taskId x) ++ record_reads w (si_callId x) ++
             [KinesisPutRecord (KINESIS_STREAM_NAME env) (segment_record env x) (si_callId x)])
          (stdout w ++ [PrintJson event; PrintJson (segment_record env x)]).

(** The records put on the stream since the execution environment started. *)
Definition stream_of (w : World) : list (string * json * string) :=
  kinesis_records (calls w).

(** Two worlds a run cannot tell apart but for its table reads: the same
    table, the same prints and stream so far, and caches that agree with
    the table on both sides. *)
Definition alike (w1 w2 : World) : Prop :=
  dynamoTable w1 = dynamoTable w2 /\
  coherent w1 /\ coherent w2 /\
  stream_of w1 = stream_of w2 /\
  stdout w1 = stdout w2.

(** [m] cannot tell two alike worlds apart: it has the same outcome on
    both and leaves them alike. *)
Definition cache_blind {A} (m : M A) : Prop :=
  forall w1 w2, alike w1 w2 ->
    fst (m w1) = fst (m w2) /\ alike (snd (m w1)) (snd (m w2)).

(** What a look-up finds when only the table is asked. *)
Definition table_callId (tbl : gmap (string * string) item) (t : string) : outcome json :=
  match tbl !! ("vta#" +:+ t, "VTA"%string) with
  | None => Raised (KeyError "Item")
  | Some it =>
      match it !! "CallId"%string with
      | Some c => Returned c
      | None => Raised (KeyError "CallId")
      end
  end.

Definition table_call_record (tbl : gmap (string * string) item) (c : string) : outcome item :=
  match tbl !! ("cd#" +:+ c, "BOTH"%string) with
  | None => Raised (KeyError "Item")
  | Some it => Returned it
  end.

(** The client calls of a run come after those made before. *)
Definition extends (w w' : World) : Prop := exists l, calls w' = calls w ++ l.

Definition is_exception_entry (e : log_entry) : bool :=
  match e with
  | LogException _ => true
  | _ => false
  end.

(** Task [t] stands for call [c]: the table maps the task's key to an item
    whose [CallId] is [c], and the cache, where it holds the task, holds
    [c] for it. *)
Definition registered (t c : string) (w : World) : Prop :=
  (exists it, dynamoTable w !! ("vta#" +:+ t, "VTA"%string) = Some it /\
              it !! "CallId"%string = Some (JStr c)) /\
  (forall v, voiceTaskCache w !! t = Some v -> v = JStr c).

(** A client call that writes the item of task [t]. *)
Definition puts_task (t : string) (call : aws_call) : Prop :=
  match call with
  | DynamoPutItem it => it !! "PK"%string = Some (JStr ("vta#" +:+ t))
  | _ => False
  end.

(** A run keeps what task [t] stands for unless it writes the task's item. *)
Definition keeps_task (t c : string) (w w' : World) : Prop :=
  exists l, calls w' = calls w ++ l /\
    (Forall (fun call => ~ puts_task t call) l ->
     registered t c w -> registered t c w').

(** What can come after a world, as far as task [t] is concerned: the
    handler runs on any event without writing the item of [t] again, the
    execution environment is replaced by a fresh one, other writers change
    other items of the table. *)
Inductive later (t : string) : World -> World -> Prop :=
| later_now w : later t w w
| later_run w w1 env event o w2 :
    later t w w1 ->
    lambda_handler env event w1 = (o, w2) ->
    Forall (fun call => ~ puts_task t call) (new_calls w1 w2) ->
    later t w w2
| later_cold w w1 : later t w w1 -> later t w (cold w1)
| later_table w w1 tbl :
    later t w w1 ->
    tbl !! ("vta#" +:+ t, "VTA"%string) = dynamoTable w1 !! ("vta#" +:+ t, "VTA"%string) ->
    later t w (with_table tbl w1).

(** ** Binary64 rounding *)

(** [N / D] lies in [[m, m + 1)], at the place [l] names: on [m], below,
    at or above the middle. *)
Definition located (N D m : Z) (l : location) : Prop :=
  0 < D /\ 0 <= m /\ m * D <= N < (m + 1) * D /\
  match l with
  | loc_Exact => N = m * D
  | loc_Inexact c => N <> m * D /\ (2 * (N - m * D) ?= D) = c
  end.

(** Half the distance between [1.0] and the next binary64 number: the
    largest relative error of a rounding to nearest. *)
Definition eps64 : Q := 1 # 9007199254740992.
(** * Properties *)

(** ** The date arithmetic on examples *)

Example strptime_example :
  strptime_str "2024-02-29T23:59:58.25Z" = Returned (mkDatetime 2024 2 29 23 59 58 250000).
Proof. reflexivity. Qed.

Example strptime_lenient :
  strptime_str "2024-2-9t3:5:8.000001z" = Returned (mkDatetime 2024 2 9 3 5 8 1).
Proof. reflexivity. Qed.

Example strptime_bad_date : strptime_str "2023-02-29T00:00:00.0Z" = Raised ValueError.
Proof. reflexivity. Qed.

Example strptime_no_fraction : strptime_str "2024-01-01T00:00:10Z" = Raised ValueError.
Proof. reflexivity. Qed.

Example strptime_trailing : strptime_str "2024-01-01T00:00:10.000Z " = Raised ValueError.
Proof. reflexivity. Qed.

Example strftime_example :
  strftime (mkDatetime 2024 1 1 0 0 10 5) = "2024-01-01T00:00:10Z"%string.
Proof. reflexivity. Qed.

Example toordinal_example : toordinal (mkDatetime 2024 1 1 0 0 0 0) = 738886.
Proof. reflexivity. Qed.

(** ** Reasoning about computations *)

Lemma bind_Returned {S A B} (m : ST S A) (f : A -> ST S B) w b w' :
  bind m f w = (Returned b, w') ->
  exists a w1, m w = (Returned a, w1) /\ f a w1 = (Returned b, w').
Proof.
  unfold bind. destruct (m w) as [[a|e] w1]; intros H.
  - exists a, w1. auto.
  - discriminate.
Qed.

Lemma bind_Raised {S A B} (m : ST S A) (f : A -> ST S B) w e w' :
  bind m f w = (Raised e, w') ->
  m w = (Raised e, w') \/
  exists a w1, m w = (Returned a, w1) /\ f a w1 = (Raised e, w').
Proof.
  unfold bind. destruct (m w) as [[a|e1] w1]; intros H.
  - right. exists a, w1. auto.
  - left. inversion H. reflexivity.
Qed.

Lemma bind_run {S A B} (m : ST S A) (f : A -> ST S B) w a w1 :
  m w = (Returned a, w1) -> bind m f w = f a w1.
Proof. intros H. unfold bind. rewrite H. reflexivity. Qed.

Lemma lift_inv {S A} (o r : outcome A) (w w' : S) :
  lift o w = (r, w') -> o = r /\ w' = w.
Proof. unfold lift. intros H. inversion H. auto. Qed.

Lemma ret_inv {S A} (a : A) (r : outcome A) (w w' : S) :
  ret a w = (r, w') -> r = Returned a /\ w' = w.
Proof. unfold ret. intros H. inversion H. auto. Qed.

(** Peel one step off a run that returned: [step H a w1 H1] names the value,
    the world and the equation of the first computation; [pure H a H1] is
    for a step that leaves the world alone. *)
Ltac step H a w1 H1 :=
  apply bind_Returned in H; destruct H as (a & w1 & H1 & H).

Ltac pure H a H1 :=
  let w1 := fresh "w" in
  step H a w1 H1; apply lift_inv in H1; destruct H1 as [H1 ->].

(** ** The table helpers, as equations *)

Lemma put_voice_task_eq t callId w :
  put_voice_task (JStr t) callId w =
  (Returned tt,
   mkWorld (<[t := callId]> (voiceTaskCache w)) (callDetailCache w)
           (<[("vta#" +:+ t, "VTA"%string) := vta_item t callId]> (dynamoTable w))
           (calls w ++ [DynamoPutItem (vta_item t callId)]) (stdout w)).
Proof. reflexivity. Qed.

Lemma vta_item_CallId t callId : vta_item t callId !! "CallId"%string = Some callId.
Proof. unfold vta_item. by simplify_map_eq. Qed.

Lemma get_callId_hit t c w :
  voiceTaskCache w !! t = Some c ->
  get_callId_for_voiceTask (JStr t) w = (Returned c, w).
Proof.
  intros H. unfold get_callId_for_voiceTask, bind, get_world. rewrite H. reflexivity.
Qed.

Lemma get_callId_miss t w :
  voiceTaskCache w !! t = None ->
  get_callId_for_voiceTask (JStr t) w =
  let w1 := mkWorld (voiceTaskCache w) (callDetailCache w) (dynamoTable w)
                    (calls w ++ [DynamoGetItem ("vta#" +:+ t) "VTA"]) (stdout w) in
  match dynamoTable w !! ("vta#" +:+ t, "VTA"%string) with
  | None => (Raised (KeyError "Item"), w1)
  | Some it =>
      match it !! "CallId"%string with
      | None => (Raised (KeyError "CallId"), w1)
      | Some c =>
          (Returned c,
           mkWorld (<[t := c]> (voiceTaskCache w)) (callDetailCache w) (dynamoTable w)
                   (calls w ++ [DynamoGetItem ("vta#" +:+ t) "VTA"]) (stdout w))
      end
  end.
Proof.
  intros H. unfold get_callId_for_voiceTask, bind, get_world. rewrite H.
  unfold dynamo_get_item, bind, record_call, get_world, ret, lift; simpl.
  destruct (dynamoTable w !! _) as [it|]; simpl; [|reflexivity].
  unfold item_get. destruct (it !! _); reflexivity.
Qed.

Lemma get_call_record_hit c rec w :
  callDetailCache w !! c = Some rec ->
  get_call_record (JStr c) w = (Returned rec, w).
Proof.
  intros H. unfold get_call_record, bind, get_world. rewrite H. reflexivity.
Qed.

Lemma get_call_record_miss c w :
  callDetailCache w !! c = None ->
  get_call_record (JStr c) w =
  match dynamoTable w !! ("cd#" +:+ c, "BOTH"%string) with
  | None =>
      (Raised (KeyError "Item"),
       mkWorld (voiceTaskCache w) (callDetailCache w) (dynamoTable w)
               (calls w ++ [DynamoGetItem ("cd#" +:+ c) "BOTH"]) (stdout w))
  | Some it =>
      (Returned it,
       mkWorld (voiceTaskCache w) (<[c := it]> (callDetailCache w)) (dynamoTable w)
               (calls w ++ [DynamoGetItem ("cd#" +:+ c) "BOTH"]) (stdout w))
  end.
Proof.
  intros H. unfold get_call_record, bind, get_world. rewrite H.
  unfold dynamo_get_item, bind, record_call, get_world, ret, lift; simpl.
  destruct (dynamoTable w !! _) as [it|]; reflexivity.
Qed.

Lemma new_calls_app w w' l : calls w' = calls w ++ l -> new_calls w w' = l.
Proof. intros H. unfold new_calls. rewrite H. apply drop_app_length. Qed.

(** ** The task-to-call mapping *)

(** C3: after [put_voice_task(t, c)] the call [get_callId_for_voiceTask(t)]
    returns [c], from the process-local cache while it holds the entry and
    from the durable table in an execution environment whose caches are
    empty. *)
Theorem put_then_get_callId (t c : string) (w : World) :
  let w1 := snd (put_voice_task (JStr t) (JStr c) w) in
  fst (put_voice_task (JStr t) (JStr c) w) = Returned tt /\
  fst (get_callId_for_voiceTask (JStr t) w1) = Returned (JStr c) /\
  new_calls w1 (snd (get_callId_for_voiceTask (JStr t) w1)) = [] /\
  fst (get_callId_for_voiceTask (JStr t) (cold w1)) = Returned (JStr c) /\
  new_calls (cold w1) (snd (get_callId_for_voiceTask (JStr t) (cold w1)))
    = [DynamoGetItem ("vta#" +:+ t) "VTA"].
Proof.
  rewrite put_voice_task_eq. cbn [fst snd]. split; [reflexivity|].
  rewrite (get_callId_hit t (JStr c)) by (simpl; apply lookup_insert_eq).
  cbn [fst snd]. split; [reflexivity|]. split.
  { apply new_calls_app. symmetry. apply app_nil_r. }
  rewrite get_callId_miss by (simpl; apply lookup_empty).
  cbn [cold dynamoTable calls]. rewrite lookup_insert_eq, vta_item_CallId.
  cbn [fst snd]. split; [reflexivity|].
  apply new_calls_app. reflexivity.
Qed.

(** C7: the call record is read at partition key ["cd#" + callId] and sort
    key ["BOTH"]; the task-to-call mapping is written and read at partition
    key ["vta#" + taskId] and sort key ["VTA"].  A cache hit reads
    nothing. *)
Theorem table_keys (c t callId : string) (w : World) :
  new_calls w (snd (get_call_record (JStr c) w)) =
    match callDetailCache w !! c with
    | Some _ => []
    | None => [DynamoGetItem ("cd#" +:+ c) "BOTH"]
    end /\
  (exists it,
     new_calls w (snd (put_voice_task (JStr t) (JStr callId) w)) = [DynamoPutItem it] /\
     it !! "PK"%string = Some (JStr ("vta#" +:+ t)) /\
     it !! "SK"%string = Some (JStr "VTA") /\
     it !! "CallId"%string = Some (JStr callId) /\
     dynamoTable (snd (put_voice_task (JStr t) (JStr callId) w)) =
       <[("vta#" +:+ t, "VTA"%string) := it]> (dynamoTable w)) /\
  new_calls w (snd (get_callId_for_voiceTask (JStr t) w)) =
    match voiceTaskCache w !! t with
    | Some _ => []
    | None => [DynamoGetItem ("vta#" +:+ t) "VTA"]
    end.
Proof.
  split; [|split].
  - destruct (callDetailCache w !! c) as [rec|] eqn:E.
    + rewrite (get_call_record_hit c rec) by exact E.
      apply new_calls_app. symmetry. apply app_nil_r.
    + rewrite get_call_record_miss by exact E.
      destruct (dynamoTable w !! _); apply new_calls_app; reflexivity.
  - exists (vta_item t (JStr callId)). rewrite put_voice_task_eq. cbn [snd dynamoTable].
    split; [apply new_calls_app; reflexivity|].
    split; [unfold vta_item; by simplify_map_eq|].
    split; [unfold vta_item; by simplify_map_eq|].
    split; [apply vta_item_CallId|reflexivity].
  - destruct (voiceTaskCache w !! t) as [c0|] eqn:E.
    + rewrite (get_callId_hit t c0) by exact E.
      apply new_calls_app. symmetry. apply app_nil_r.
    + rewrite get_callId_miss by exact E. cbv zeta.
      destruct (dynamoTable w !! _) as [it|]; [destruct (it !! _)|];
        apply new_calls_app; reflexivity.
Qed.

(** ** Events the handler ignores *)

Lemma eq_str_false (v : json) (s : string) : v <> JStr s -> eq_str v s = false.
Proof.
  intros H. destruct v; try reflexivity. simpl.
  apply String.eqb_neq. intros ->. apply H. reflexivity.
Qed.

(** C10: an event whose [detail.detailStatus] is neither ["AnalyticsReady"]
    nor ["VoiceToneAnalysisSuccessful"] makes the handler return [None]
    with no client call made (no task started, no table write, no stream
    record), the table and both caches unchanged; the only effect is the
    print of the event. *)
Theorem other_status_is_ignored (env : Env) (event detail status : json) (w : World) :
  subscript event "detail" = Returned detail ->
  subscript detail "detailStatus" = Returned status ->
  status <> JStr "AnalyticsReady" ->
  status <> JStr "VoiceToneAnalysisSuccessful" ->
  exists w',
    lambda_handler env event w = (Returned tt, w') /\
    calls w' = calls w /\
    new_calls w w' = [] /\
    emitted w w' = [] /\
    dynamoTable w' = dynamoTable w /\
    voiceTaskCache w' = voiceTaskCache w /\
    callDetailCache w' = callDetailCache w /\
    stdout w' = stdout w ++ [PrintJson event].
Proof.
  intros Hd Hs Hn1 Hn2.
  exists (mkWorld (voiceTaskCache w) (callDetailCache w) (dynamoTable w)
                  (calls w) (stdout w ++ [PrintJson event])).
  assert (Hnew : forall w', calls w' = calls w -> new_calls w w' = []).
  { intros w' E. apply new_calls_app. rewrite E. symmetry. apply app_nil_r. }
  split.
  - unfold lambda_handler, bind, print, lift, ret. rewrite Hd, Hs.
    rewrite (eq_str_false _ _ Hn1), (eq_str_false _ _ Hn2). reflexivity.
  - cbn [calls dynamoTable voiceTaskCache callDetailCache stdout].
    repeat split; try reflexivity.
    + apply Hnew. reflexivity.
    + unfold emitted. rewrite Hnew; reflexivity.
Qed.

(** ** Computations that put nothing on the stream *)

Lemma kinesis_records_app l1 l2 :
  kinesis_records (l1 ++ l2) = kinesis_records l1 ++ kinesis_records l2.
Proof. apply omap_app. Qed.

Lemma quiet_same {A} (m : M A) :
  (forall w o w', m w = (o, w') -> calls w' = calls w) -> quiet m.
Proof.
  intros H w o w' E. exists []. rewrite app_nil_r. split; [eauto|reflexivity].
Qed.

Lemma quiet_ret {A} (a : A) : quiet (ret a).
Proof. apply quiet_same. intros w o w' E. apply ret_inv in E as [_ ->]. reflexivity. Qed.

Lemma quiet_raise {A} e : quiet (@raise World A e).
Proof. apply quiet_same. intros w o w' E. inversion E. reflexivity. Qed.

Lemma quiet_lift {A} (x : outcome A) : quiet (lift x).
Proof. apply quiet_same. intros w o w' E. apply lift_inv in E as [_ ->]. reflexivity. Qed.

Lemma quiet_get_world : quiet get_world.
Proof. apply quiet_same. intros w o w' E. inversion E. reflexivity. Qed.

Lemma quiet_print l : quiet (print l).
Proof. apply quiet_same. intros w o w' E. inversion E. reflexivity. Qed.

Lemma quiet_set_voiceTaskCache k v : quiet (set_voiceTaskCache k v).
Proof. apply quiet_same. intros w o w' E. inversion E. reflexivity. Qed.

Lemma quiet_set_callDetailCache k v : quiet (set_callDetailCache k v).
Proof. apply quiet_same. intros w o w' E. inversion E. reflexivity. Qed.

Lemma quiet_record_call c : kinesis_records [c] = [] -> quiet (record_call c).
Proof. intros H w o w' E. inversion E. exists [c]. auto. Qed.

Lemma quiet_bind {A B} (m : M A) (f : A -> M B) :
  quiet m -> (forall a, quiet (f a)) -> quiet (bind m f).
Proof.
  intros Hm Hf w o w' E. unfold bind in E.
  destruct (m w) as [[a|e] w1] eqn:E1.
  - destruct (Hm _ _ _ E1) as (l1 & C1 & K1).
    destruct (Hf a _ _ _ E) as (l2 & C2 & K2).
    exists (l1 ++ l2). rewrite C2, C1, kinesis_records_app, K1, K2, app_assoc. auto.
  - inversion E; subst. eapply Hm; eauto.
Qed.

Lemma quiet_on_raise_bind {A B} (m : M A) (f : A -> M B) :
  quiet m -> (forall a, quiet_on_raise (f a)) -> quiet_on_raise (bind m f).
Proof.
  intros Hm Hf w e w' E. apply bind_Raised in E as [E | (a & w1 & E1 & E2)].
  - eapply Hm; eauto.
  - destruct (Hm _ _ _ E1) as (l1 & C1 & K1).
    destruct (Hf a _ _ _ E2) as (l2 & C2 & K2).
    exists (l1 ++ l2). rewrite C2, C1, kinesis_records_app, K1, K2, app_assoc. auto.
Qed.

Lemma quiet_if {A} (b : bool) (m1 m2 : M A) : quiet m1 -> quiet m2 -> quiet (if b then m1 else m2).
Proof. destruct b; auto. Qed.

Create HintDb quiet.
#[local] Hint Resolve quiet_ret quiet_raise quiet_lift quiet_get_world quiet_print
  quiet_set_voiceTaskCache quiet_set_callDetailCache quiet_if : quiet.

Ltac quiet_steps :=
  repeat first
    [ solve [auto with quiet]
    | apply quiet_record_call; reflexivity
    | apply quiet_bind; [|intros ?] ].

Lemma quiet_dynamo_get_item pk sk : quiet (dynamo_get_item pk sk).
Proof. unfold dynamo_get_item. quiet_steps. Qed.

Lemma quiet_dynamo_put_item pk sk it : quiet (dynamo_put_item pk sk it).
Proof.
  unfold dynamo_put_item. quiet_steps.
  apply quiet_same. intros w o w' E. inversion E. reflexivity.
Qed.

#[local] Hint Resolve quiet_dynamo_get_item quiet_dynamo_put_item : quiet.

Lemma quiet_get_call_record v : quiet (get_call_record v).
Proof.
  unfold get_call_record. destruct v; auto with quiet. quiet_steps.
  destruct (callDetailCache _ !! _); quiet_steps.
Qed.

Lemma quiet_get_callId_for_voiceTask v : quiet (get_callId_for_voiceTask v).
Proof.
  unfold get_callId_for_voiceTask. destruct v; auto with quiet. quiet_steps.
  destruct (voiceTaskCache _ !! _); quiet_steps.
Qed.

Lemma quiet_put_voice_task v c : quiet (put_voice_task v c).
Proof. unfold put_voice_task. destruct v; cbv zeta; auto with quiet. quiet_steps. Qed.

#[local] Hint Resolve quiet_get_call_record quiet_get_callId_for_voiceTask
  quiet_put_voice_task : quiet.

Lemma quiet_chime_start env a b c : quiet (chime_start env a b c).
Proof. unfold chime_start. quiet_steps. Qed.

#[local] Hint Resolve quiet_chime_start : quiet.

Lemma quiet_analytics_ready env detail : quiet (analytics_ready env detail).
Proof. unfold analytics_ready. quiet_steps. Qed.

Lemma kinesis_put_record_quiet_on_raise env putObj callId :
  quiet_on_raise (kinesis_put_record env putObj callId).
Proof.
  intros w e w' E. unfold kinesis_put_record in E.
  assert (Hnil : forall w1, calls w1 = calls w1 ++ [] /\ kinesis_records [] = [])
    by (intros w1; rewrite app_nil_r; auto).
  apply bind_Raised in E as [E | (a & w1 & E1 & E2)].
  - apply lift_inv in E as [_ ->]. exists []. apply Hnil.
  - apply lift_inv in E1 as [_ ->].
    apply bind_Raised in E2 as [E | (b & w2 & _ & E3)].
    + apply lift_inv in E as [_ ->]. exists []. apply Hnil.
    + inversion E3.
Qed.

Lemma voice_tone_successful_quiet_on_raise env event detail :
  quiet_on_raise (voice_tone_successful env event detail).
Proof.
  unfold voice_tone_successful.
  repeat first
    [ apply kinesis_put_record_quiet_on_raise
    | apply quiet_on_raise_bind; [solve [auto with quiet]|intros ?] ].
Qed.

(** ** What a run on a successful analysis reads and emits *)

Lemma get_callId_Returned v c w w1 :
  get_callId_for_voiceTask v w = (Returned c, w1) ->
  exists t, v = JStr t /\ resolved_callId w t = Some c /\
    voiceTaskCache w1 !! t = Some c /\
    callDetailCache w1 = callDetailCache w /\
    dynamoTable w1 = dynamoTable w /\
    stdout w1 = stdout w.
Proof.
  intros H. destruct v; try discriminate H. exists s. split; [reflexivity|].
  unfold resolved_callId.
  destruct (voiceTaskCache w !! s) as [c0|] eqn:E.
  - rewrite (get_callId_hit s c0) in H by exact E. inversion H; subst. auto.
  - rewrite get_callId_miss in H by exact E. cbv zeta in H.
    destruct (dynamoTable w !! _) as [it|]; [|discriminate H]. simpl.
    destruct (it !! _) as [c1|]; [|discriminate H].
    inversion H; subst. simpl. rewrite lookup_insert_eq. auto.
Qed.

Lemma get_call_record_Returned v rec w w1 :
  get_call_record v w = (Returned rec, w1) ->
  exists c, v = JStr c /\ resolved_call_record w c = Some rec /\
    stdout w1 = stdout w.
Proof.
  intros H. destruct v; try discriminate H. exists s. split; [reflexivity|].
  unfold resolved_call_record.
  destruct (callDetailCache w !! s) as [r0|] eqn:E.
  - rewrite (get_call_record_hit s r0) in H by exact E. inversion H; subst. auto.
  - rewrite get_call_record_miss in H by exact E.
    destruct (dynamoTable w !! _) as [it|]; [|discriminate H].
    inversion H; subst. auto.
Qed.

Lemma call_upper_Returned v r : call_upper v = Returned r -> exists s, v = JStr s /\ r = JStr (upper s).
Proof. destruct v; try discriminate. intros H. inversion H. eauto. Qed.

Lemma param_str_min1_Returned v s :
  param_str_min1 v = Returned s -> v = JStr s /\ s <> EmptyString.
Proof.
  destruct v as [| | |t| |]; try discriminate. destruct t; [discriminate|].
  intros H. inversion H. split; [reflexivity|discriminate].
Qed.

Lemma param_str_min1_run s : s <> EmptyString -> param_str_min1 (JStr s) = Returned s.
Proof. destruct s; [congruence|reflexivity]. Qed.

Lemma kinesis_put_record_Returned env putObj callId w w' :
  kinesis_put_record env putObj callId w = (Returned tt, w') ->
  exists c, callId = JStr c /\ c <> EmptyString /\
    KINESIS_STREAM_NAME env <> EmptyString /\
    calls w' = calls w ++ [KinesisPutRecord (KINESIS_STREAM_NAME env) putObj c] /\
    stdout w' = stdout w.
Proof.
  unfold kinesis_put_record. intros H. pure H streamName Hstream. pure H pk Hpk.
  apply param_str_min1_Returned in Hstream as [Hs Hs'].
  apply param_str_min1_Returned in Hpk as [-> Hpk'].
  inversion Hs; subst streamName. inversion H; subst. exists pk. auto.
Qed.

Lemma voice_tone_successful_inv env event detail w w' :
  voice_tone_successful env event detail w = (Returned tt, w') ->
  exists x l,
    reads env event detail w x /\
    calls w' = calls w ++ l ++
      [KinesisPutRecord (KINESIS_STREAM_NAME env) (segment_record env x) (si_callId x)] /\
    kinesis_records l = [] /\
    stdout w' = stdout w ++ [PrintJson (segment_record env x)].
Proof.
  unfold voice_tone_successful. intros H.
  pure H taskId HtaskId.
  step H callId w1 Hget1.
  pure H taskId' HtaskId'.
  step H callId' w2 Hget2.
  step H callRecord w3 Hrec.
  pure H callDataStr HcallDataStr.
  pure H callData HcallData.
  pure H callStartTimeStr HstartStr.
  pure H callStartTime Hstart.
  pure H isCaller HisCaller.
  pure H label Hlabel.
  pure H sentiment Hsentiment.
  pure H segmentStartTimeStr HsegStartStr.
  pure H segmentStartTime HsegStart.
  pure H segmentEndTimeStr HsegEndStr.
  pure H segmentEndTime HsegEnd.
  pure H eid Hid.
  pure H utteranceId Hutt.
  step H u w4 Hprint.
  (* the two look-ups of the call id agree, the second is a cache hit *)
  rewrite HtaskId in HtaskId'. inversion HtaskId'; subst taskId'.
  destruct (quiet_get_callId_for_voiceTask _ _ _ _ Hget1) as (l1 & Hc1 & Hk1).
  apply get_callId_Returned in Hget1 as (t & -> & Hres & Hhit & Hcdc & Htab & Hout1).
  rewrite (get_callId_hit t callId) in Hget2 by exact Hhit.
  inversion Hget2; subst callId' w2.
  destruct (quiet_get_call_record _ _ _ _ Hrec) as (l2 & Hc2 & Hk2).
  apply get_call_record_Returned in Hrec as (c & -> & Hrecord & Hout3).
  apply call_upper_Returned in Hsentiment as (s & -> & ->).
  inversion Hprint; subst w4 u. clear Hprint.
  apply kinesis_put_record_Returned in H as (c' & Hc' & _ & _ & Hcalls & Hout).
  inversion Hc'; subst c'. cbn [calls stdout] in Hcalls, Hout.
  exists (mkSegmentInputs t c callRecord callData callStartTime isCaller s
            segmentStartTime segmentEndTime utteranceId), (l1 ++ l2).
  split; [|split; [|split]].
  - unfold reads; cbn [si_taskId si_callId si_callRecord si_callData si_callStart
      si_isCaller si_label si_segmentStart si_segmentEnd si_utteranceId].
    repeat split; try assumption.
    + unfold resolved_call_record in *. rewrite <- Hcdc, <- Htab. exact Hrecord.
    + rewrite HcallDataStr. exact HcallData.
    + rewrite HstartStr. exact Hstart.
    + rewrite HsegStartStr. exact HsegStart.
    + rewrite HsegEndStr. exact HsegEnd.
    + rewrite Hid. exact Hutt.
  - rewrite Hcalls, Hc2, Hc1, <- !app_assoc. reflexivity.
  - rewrite kinesis_records_app, Hk1, Hk2. reflexivity.
  - rewrite Hout, Hout3, Hout1. reflexivity.
Qed.

Lemma reads_functional env event detail w x x' :
  reads env event detail w x -> reads env event detail w x' -> x = x'.
Proof.
  unfold reads. destruct x, x'. simpl.
  intros (A1 & A2 & A3 & A4 & A5 & A6 & A7 & A8 & A9 & A10)
         (B1 & B2 & B3 & B4 & B5 & B6 & B7 & B8 & B9 & B10).
  rewrite A1 in B1. inversion B1; subst.
  rewrite A2 in B2. inversion B2; subst.
  rewrite A3 in B3. inversion B3; subst.
  rewrite A4 in B4. inversion B4; subst.
  rewrite A5 in B5. inversion B5; subst.
  rewrite A6 in B6. inversion B6; subst.
  rewrite A7 in B7. inversion B7; subst.
  rewrite A8 in B8. inversion B8; subst.
  rewrite A9 in B9. inversion B9; subst.
  rewrite A10 in B10. inversion B10; subst.
  reflexivity.
Qed.

Lemma get_callId_run t c w :
  resolved_callId w t = Some c ->
  exists w1, get_callId_for_voiceTask (JStr t) w = (Returned c, w1) /\
    voiceTaskCache w1 !! t = Some c /\
    callDetailCache w1 = callDetailCache w /\
    dynamoTable w1 = dynamoTable w.
Proof.
  unfold resolved_callId. intros H.
  destruct (voiceTaskCache w !! t) as [c0|] eqn:E.
  - inversion H; subst. exists w. rewrite (get_callId_hit t c) by exact E. auto.
  - rewrite get_callId_miss by exact E. cbv zeta.
    destruct (dynamoTable w !! _) as [it|]; [|discriminate H]. simpl in H.
    rewrite H. eexists. split; [reflexivity|]. simpl. rewrite lookup_insert_eq. auto.
Qed.

Lemma get_call_record_run c rec w :
  resolved_call_record w c = Some rec ->
  exists w1, get_call_record (JStr c) w = (Returned rec, w1).
Proof.
  unfold resolved_call_record. intros H.
  destruct (callDetailCache w !! c) as [r0|] eqn:E.
  - inversion H; subst. exists w. apply get_call_record_hit. exact E.
  - rewrite get_call_record_miss by exact E. rewrite H. eauto.
Qed.

Lemma obind_Returned {A B} (o : outcome A) (f : A -> outcome B) b :
  obind o f = Returned b -> exists a, o = Returned a /\ f a = Returned b.
Proof. destruct o; simpl; [eauto|discriminate]. Qed.

Lemma lift_run {A B} (o : outcome A) (f : A -> M B) a w :
  o = Returned a -> bind (lift o) f w = f a w.
Proof. intros ->. reflexivity. Qed.

Lemma voice_tone_successful_run env event detail w x :
  reads env event detail w x ->
  KINESIS_STREAM_NAME env <> EmptyString ->
  si_callId x <> EmptyString ->
  exists w', voice_tone_successful env event detail w = (Returned tt, w').
Proof.
  intros (A1 & A2 & A3 & A4 & A5 & A6 & A7 & A8 & A9 & A10) Hstream Hcid.
  apply obind_Returned in A4 as (callDataStr & A4 & A4').
  apply obind_Returned in A5 as (startStr & A5 & A5').
  apply obind_Returned in A8 as (segStartStr & A8 & A8').
  apply obind_Returned in A9 as (segEndStr & A9 & A9').
  apply obind_Returned in A10 as (eid & A10 & A10').
  destruct (get_callId_run _ _ _ A2) as (w1 & G1 & Hhit & Hcdc & Htab).
  assert (A3' : resolved_call_record w1 (si_callId x) = Some (si_callRecord x)).
  { unfold resolved_call_record in *. rewrite Hcdc, Htab. exact A3. }
  destruct (get_call_record_run _ _ _ A3') as (w3 & G3).
  unfold voice_tone_successful.
  rewrite (lift_run _ _ _ _ A1), (bind_run _ _ _ _ _ G1).
  rewrite (lift_run _ _ _ _ A1), (bind_run _ _ _ _ _ (get_callId_hit _ _ _ Hhit)).
  rewrite (bind_run _ _ _ _ _ G3).
  rewrite (lift_run _ _ _ _ A4), (lift_run _ _ _ _ A4'), (lift_run _ _ _ _ A5),
    (lift_run _ _ _ _ A5'), (lift_run _ _ _ _ A6), (lift_run _ _ _ _ A7).
  cbn [call_upper]. rewrite (lift_run _ _ (JStr (upper (si_label x))) _ eq_refl).
  rewrite (lift_run _ _ _ _ A8), (lift_run _ _ _ _ A8'), (lift_run _ _ _ _ A9),
    (lift_run _ _ _ _ A9'), (lift_run _ _ _ _ A10), (lift_run _ _ _ _ A10').
  unfold bind at 1. unfold print at 1. cbv iota beta.
  unfold kinesis_put_record.
  rewrite (lift_run _ _ _ _ (param_str_min1_run _ Hstream)),
    (lift_run _ _ _ _ (param_str_min1_run _ Hcid)).
  eexists. reflexivity.
Qed.

Lemma reads_printed env event detail w x :
  reads env event detail (printed event w) x <-> reads env event detail w x.
Proof. reflexivity. Qed.

Lemma eq_str_true v s : eq_str v s = true -> v = JStr s.
Proof.
  destruct v; try discriminate. simpl. intros H. apply String.eqb_eq in H. congruence.
Qed.

Lemma emitted_quiet w w' l :
  calls w' = calls w ++ l -> kinesis_records l = [] -> emitted w w' = [].
Proof. intros H K. unfold emitted. rewrite (new_calls_app _ _ _ H). exact K. Qed.

Lemma emitted_one w w' l r :
  calls w' = calls w ++ l ++ [r] -> kinesis_records l = [] ->
  emitted w w' = kinesis_records [r].
Proof.
  intros H K. unfold emitted. rewrite (new_calls_app _ _ _ H).
  rewrite kinesis_records_app, K. reflexivity.
Qed.

(** A run of the handler puts nothing on the stream, or it returns, the
    event reports a successful analysis and the one record put is
    [segment_record]. *)
Lemma lambda_handler_emits env event w o w' :
  lambda_handler env event w = (o, w') ->
  emitted w w' = [] \/
  exists detail x,
    o = Returned tt /\
    successful_event event detail /\
    reads env event detail w x /\
    emitted w w' = [(KINESIS_STREAM_NAME env, segment_record env x, si_callId x)].
Proof.
  unfold lambda_handler. intros H.
  unfold bind at 1 in H. change (print (PrintJson event) w) with (Returned tt, printed event w) in H.
  cbv iota beta in H.
  unfold bind at 1 in H. unfold lift at 1 in H.
  destruct (subscript event "detail") as [detail|e] eqn:Hd.
  2:{ inversion H; subst. left. apply (emitted_quiet _ _ []); [|reflexivity].
      simpl. symmetry. apply app_nil_r. }
  unfold bind at 1 in H. unfold lift at 1 in H.
  destruct (subscript detail "detailStatus") as [status|e] eqn:Hs.
  2:{ inversion H; subst. left. apply (emitted_quiet _ _ []); [|reflexivity].
      simpl. symmetry. apply app_nil_r. }
  destruct (eq_str status "AnalyticsReady") eqn:Hready.
  - (* the start branch runs; the second test fails *)
    apply eq_str_true in Hready. subst status. left.
    assert (Hq : quiet (analytics_ready env detail ;;;
                        status' <- lift (Returned (JStr "AnalyticsReady")) ;;
                        (if eq_str status' "VoiceToneAnalysisSuccessful"
                         then voice_tone_successful env event detail else ret tt) ;;;
                        ret tt)).
    { apply quiet_bind; [apply quiet_analytics_ready|intros _].
      change (quiet (A := unit) (ret tt ;;; ret tt)). quiet_steps. }
    destruct (Hq _ _ _ H) as (l & Hc & Hk).
    eapply emitted_quiet; eauto.
  - unfold bind at 1 in H. unfold ret at 1 in H. cbv iota beta in H.
    unfold bind at 1 in H. unfold lift at 1 in H. cbv iota beta in H.
    destruct (eq_str status "VoiceToneAnalysisSuccessful") eqn:Hsucc.
    + apply eq_str_true in Hsucc. subst status.
      unfold bind at 1 in H.
      destruct (voice_tone_successful env event detail (printed event w))
        as [[[]|e] w2] eqn:Hrun.
      * inversion H; subst. right.
        apply voice_tone_successful_inv in Hrun as (x & l & Hreads & Hc & Hk & _).
        exists detail, x. split; [reflexivity|]. split; [split; assumption|].
        split; [apply reads_printed; exact Hreads|].
        rewrite (emitted_one w w' l _ Hc Hk). reflexivity.
      * inversion H; subst. left.
        destruct (voice_tone_successful_quiet_on_raise _ _ _ _ _ _ Hrun) as (l & Hc & Hk).
        eapply emitted_quiet; eauto.
    + inversion H; subst. left. apply (emitted_quiet _ _ []); [|reflexivity].
      simpl. symmetry. apply app_nil_r.
Qed.

(** * Binary64 arithmetic

    What the standard library's [SFdiv], [SFmul] and [SFsub] return on
    finite operands, from their definitions. *)

Section Binary64.
Lemma digits2_pos_bounds p :
  2 ^ (Zpos (digits2_pos p) - 1) <= Zpos p < 2 ^ Zpos (digits2_pos p).
Proof.
  induction p as [p IH|p IH|]; cbn [digits2_pos].
  - rewrite Pos2Z.inj_succ. change (Zpos p~1) with (2 * Zpos p + 1).
    replace (Z.succ (Zpos (digits2_pos p)) - 1) with (Z.succ (Zpos (digits2_pos p) - 1)) by lia.
    rewrite !Z.pow_succ_r by lia.
    set (a := 2 ^ (Zpos (digits2_pos p) - 1)) in *. set (b := 2 ^ Zpos (digits2_pos p)) in *. clearbody a b. lia.
  - rewrite Pos2Z.inj_succ. change (Zpos p~0) with (2 * Zpos p).
    replace (Z.succ (Zpos (digits2_pos p)) - 1) with (Z.succ (Zpos (digits2_pos p) - 1)) by lia.
    rewrite !Z.pow_succ_r by lia.
    set (a := 2 ^ (Zpos (digits2_pos p) - 1)) in *. set (b := 2 ^ Zpos (digits2_pos p)) in *. clearbody a b. lia.
  - simpl. lia.
Qed.

Lemma Zdigits2_bounds M :
  0 < M -> 0 < Zdigits2 M /\ 2 ^ (Zdigits2 M - 1) <= M < 2 ^ Zdigits2 M.
Proof.
  destruct M as [|p|p]; try lia. intros _. cbn [Zdigits2].
  split; [lia|apply digits2_pos_bounds].
Qed.

Lemma Zdigits2_le M k : 0 < M -> 0 <= k -> M < 2 ^ k -> Zdigits2 M <= k.
Proof.
  intros HM Hk H. destruct (Zdigits2_bounds M HM) as (Hd & Hlo & _).
  destruct (Z_le_gt_dec (Zdigits2 M) k) as [|Hgt]; [assumption|exfalso].
  assert (2 ^ k <= 2 ^ (Zdigits2 M - 1)) by (apply Z.pow_le_mono_r; lia). lia.
Qed.

Lemma Zdigits2_ge M k : 0 < M -> 2 ^ (k - 1) <= M -> k <= Zdigits2 M.
Proof.
  intros HM H. destruct (Zdigits2_bounds M HM) as (Hd & _ & Hhi).
  destruct (Z_le_gt_dec k (Zdigits2 M)) as [|Hgt]; [assumption|exfalso].
  assert (2 ^ Zdigits2 M <= 2 ^ (k - 1)) by (apply Z.pow_le_mono_r; lia). lia.
Qed.

Lemma iter_pos_inv {A} (f : A -> A) (Inv : Z -> A -> Prop) :
  (forall k x, 0 <= k -> Inv k x -> Inv (k + 1) (f x)) ->
  forall n k x, 0 <= k -> Inv k x -> Inv (k + Zpos n) (SpecFloat.iter_pos f n x).
Proof.
  intros Hstep. induction n as [n IH|n IH|]; intros k x Hk Hx; cbn [SpecFloat.iter_pos].
  - replace (k + Zpos n~1) with (k + 1 + Zpos n + Zpos n) by lia.
    apply IH; [lia|]. apply IH; [lia|]. apply Hstep; assumption.
  - replace (k + Zpos n~0) with (k + Zpos n + Zpos n) by lia.
    apply IH; [lia|]. apply IH; assumption.
  - apply Hstep; assumption.
Qed.

Lemma loc_of_shr_record_of_loc m l :
  loc_of_shr_record (shr_record_of_loc m l) = l /\ shr_m (shr_record_of_loc m l) = m.
Proof. destruct l as [|[]]; split; reflexivity. Qed.

Ltac cmp_goal :=
  match goal with
  | |- Z.compare ?a ?b = Lt => change (a < b)
  | |- Z.compare ?a ?b = Gt => change (a > b)
  | |- Z.compare _ _ = Eq => apply Z.compare_eq_iff
  end.

Ltac cmp_hyp H :=
  match type of H with
  | Z.compare ?a ?b = Lt => change (a < b) in H
  | Z.compare ?a ?b = Gt => change (a > b) in H
  | Z.compare _ _ = Eq => apply Z.compare_eq_iff in H
  end.

Lemma shr_1_located N D mrs :
  located N D (shr_m mrs) (loc_of_shr_record mrs) ->
  located N (2 * D) (shr_m (shr_1 mrs)) (loc_of_shr_record (shr_1 mrs)).
Proof.
  destruct mrs as [m r s]. cbn [shr_m]. intros (HD & Hm & Hb & Hl).
  assert (E : exists m' b, m = 2 * m' + Z.b2z b /\ 0 <= m' /\
            shr_1 (Build_shr_record m r s) = Build_shr_record m' b (r || s)).
  { destruct m as [|[p|p|]|p]; try lia.
    - exists 0, false. cbn. repeat split; lia.
    - exists (Zpos p), true. cbn. repeat split; lia.
    - exists (Zpos p), false. cbn. repeat split; lia.
    - exists 0, true. cbn. repeat split; lia. }
  destruct E as (m' & b & -> & Hm' & ->). cbn [shr_m].
  unfold located. split; [lia|]. split; [lia|].
  destruct b, r, s; cbn [loc_of_shr_record Z.b2z orb] in *;
    try destruct Hl as (Hne & Hc); try cmp_hyp Hc;
    (split; [lia|]); try (split; [lia|]); try cmp_goal; lia.
Qed.

Lemma shr_located N D m l e n :
  located N D m l -> 0 <= n ->
  exists mrs,
    shr (shr_record_of_loc m l) e n = (mrs, e + n) /\
    located N (D * 2 ^ n) (shr_m mrs) (loc_of_shr_record mrs).
Proof.
  intros H Hn.
  destruct (loc_of_shr_record_of_loc m l) as (El & Em).
  destruct n as [|p|p]; try lia.
  - exists (shr_record_of_loc m l). cbn [shr]. rewrite Z.add_0_r, El, Em.
    split; [reflexivity|]. rewrite Z.pow_0_r, Z.mul_1_r. exact H.
  - exists (SpecFloat.iter_pos shr_1 p (shr_record_of_loc m l)). split; [reflexivity|].
    pose (Inv := fun k r => located N (D * 2 ^ k) (shr_m r) (loc_of_shr_record r)).
    assert (Hstep : forall k x, 0 <= k -> Inv k x -> Inv (k + 1) (shr_1 x)).
    { unfold Inv. intros k x Hk Hx. rewrite Z.pow_add_r, Z.pow_1_r by lia.
      replace (D * (2 ^ k * 2)) with (2 * (D * 2 ^ k)) by ring.
      apply shr_1_located. exact Hx. }
    apply (iter_pos_inv shr_1 Inv Hstep p 0 (shr_record_of_loc m l)); [lia|].
    unfold Inv. rewrite Z.pow_0_r, Z.mul_1_r, El, Em. exact H.
Qed.

Lemma round_nearest_even_located N D m l :
  located N D m l ->
  let c := round_nearest_even m l in
  m <= c <= m + 1 /\ 2 * Z.abs (c * D - N) <= D.
Proof.
  intros (HD & Hm & Hb & Hl). cbn zeta.
  destruct l as [|[]]; cbn [round_nearest_even].
  - split; [lia|]. subst N. replace (m * D - m * D) with 0 by ring. simpl. lia.
  - destruct Hl as (_ & Hc). cmp_hyp Hc. destruct (Z.even m); split; lia.
  - destruct Hl as (_ & Hc). cmp_hyp Hc. split; lia.
  - destruct Hl as (_ & Hc). cmp_hyp Hc. split; lia.
Qed.

Lemma fexp_eq z : fexp 53 1024 z = Z.max (z - 53) (-1074).
Proof. reflexivity. Qed.

Lemma shr_fexp_located N D M l E :
  located N D M l -> -1074 <= E ->
  exists mrs,
    shr_fexp 53 1024 M E l = (mrs, E + Z.max 0 (Zdigits2 M - 53)) /\
    located N (D * 2 ^ Z.max 0 (Zdigits2 M - 53)) (shr_m mrs) (loc_of_shr_record mrs).
Proof.
  intros H HE. unfold shr_fexp. rewrite fexp_eq.
  set (n := Z.max (Zdigits2 M + E - 53) (-1074) - E).
  destruct (Z_le_gt_dec 0 n) as [Hn|Hn].
  - replace (Z.max 0 (Zdigits2 M - 53)) with n by lia.
    apply shr_located; assumption.
  - replace (Z.max 0 (Zdigits2 M - 53)) with 0 by lia.
    destruct (loc_of_shr_record_of_loc M l) as (El & Em).
    exists (shr_record_of_loc M l). split.
    + destruct n; try lia. all: cbn [shr]; rewrite ?Z.add_0_r; reflexivity.
    + rewrite El, Em, Z.pow_0_r, Z.mul_1_r. exact H.
Qed.

Lemma shr_fexp_small c e :
  0 < c < 2 ^ 53 -> -1074 <= e ->
  shr_fexp 53 1024 c e loc_Exact = (Build_shr_record c false false, e).
Proof.
  intros Hc He. unfold shr_fexp. rewrite fexp_eq.
  assert (Hd : Zdigits2 c <= 53) by (apply Zdigits2_le; lia).
  set (n := Z.max (Zdigits2 c + e - 53) (-1074) - e).
  assert (Hn : n <= 0) by lia.
  destruct n; try lia; reflexivity.
Qed.

Lemma shr_fexp_carry e :
  -1074 <= e ->
  shr_fexp 53 1024 (2 ^ 53) e loc_Exact = (Build_shr_record (2 ^ 52) false false, e + 1).
Proof.
  intros He. unfold shr_fexp. rewrite fexp_eq.
  change (Zdigits2 (2 ^ 53)) with 54.
  replace (Z.max (54 + e - 53) (-1074) - e) with 1 by lia.
  reflexivity.
Qed.

(** What the two shifts and the rounding between them leave: a mantissa
    below [2 ^ 53] at an exponent not below the one given. *)
Lemma binary_round_aux_of_rounded s c e :
  1 <= c <= 2 ^ 53 -> -1074 <= e -> e + 1 <= 971 ->
  forall mrs, shr_fexp 53 1024 c e loc_Exact = mrs ->
  exists m e',
    match shr_m (fst mrs) with
    | Z0 => S754_zero s
    | Zpos m => if Z.leb (snd mrs) (1024 - 53) then S754_finite s m (snd mrs)
                else S754_infinity s
    | Zneg _ => S754_nan
    end = S754_finite s m e' /\
    Zpos m < 2 ^ 53 /\ e <= e' <= e + 1 /\ Zpos m * 2 ^ (e' - e) = c.
Proof.
  intros Hc He Hhi mrs <-.
  destruct (Z_lt_ge_dec c (2 ^ 53)) as [Hlt|Hge].
  - rewrite shr_fexp_small by lia. cbn [fst snd shr_m].
    destruct c as [|m|m]; try lia.
    assert (Hle : (e <=? 1024 - 53) = true) by (apply Z.leb_le; lia).
    rewrite Hle. exists m, e. split; [reflexivity|]. split; [exact Hlt|].
    split; [lia|]. rewrite Z.sub_diag, Z.pow_0_r. lia.
  - assert (c = 2 ^ 53) as -> by lia.
    rewrite shr_fexp_carry by lia. cbn [fst snd shr_m].
    change (2 ^ 52) with (Zpos (2 ^ 52)%positive). cbv iota beta.
    assert (Hle : (e + 1 <=? 1024 - 53) = true) by (apply Z.leb_le; lia).
    rewrite Hle. exists (2 ^ 52)%positive, (e + 1).
    split; [reflexivity|]. split; [reflexivity|]. split; [lia|].
    replace (e + 1 - e) with 1 by lia. reflexivity.
Qed.

Lemma Zmul_lt_cancel a b x : 0 < x -> a * x < b * x -> a < b.
Proof. intros Hx H. apply Z.mul_lt_mono_pos_r in H; assumption. Qed.

Lemma Zmul_le_cancel a b x : 0 < x -> a * x <= b * x -> a <= b.
Proof. intros Hx H. apply Z.mul_le_mono_pos_r in H; assumption. Qed.

(** A rounding to the nearest integer of an integer is that integer. *)
Lemma nearest_of_integer c M D :
  0 < D -> 2 * Z.abs (c * D - M * D) <= D -> c = M.
Proof.
  intros HD H. replace (c * D - M * D) with ((c - M) * D) in H by ring.
  rewrite Z.abs_mul, (Z.abs_eq D) in H by lia.
  destruct (Z.eq_dec c M) as [|Hne]; [assumption|exfalso].
  assert (1 <= Z.abs (c - M)) by lia.
  assert (1 * D <= Z.abs (c - M) * D) by (apply Z.mul_le_mono_nonneg_r; lia).
  lia.
Qed.

Lemma binary_round_aux_spec s M E l N D :
  located N D M l -> 0 < M -> -1074 <= E ->
  E + Z.max 53 (Zdigits2 M) <= 1023 ->
  l = loc_Exact \/ 53 <= Zdigits2 M ->
  exists m e c,
    binary_round_aux 53 1024 s M E l = S754_finite s m e /\
    Zpos m < 2 ^ 53 /\
    E + Z.max 0 (Zdigits2 M - 53) <= e <= E + Z.max 0 (Zdigits2 M - 53) + 1 /\
    Zpos m * 2 ^ (e - (E + Z.max 0 (Zdigits2 M - 53))) = c /\
    2 * Z.abs (c * (D * 2 ^ Z.max 0 (Zdigits2 M - 53)) - N)
      <= D * 2 ^ Z.max 0 (Zdigits2 M - 53) /\
    2 ^ 53 * Z.abs (c * (D * 2 ^ Z.max 0 (Zdigits2 M - 53)) - N) <= N.
Proof.
  intros Hloc HM HE Hhi Hex.
  destruct (Zdigits2_bounds M HM) as (Hd & Hlo & Hup).
  destruct (shr_fexp_located N D M l E Hloc HE) as (mrs & E1 & L1).
  pose proof (round_nearest_even_located _ _ _ _ L1) as (Hc & Herr).
  set (d := Zdigits2 M) in *. set (n := Z.max 0 (d - 53)) in *.
  set (c := round_nearest_even (shr_m mrs) (loc_of_shr_record mrs)) in *.
  assert (Hn : 0 <= n) by lia.
  destruct L1 as (HDT & Hm' & Hb' & _).
  destruct Hloc as (HD & _ & Hb & Hl).
  assert (Hmain : 1 <= c <= 2 ^ 53 /\ 2 ^ 53 * Z.abs (c * (D * 2 ^ n) - N) <= N).
  { assert (H53 : 2 ^ 53 = 2 * 2 ^ 52) by reflexivity.
    assert (H52 : 0 < 2 ^ 52) by reflexivity.
    destruct (Z_le_gt_dec 53 d) as [Hd53|Hd53].
    - assert (Hn' : n = d - 53) by lia.
      assert (HPd : 2 ^ d = 2 ^ 53 * 2 ^ n).
      { rewrite <- Z.pow_add_r by lia. f_equal. lia. }
      assert (HPd1 : 2 ^ (d - 1) = 2 ^ 52 * 2 ^ n).
      { rewrite <- Z.pow_add_r by lia. f_equal. lia. }
      rewrite HPd in Hup. rewrite HPd1 in Hlo. rewrite H53 in *.
      set (P52 := 2 ^ 52) in *. set (T := 2 ^ n) in *. set (m' := shr_m mrs) in *.
      assert (HT : 0 < T) by (apply Z.pow_pos_nonneg; lia).
      clearbody P52 T m' c.
      assert (HX : 0 < D * T) by lia.
      assert (U1 : (M + 1) * D <= 2 * P52 * T * D)
        by (apply Z.mul_le_mono_nonneg_r; lia).
      assert (U2 : P52 * T * D <= M * D)
        by (apply Z.mul_le_mono_nonneg_r; lia).
      assert (Hm53 : m' < 2 * P52).
      { apply (Zmul_lt_cancel _ _ (D * T) HX). lia. }
      assert (Hm52 : P52 < m' + 1).
      { apply (Zmul_lt_cancel _ _ (D * T) HX). lia. }
      split; [lia|].
      set (A := Z.abs (c * (D * T) - N)) in *.
      assert (0 <= A) by apply Z.abs_nonneg.
      assert (P52 * (2 * A) <= P52 * (D * T))
        by (apply Z.mul_le_mono_nonneg_l; lia).
      clearbody A. lia.
    - destruct Hex as [-> | ?]; [|lia].
      assert (Hn' : n = 0) by lia. rewrite Hn' in *.
      rewrite Z.pow_0_r, Z.mul_1_r in *. subst N.
      assert (c = M) as -> by (apply (nearest_of_integer _ _ D HD Herr)).
      replace (M * D - M * D) with 0 by ring.
      assert (2 ^ d <= 2 ^ 53) by (apply Z.pow_le_mono_r; lia).
      split; [lia|]. simpl Z.abs. rewrite Z.mul_0_r.
      apply Z.mul_nonneg_nonneg; lia. }
  destruct Hmain as (Hc1 & Hrel).
  destruct (binary_round_aux_of_rounded s c (E + n) Hc1 ltac:(lia) ltac:(lia) _ eq_refl)
    as (m & e' & Hres & Hm & He' & Hval).
  exists m, e', c. split.
  - unfold binary_round_aux. rewrite E1. fold c.
    destruct (shr_fexp 53 1024 c (E + n) loc_Exact) as [mrs2 e2]. exact Hres.
  - split; [exact Hm|]. split; [lia|]. split; [exact Hval|].
    split; [exact Herr|exact Hrel].
Qed.

(** ** The value of a binary64 number *)

Local Open Scope Q_scope.

Lemma pow2_pos e : 0 < 2 ^ e.
Proof. apply Qpower_0_lt. reflexivity. Qed.

Lemma pow2_add a b : 2 ^ (a + b) == 2 ^ a * 2 ^ b.
Proof. apply Qpower_plus. discriminate. Qed.

Lemma pow2_inject k : (0 <= k)%Z -> inject_Z (2 ^ k) == 2 ^ k.
Proof. intros H. rewrite Zpower_Qpower by assumption. reflexivity. Qed.

Lemma pow2_shift a b : (b <= a)%Z -> 2 ^ a == inject_Z (2 ^ (a - b)) * 2 ^ b.
Proof.
  intros H. rewrite pow2_inject by lia. rewrite <- pow2_add.
  replace (a - b + b)%Z with a by lia. reflexivity.
Qed.

Lemma rel_error_Q K N D t :
  (0 < D)%Z -> 0 < t ->
  (2 ^ 53 * Z.abs (K * D - N) <= N)%Z ->
  Qabs (inject_Z K * t - inject_Z N / inject_Z D * t)
    <= inject_Z N / inject_Z D * t * (1 # 9007199254740992).
Proof.
  intros HD Ht H.
  assert (HN : (0 <= N)%Z) by lia.
  assert (H1 : (- N <= 2 ^ 53 * (K * D - N) <= N)%Z) by lia.
  change (2 ^ 53)%Z with 9007199254740992%Z in H1.
  destruct H1 as (Ha & Hb).
  rewrite Zle_Qle in Ha, Hb.
  unfold Z.sub in Ha, Hb.
  rewrite inject_Z_mult, inject_Z_plus, inject_Z_mult, inject_Z_opp in Ha, Hb.
  assert (Hd : 0 < inject_Z D) by (change 0 with (inject_Z 0); rewrite <- Zlt_Qlt; exact HD).
  set (k := inject_Z K) in *. set (nn := inject_Z N) in *. set (dd := inject_Z D) in *.
  set (y := nn / dd).
  assert (Hy : nn == y * dd) by (unfold y; field; lra).
  rewrite Hy in Ha, Hb.
  change (inject_Z 9007199254740992) with (9007199254740992 # 1) in Ha, Hb.
  assert (Ha' : - y <= (9007199254740992 # 1) * (k - y)).
  { apply (Qmult_le_r _ _ dd Hd). nra. }
  assert (Hb' : (9007199254740992 # 1) * (k - y) <= y).
  { apply (Qmult_le_r _ _ dd Hd). nra. }
  assert (E1 : k * t - y * t == (k - y) * t) by ring.
  assert (E2 : y * t * (1 # 9007199254740992) == y * (1 # 9007199254740992) * t) by ring.
  apply Qabs_Qle_condition. rewrite E1, E2. split.
  - assert (E3 : - (y * (1 # 9007199254740992) * t) == - (y * (1 # 9007199254740992)) * t)
      by ring.
    rewrite E3. apply Qmult_le_compat_r; lra.
  - apply Qmult_le_compat_r; lra.
Qed.


Lemma located_integer M : (0 < M)%Z -> located M 1 M loc_Exact.
Proof. intros H. unfold located. repeat split; lia. Qed.

Lemma Zdigits2_mul_le a b :
  (0 < a)%Z -> (0 < b)%Z -> (Zdigits2 (a * b) <= Zdigits2 a + Zdigits2 b)%Z.
Proof.
  intros Ha Hb.
  destruct (Zdigits2_bounds a Ha) as (Hda & _ & Hua).
  destruct (Zdigits2_bounds b Hb) as (Hdb & _ & Hub).
  apply Zdigits2_le; [lia|lia|]. rewrite Z.pow_add_r by lia.
  apply Z.mul_lt_mono_nonneg; lia.
Qed.

(** The value of what [binary_round_aux] returns, against [c * 2 ^ n]
    units of [2 ^ E]. *)
Lemma finite_value m e E n c :
  (0 <= n)%Z -> (E + n <= e)%Z -> (Zpos m * 2 ^ (e - (E + n)) = c)%Z ->
  inject_Z (Zpos m) * 2 ^ e == inject_Z (c * 2 ^ n) * 2 ^ E.
Proof.
  intros Hn He <-.
  rewrite (pow2_shift e E) by lia.
  replace (e - E)%Z with (e - (E + n) + n)%Z by lia.
  rewrite Z.pow_add_r by lia. rewrite !inject_Z_mult. ring.
Qed.

Lemma SF2Q_finite s m e :
  SF2Q (S754_finite s m e) == (if s then - 1 else 1) * (inject_Z (Zpos m) * 2 ^ e).
Proof.
  unfold SF2Q. destruct s; cbn [cond_Zopp].
  - change (inject_Z (- Zpos m)) with (- inject_Z (Zpos m)). ring.
  - ring.
Qed.

Lemma Qabs_sign (s : bool) x : 0 <= x -> Qabs ((if s then - 1 else 1) * x) == x.
Proof.
  intros H. rewrite Qabs_Qmult. rewrite (Qabs_pos x H).
  destruct s; [change (Qabs (- 1)) with 1|change (Qabs 1) with 1]; ring.
Qed.

(** [x * y] in binary64, for finite operands whose product is neither
    subnormal nor too large: the result is finite, carries the sign of the
    product and is within [eps64] of it, relatively. *)
Lemma SF64mul_spec sx mx ex sy my ey :
  (-1074 <= ex + ey)%Z ->
  (ex + ey + Z.max 53 (Zdigits2 (Zpos (mx * my))) <= 1023)%Z ->
  exists m e,
    SF64mul (S754_finite sx mx ex) (S754_finite sy my ey)
      = S754_finite (xorb sx sy) m e /\
    (Zpos m < 2 ^ 53)%Z /\
    (ex + ey <= e <= ex + ey + Z.max 0 (Zdigits2 (Zpos (mx * my)) - 53) + 1)%Z /\
    Qabs (inject_Z (Zpos m) * 2 ^ e
          - (inject_Z (Zpos mx) * 2 ^ ex) * (inject_Z (Zpos my) * 2 ^ ey))
      <= (inject_Z (Zpos mx) * 2 ^ ex) * (inject_Z (Zpos my) * 2 ^ ey) * eps64.
Proof.
  intros Hlo Hhi. unfold SF64mul, SFmul.
  set (M := Zpos (mx * my)) in *.
  destruct (binary_round_aux_spec (xorb sx sy) M (ex + ey) loc_Exact M 1
              (located_integer M eq_refl) eq_refl Hlo Hhi (or_introl eq_refl))
    as (m & e & c & Hr & Hm & He & Hc & _ & Hrel).
  set (n := Z.max 0 (Zdigits2 M - 53)) in *.
  exists m, e. split; [exact Hr|]. split; [exact Hm|]. split; [lia|].
  rewrite (finite_value m e (ex + ey) n c ltac:(lia) ltac:(lia) Hc).
  replace (c * (1 * 2 ^ n) - M)%Z with (c * 2 ^ n * 1 - M)%Z in Hrel by ring.
  pose proof (rel_error_Q (c * 2 ^ n) M 1 (2 ^ (ex + ey)) eq_refl (pow2_pos _) Hrel) as H.
  assert (EM : inject_Z M / inject_Z 1 * 2 ^ (ex + ey)
               == inject_Z (Zpos mx) * 2 ^ ex * (inject_Z (Zpos my) * 2 ^ ey)).
  { unfold M. rewrite Pos2Z.inj_mul, inject_Z_mult, pow2_add.
    change (inject_Z 1) with 1. field. }
  rewrite EM in H. exact H.
Qed.

(** ** [int / int]: the quotient by [10 ** 6], correctly rounded *)

Lemma div_core_million p :
  (Zpos p < 2 ^ 59)%Z ->
  let d := Zdigits2 (Zpos p) in
  exists q l,
    SFdiv_core_binary 53 1024 (Zpos p) 0 1000000 0 = (q, (d - 73)%Z, l) /\
    located (Zpos p * 2 ^ (73 - d)) 1000000 q l /\
    (2 ^ 52 <= q < 2 ^ 54)%Z.
Proof.
  intros Hp d.
  destruct (Zdigits2_bounds (Zpos p) eq_refl) as (Hd & Hlo & Hup). fold d in Hd, Hlo, Hup.
  assert (Hd59 : (d <= 59)%Z) by (apply Zdigits2_le; lia).
  unfold SFdiv_core_binary. fold d. change (Zdigits2 1000000) with 20%Z.
  rewrite fexp_eq.
  replace (Z.min (Z.max (d + 0 - (20 + 0) - 53) (-1074)) (0 - 0))%Z with (d - 73)%Z by lia.
  replace (0 - 0 - (d - 73))%Z with (73 - d)%Z by lia.
  set (sft := (73 - d)%Z).
  assert (Hs : (0 < sft)%Z) by (unfold sft; lia).
  assert (Em : match sft with
               | Z0 => Zpos p
               | Zpos _ => Z.shiftl (Zpos p) sft
               | Zneg _ => 0%Z
               end = (Zpos p * 2 ^ sft)%Z).
  { destruct sft eqn:Es; try lia. rewrite Z.shiftl_mul_pow2 by lia. reflexivity. }
  rewrite Em. set (N := (Zpos p * 2 ^ sft)%Z).
  assert (HN : (2 ^ 72 <= N < 2 ^ 73)%Z).
  { assert (E72 : (2 ^ 72 = 2 ^ (d - 1) * 2 ^ sft)%Z)
      by (rewrite <- Z.pow_add_r by lia; f_equal; unfold sft; lia).
    assert (E73 : (2 ^ 73 = 2 ^ d * 2 ^ sft)%Z)
      by (rewrite <- Z.pow_add_r by lia; f_equal; unfold sft; lia).
    rewrite E72, E73. unfold N.
    assert (0 < 2 ^ sft)%Z by (apply Z.pow_pos_nonneg; lia).
    split; [apply Z.mul_le_mono_nonneg_r; lia|apply Z.mul_lt_mono_pos_r; lia]. }
  pose proof (Z_div_mod N 1000000 eq_refl) as Hdm.
  destruct (Z.div_eucl N 1000000) as [q r]. destruct Hdm as (Hq & Hr).
  change (2 ^ 72)%Z with 4722366482869645213696%Z in HN.
  change (2 ^ 73)%Z with 9444732965739290427392%Z in HN.
  exists q, (new_location 1000000 r). split; [reflexivity|]. split.
  - unfold located. split; [lia|]. split; [lia|]. split; [lia|].
    unfold new_location. change (Z.even 1000000) with true. cbv iota.
    unfold new_location_even.
    destruct (Z.eqb_spec r 0) as [->|Hr0]; [lia|].
    split; [lia|]. f_equal. lia.
  - change (2 ^ 52)%Z with 4503599627370496%Z.
    change (2 ^ 54)%Z with 18014398509481984%Z. lia.
Qed.

Lemma int_div_million_spec (s : bool) p :
  (Zpos p < 2 ^ 59)%Z ->
  exists m e,
    SF64div (S754_finite s p 0) (S754_finite false 1000000 0) = S754_finite s m e /\
    (Zpos m < 2 ^ 53)%Z /\ (-72 <= e <= -12)%Z /\
    Qabs (inject_Z (Zpos m) * 2 ^ e - inject_Z (Zpos p) / 1000000)
      <= inject_Z (Zpos p) / 1000000 * eps64.
Proof.
  intros Hp.
  destruct (div_core_million p Hp) as (q & l & Hcore & Hloc & Hq).
  destruct (Zdigits2_bounds (Zpos p) eq_refl) as (Hd & Hlo & Hup).
  assert (Hd59 : (Zdigits2 (Zpos p) <= 59)%Z) by (apply Zdigits2_le; lia).
  set (d := Zdigits2 (Zpos p)) in *.
  assert (Hq0 : (0 < q)%Z) by (change (2 ^ 52)%Z with 4503599627370496%Z in Hq; lia).
  assert (Hdq : (53 <= Zdigits2 q <= 54)%Z).
  { split; [apply Zdigits2_ge; [lia|apply Hq]|apply Zdigits2_le; [lia|lia|apply Hq]]. }
  unfold SF64div, SFdiv. rewrite Hcore. rewrite xorb_false_r.
  destruct (binary_round_aux_spec s q (d - 73) l _ _ Hloc Hq0 ltac:(lia) ltac:(lia)
              (or_intror (proj1 Hdq)))
    as (m & e & c & Hr & Hm & He & Hc & _ & Hrel).
  set (n := Z.max 0 (Zdigits2 q - 53)) in *.
  exists m, e. split; [exact Hr|]. split; [exact Hm|]. split; [lia|].
  rewrite (finite_value m e (d - 73) n c ltac:(lia) ltac:(lia) Hc).
  replace (c * (1000000 * 2 ^ n) - Zpos p * 2 ^ (73 - d))%Z
    with (c * 2 ^ n * 1000000 - Zpos p * 2 ^ (73 - d))%Z in Hrel by ring.
  pose proof (rel_error_Q (c * 2 ^ n) _ 1000000 (2 ^ (d - 73)) eq_refl (pow2_pos _) Hrel) as H.
  assert (EM : inject_Z (Zpos p * 2 ^ (73 - d)) / inject_Z 1000000 * 2 ^ (d - 73)
               == inject_Z (Zpos p) / 1000000).
  { rewrite inject_Z_mult, pow2_inject by lia.
    assert (E1 : 2 ^ (73 - d) * 2 ^ (d - 73) == 1).
    { rewrite <- pow2_add. replace (73 - d + (d - 73))%Z with 0%Z by lia. reflexivity. }
    change (inject_Z 1000000) with 1000000.
    setoid_replace (inject_Z (Zpos p) * 2 ^ (73 - d) / 1000000 * 2 ^ (d - 73))
      with (inject_Z (Zpos p) / 1000000 * (2 ^ (73 - d) * 2 ^ (d - 73)))
      using relation Qeq by field.
    rewrite E1. ring. }
  rewrite EM in H. exact H.
Qed.

(** ** Rounding an integer multiple of a power of two; subtraction *)

Lemma pos_iter_xO m d : Zpos (Pos.iter xO m d) = (Zpos m * 2 ^ Zpos d)%Z.
Proof.
  induction d as [|d IH] using Pos.peano_ind.
  - cbn [Pos.iter]. change (Zpos m~0) with (2 * Zpos m)%Z. rewrite Z.pow_1_r. ring.
  - rewrite Pos.iter_succ, Pos2Z.inj_succ, Z.pow_succ_r by lia.
    change (Zpos (Pos.iter xO m d)~0) with (2 * Zpos (Pos.iter xO m d))%Z.
    rewrite IH. ring.
Qed.

Lemma shl_align_le mx ex ez :
  (ez <= ex)%Z ->
  exists mz, shl_align mx ex ez = (mz, ez) /\ Zpos mz = (Zpos mx * 2 ^ (ex - ez))%Z.
Proof.
  intros H. unfold shl_align. destruct (ez - ex)%Z as [|d|d] eqn:E; try lia.
  - exists mx. replace ex with ez by lia. split; [reflexivity|].
    rewrite Z.sub_diag, Z.pow_0_r. lia.
  - exists (Pos.iter xO mx d). split; [reflexivity|].
    rewrite pos_iter_xO. f_equal. f_equal. lia.
Qed.

Lemma shl_align_ge mx ex ez : (ex <= ez)%Z -> shl_align mx ex ez = (mx, ex).
Proof.
  intros H. unfold shl_align. destruct (ez - ex)%Z as [|d|d] eqn:E; try lia; reflexivity.
Qed.

(** [binary_round]: an integer [m] at exponent [e] is rounded to a
    mantissa of 53 bits; the result is exact when [m] is [k * 2 ^ j] with
    [k] below [2 ^ 53]. *)
Lemma binary_round_spec s m e :
  (-1074 <= e)%Z -> (e + Z.max 53 (Zdigits2 (Zpos m)) <= 1023)%Z ->
  exists m' e',
    binary_round 53 1024 s m e = S754_finite s m' e' /\
    (Zpos m' < 2 ^ 53)%Z /\
    Qabs (inject_Z (Zpos m') * 2 ^ e' - inject_Z (Zpos m) * 2 ^ e)
      <= inject_Z (Zpos m) * 2 ^ e * eps64 /\
    (forall k j, (Zpos m = k * 2 ^ j)%Z -> (0 <= j)%Z -> (0 < k < 2 ^ 53)%Z ->
       inject_Z (Zpos m') * 2 ^ e' == inject_Z (Zpos m) * 2 ^ e).
Proof.
  intros Hlo Hhi.
  destruct (Zdigits2_bounds (Zpos m) eq_refl) as (Hd & Hdl & Hdu).
  unfold binary_round. change (Zpos (digits2_pos m)) with (Zdigits2 (Zpos m)).
  set (d := Zdigits2 (Zpos m)) in *. rewrite fexp_eq.
  set (f1 := Z.max (d + e - 53) (-1074)).
  assert (Hv0 : 0 <= inject_Z (Zpos m) * 2 ^ e).
  { apply Qmult_le_0_compat; [|apply Qlt_le_weak, pow2_pos].
    change 0 with (inject_Z 0). rewrite <- Zle_Qle. lia. }
  destruct (Z_lt_ge_dec f1 e) as [Hf|Hf].
  - (* the mantissa is shifted to the left: nothing is lost *)
    destruct (shl_align_le m e f1 ltac:(lia)) as (mz & -> & Hmz).
    assert (Hdz : (Zdigits2 (Zpos mz) <= 53)%Z).
    { assert (Hf1 : (d + e - 53 <= f1)%Z) by (unfold f1; lia).
      apply Zdigits2_le; [lia|lia|]. rewrite Hmz.
      replace 53%Z with (d + (53 - d))%Z by lia. rewrite Z.pow_add_r by lia.
      assert (0 < 2 ^ (e - f1))%Z by (apply Z.pow_pos_nonneg; lia).
      assert (2 ^ (e - f1) <= 2 ^ (53 - d))%Z by (apply Z.pow_le_mono_r; lia).
      apply Z.lt_le_trans with (2 ^ d * 2 ^ (e - f1))%Z;
        [apply Z.mul_lt_mono_pos_r; lia|apply Z.mul_le_mono_nonneg_l; lia]. }
    assert (Hf1 : (-1074 <= f1 /\ f1 + 53 <= 1023)%Z) by (unfold f1; lia).
    destruct (binary_round_aux_spec s (Zpos mz) f1 loc_Exact (Zpos mz) 1
                (located_integer (Zpos mz) eq_refl) eq_refl ltac:(lia) ltac:(lia) (or_introl eq_refl))
      as (m' & e' & c & Hr & Hm & He & Hc & Habs & _).
    replace (Z.max 0 (Zdigits2 (Zpos mz) - 53)) with 0%Z in * by lia.
    rewrite Z.pow_0_r in Habs.
    assert (Ec : c = Zpos mz) by lia. rewrite Ec in Hc. clear Ec Habs.
    assert (Hval : inject_Z (Zpos m') * 2 ^ e' == inject_Z (Zpos m) * 2 ^ e).
    { rewrite (finite_value m' e' f1 0 (Zpos mz) ltac:(lia) ltac:(lia) Hc).
      rewrite Z.pow_0_r, Z.mul_1_r, Hmz, inject_Z_mult.
      rewrite (pow2_shift e f1) by lia. ring. }
    exists m', e'. split; [exact Hr|]. split; [exact Hm|]. split.
    + rewrite Hval. setoid_replace (inject_Z (Zpos m) * 2 ^ e - inject_Z (Zpos m) * 2 ^ e)
        with 0 using relation Qeq by ring.
      change (Qabs 0) with 0. apply Qmult_le_0_compat; [exact Hv0|discriminate].
    + intros _ _ _ _ _. exact Hval.
  - rewrite (shl_align_ge m e f1) by lia.
    destruct (binary_round_aux_spec s (Zpos m) e loc_Exact (Zpos m) 1
                (located_integer (Zpos m) eq_refl) eq_refl Hlo Hhi (or_introl eq_refl))
      as (m' & e' & c & Hr & Hm & He & Hc & Habs & Hrel).
    fold d in He, Hc, Habs, Hrel. set (n := Z.max 0 (d - 53)) in *.
    assert (Hval : inject_Z (Zpos m') * 2 ^ e' == inject_Z (c * 2 ^ n) * 2 ^ e)
      by (apply finite_value; [lia|lia|exact Hc]).
    exists m', e'. split; [exact Hr|]. split; [exact Hm|]. split.
    + rewrite Hval.
      replace (c * (1 * 2 ^ n) - Zpos m)%Z with (c * 2 ^ n * 1 - Zpos m)%Z in Hrel by ring.
      pose proof (rel_error_Q (c * 2 ^ n) (Zpos m) 1 (2 ^ e) eq_refl (pow2_pos _) Hrel) as H.
      assert (EM : inject_Z (Zpos m) / inject_Z 1 * 2 ^ e == inject_Z (Zpos m) * 2 ^ e)
        by (change (inject_Z 1) with 1; field).
      rewrite EM in H. exact H.
    + intros k j Hk Hj Hk53. rewrite Hval.
      assert (Hdk : (d <= 53 + j)%Z).
      { apply Zdigits2_le; [lia|lia|]. rewrite Hk, Z.pow_add_r by lia.
        assert (0 < 2 ^ j)%Z by (apply Z.pow_pos_nonneg; lia).
        apply Z.mul_lt_mono_pos_r; lia. }
      assert (Hnj : (n <= j)%Z) by lia.
      assert (Ek : (Zpos m = k * 2 ^ (j - n) * 2 ^ n)%Z).
      { rewrite Hk, <- Z.mul_assoc, <- Z.pow_add_r by lia. do 2 f_equal. lia. }
      assert (HT : (0 < 2 ^ n)%Z) by (apply Z.pow_pos_nonneg; lia).
      rewrite Z.mul_1_l in Habs. rewrite Ek in Habs.
      apply nearest_of_integer in Habs; [|exact HT].
      rewrite Habs, <- Ek. reflexivity.
Qed.

Lemma cond_Zopp_mul s a b : (cond_Zopp s a * b = cond_Zopp s (a * b))%Z.
Proof. destruct s; cbn [cond_Zopp]; ring. Qed.

Lemma cond_Zopp_abs_le s a : (Z.abs (cond_Zopp s a) = Z.abs a)%Z.
Proof. destruct s; cbn [cond_Zopp]; lia. Qed.

Lemma SF2Q_aligned s m e ez :
  (ez <= e)%Z ->
  SF2Q (S754_finite s m e) == inject_Z (cond_Zopp s (Zpos m * 2 ^ (e - ez))) * 2 ^ ez.
Proof.
  intros H. unfold SF2Q. rewrite (pow2_shift e ez H), <- cond_Zopp_mul, inject_Z_mult. ring.
Qed.

(** [x - y] in binary64 for finite operands of moderate exponents: the
    exact difference is an integer [zd] at the smaller exponent, the result
    is within [eps64] of it, relatively, and equal to it when [zd] has a
    mantissa of 53 bits. *)
Lemma SF64sub_spec sx mx ex sy my ey :
  (Zpos mx < 2 ^ 53)%Z -> (Zpos my < 2 ^ 53)%Z ->
  (-500 <= ex <= 400)%Z -> (-500 <= ey <= 400)%Z ->
  let x := S754_finite sx mx ex in
  let y := S754_finite sy my ey in
  let ez := Z.min ex ey in
  let zd := (cond_Zopp sx (Zpos mx * 2 ^ (ex - ez))
             - cond_Zopp sy (Zpos my * 2 ^ (ey - ez)))%Z in
  SF2Q x - SF2Q y == inject_Z zd * 2 ^ ez /\
  Qabs (SF2Q (SF64sub x y) - (SF2Q x - SF2Q y)) <= Qabs (SF2Q x - SF2Q y) * eps64 /\
  (forall k j, (Z.abs zd = k * 2 ^ j)%Z -> (0 <= j)%Z -> (0 <= k < 2 ^ 53)%Z ->
     SF2Q (SF64sub x y) == SF2Q x - SF2Q y) /\
  is_finite (SF64sub x y) = true.
Proof.
  intros Hmx Hmy Hex Hey x y ez zd.
  assert (Hzx : (ez <= ex)%Z) by (unfold ez; lia).
  assert (Hzy : (ez <= ey)%Z) by (unfold ez; lia).
  assert (Hval : SF2Q x - SF2Q y == inject_Z zd * 2 ^ ez).
  { unfold x, y. rewrite (SF2Q_aligned sx mx ex ez Hzx), (SF2Q_aligned sy my ey ez Hzy).
    unfold zd, Z.sub. rewrite inject_Z_plus, inject_Z_opp. ring. }
  split; [exact Hval|].
  (* the operation *)
  assert (Hop : SF64sub x y = binary_normalize 53 1024 zd ez false).
  { unfold SF64sub, SFsub, x, y. fold ez.
    destruct (shl_align_le mx ex ez Hzx) as (ax & -> & Hax).
    destruct (shl_align_le my ey ez Hzy) as (ay & -> & Hay).
    cbn [fst]. rewrite Hax, Hay. reflexivity. }
  rewrite Hop, Hval.
  (* the size of the difference *)
  set (em := Z.max ex ey).
  assert (Hsize : (Z.abs zd < 2 ^ (54 + (em - ez)))%Z).
  { assert (Hx : (Zpos mx * 2 ^ (ex - ez) < 2 ^ 53 * 2 ^ (em - ez))%Z).
    { assert (0 < 2 ^ (ex - ez))%Z by (apply Z.pow_pos_nonneg; lia).
      assert (2 ^ (ex - ez) <= 2 ^ (em - ez))%Z by (apply Z.pow_le_mono_r; unfold em; lia).
      apply Z.lt_le_trans with (2 ^ 53 * 2 ^ (ex - ez))%Z;
        [apply Z.mul_lt_mono_pos_r; lia|apply Z.mul_le_mono_nonneg_l; lia]. }
    assert (Hy : (Zpos my * 2 ^ (ey - ez) < 2 ^ 53 * 2 ^ (em - ez))%Z).
    { assert (0 < 2 ^ (ey - ez))%Z by (apply Z.pow_pos_nonneg; lia).
      assert (2 ^ (ey - ez) <= 2 ^ (em - ez))%Z by (apply Z.pow_le_mono_r; unfold em; lia).
      apply Z.lt_le_trans with (2 ^ 53 * 2 ^ (ey - ez))%Z;
        [apply Z.mul_lt_mono_pos_r; lia|apply Z.mul_le_mono_nonneg_l; lia]. }
    replace (54 + (em - ez))%Z with (1 + 53 + (em - ez))%Z by lia.
    rewrite !Z.pow_add_r by (unfold em; lia). rewrite Z.pow_1_r.
    pose proof (cond_Zopp_abs_le sx (Zpos mx * 2 ^ (ex - ez))) as Ax.
    pose proof (cond_Zopp_abs_le sy (Zpos my * 2 ^ (ey - ez))) as Ay.
    assert (0 < 2 ^ (ex - ez))%Z by (apply Z.pow_pos_nonneg; lia).
    assert (0 < 2 ^ (ey - ez))%Z by (apply Z.pow_pos_nonneg; lia).
    unfold zd.
    set (a := (Zpos mx * 2 ^ (ex - ez))%Z) in *. set (b := (Zpos my * 2 ^ (ey - ez))%Z) in *.
    set (W := (2 ^ 53 * 2 ^ (em - ez))%Z) in *.
    replace (2 * 2 ^ 53 * 2 ^ (em - ez))%Z with (2 * W)%Z by (unfold W; ring).
    assert (0 < a)%Z by (unfold a; lia). assert (0 < b)%Z by (unfold b; lia).
    clearbody a b W. lia. }
  assert (Hrange : forall p, Z.abs zd = Zpos p ->
            (ez + Z.max 53 (Zdigits2 (Zpos p)) <= 1023)%Z).
  { intros p Hp. rewrite Hp in Hsize.
    assert (Zdigits2 (Zpos p) <= 54 + (em - ez))%Z
      by (apply Zdigits2_le; [lia|unfold em; lia|exact Hsize]).
    unfold em in *. lia. }
  destruct zd as [|p|p] eqn:Ezd.
  - (* equal operands: the difference is zero *)
    cbn [binary_normalize SF2Q].
    assert (E0 : 0 - inject_Z 0 * 2 ^ ez == 0) by (change (inject_Z 0) with 0; ring).
    rewrite E0. split; [|split; [intros; rewrite Hval; change (inject_Z 0) with 0; ring
                                |reflexivity]].
    change (Qabs 0) with 0. rewrite Qabs_pos; [|change (inject_Z 0) with 0; lra].
    change (inject_Z 0) with 0. unfold eps64. lra.
  - cbn [binary_normalize].
    destruct (binary_round_spec false p ez ltac:(lia) (Hrange p eq_refl))
      as (m' & e' & -> & _ & Herr & Hexact).
    cbn [SF2Q cond_Zopp]. split.
    + rewrite (Qabs_pos (inject_Z (Zpos p) * 2 ^ ez)); [exact Herr|].
      apply Qmult_le_0_compat; [|apply Qlt_le_weak, pow2_pos]. discriminate.
    + split; [|reflexivity].
      intros k j Hk Hj Hk53. cbn [Z.abs] in Hk. rewrite Hval.
      apply (Hexact k j Hk Hj). lia.
  - cbn [binary_normalize].
    destruct (binary_round_spec true p ez ltac:(lia) (Hrange p eq_refl))
      as (m' & e' & -> & _ & Herr & Hexact).
    cbn [SF2Q cond_Zopp].
    change (inject_Z (- Zpos m')) with (- inject_Z (Zpos m')).
    change (inject_Z (Zneg p)) with (- inject_Z (Zpos p)).
    assert (E1 : - inject_Z (Zpos m') * 2 ^ e' - - inject_Z (Zpos p) * 2 ^ ez
                 == - (inject_Z (Zpos m') * 2 ^ e' - inject_Z (Zpos p) * 2 ^ ez)) by ring.
    assert (E2 : - inject_Z (Zpos p) * 2 ^ ez == - (inject_Z (Zpos p) * 2 ^ ez)) by ring.
    split.
    + rewrite E1, E2, !Qabs_opp.
      rewrite (Qabs_pos (inject_Z (Zpos p) * 2 ^ ez)); [exact Herr|].
      apply Qmult_le_0_compat; [|apply Qlt_le_weak, pow2_pos]. discriminate.
    + split; [|reflexivity].
      intros k j Hk Hj Hk53. cbn [Z.abs] in Hk. rewrite Hval.
      assert (0 < k)%Z by lia.
      change (inject_Z (Zneg p)) with (- inject_Z (Zpos p)).
      rewrite E2, <- (Hexact k j Hk Hj ltac:(lia)). ring.
Qed.

(** ** The two offsets *)

Lemma near_bounds x v :
  Qabs (x - v) <= Qabs v * eps64 ->
  (0 <= v -> v * (1 - eps64) <= x <= v * (1 + eps64)) /\
  (v <= 0 -> v * (1 + eps64) <= x <= v * (1 - eps64)).
Proof.
  intros H. split; intros Hv.
  - rewrite (Qabs_pos v Hv) in H. apply Qabs_Qle_condition in H. lra.
  - rewrite (Qabs_neg v Hv) in H. apply Qabs_Qle_condition in H. lra.
Qed.

Lemma signed_error (s : bool) a v X V :
  X == (if s then - 1 else 1) * a -> V == (if s then - 1 else 1) * v ->
  0 <= v -> Qabs (a - v) <= v * eps64 ->
  Qabs (X - V) <= Qabs V * eps64.
Proof.
  intros -> -> Hv H. destruct s.
  - assert (E1 : - 1 * a - - 1 * v == - (a - v)) by ring.
    assert (E2 : - 1 * v == - v) by ring.
    rewrite E1, E2, !Qabs_opp, (Qabs_pos v Hv). exact H.
  - assert (E1 : 1 * a - 1 * v == a - v) by ring.
    assert (E2 : 1 * v == v) by ring.
    rewrite E1, E2, (Qabs_pos v Hv). exact H.
Qed.

Lemma float_of_int_1000 : float_of_int 1000 = S754_finite false 8796093022208000 (-43).
Proof. reflexivity. Qed.

Lemma float_of_int_5000 : float_of_int 5000 = S754_finite false 5497558138880000 (-40).
Proof. reflexivity. Qed.

(** The seconds, the end offset and the begin offset of a difference of
    [micros] microseconds that is not zero: each operation is off by at
    most [eps64], relatively. *)
Lemma offsets_roundings (micros : Z) :
  micros <> 0%Z -> (Z.abs micros < 2 ^ 59)%Z ->
  exists mt et me ee,
    let s := (micros <? 0)%Z in
    total_seconds micros = S754_finite s mt et /\
    endMillis micros = S754_finite s me ee /\
    (Zpos me < 2 ^ 53)%Z /\ (-200 <= ee <= 100)%Z /\
    Qabs (SF2Q (total_seconds micros) - inject_Z micros / 1000000)
      <= Qabs (inject_Z micros / 1000000) * eps64 /\
    Qabs (SF2Q (endMillis micros) - SF2Q (total_seconds micros) * 1000)
      <= Qabs (SF2Q (total_seconds micros) * 1000) * eps64 /\
    Qabs (SF2Q (startMillis micros) - (SF2Q (endMillis micros) - 5000))
      <= Qabs (SF2Q (endMillis micros) - 5000) * eps64 /\
    is_finite (startMillis micros) = true.
Proof.
  intros Hnz Hlt.
  assert (Hp : exists p (s : bool), micros = cond_Zopp s (Zpos p) /\ (Zpos p < 2 ^ 59)%Z /\
                 s = (micros <? 0)%Z).
  { destruct micros as [|p|p]; [congruence| |].
    - exists p, false. repeat split. exact Hlt.
    - exists p, true. repeat split. exact Hlt. }
  destruct Hp as (p & s & Hm & Hp & Hs).
  destruct (int_div_million_spec s p Hp) as (mt & et & Hts & Hmt & Het & Herr1).
  assert (Ets : total_seconds micros = S754_finite s mt et).
  { rewrite Hm. destruct s; exact Hts. }
  assert (Hdm : (Zdigits2 (Zpos (mt * 8796093022208000)) <= 106)%Z).
  { pose proof (Zdigits2_mul_le (Zpos mt) 8796093022208000 eq_refl eq_refl) as H.
    change (Zdigits2 8796093022208000) with 53%Z in H.
    assert (Zdigits2 (Zpos mt) <= 53)%Z by (apply Zdigits2_le; lia).
    rewrite Pos2Z.inj_mul. lia. }
  destruct (SF64mul_spec s mt et false 8796093022208000 (-43) ltac:(lia) ltac:(lia))
    as (me & ee & Hmul & Hme & Hee & Herr2).
  rewrite xorb_false_r in Hmul.
  assert (Een : endMillis micros = S754_finite s me ee).
  { unfold endMillis. rewrite Ets, float_of_int_1000. exact Hmul. }
  destruct (SF64sub_spec s me ee false 5497558138880000 (-40) Hme eq_refl ltac:(lia) ltac:(lia))
    as (_ & Herr3 & _ & Hfin).
  exists mt, et, me, ee. cbn zeta. rewrite <- Hs.
  split; [exact Ets|]. split; [exact Een|]. split; [exact Hme|]. split; [lia|].
  assert (Ek : SF2Q (S754_finite false 8796093022208000 (-43)) == 1000) by reflexivity.
  assert (E5 : SF2Q (S754_finite false 5497558138880000 (-40)) == 5000) by reflexivity.
  split; [|split; [|split]].
  - apply (signed_error s (inject_Z (Zpos mt) * 2 ^ et) (inject_Z (Zpos p) / 1000000)).
    + rewrite Ets. apply SF2Q_finite.
    + rewrite Hm. destruct s; cbn [cond_Zopp];
        [change (inject_Z (- Zpos p)) with (- inject_Z (Zpos p))|]; field.
    + apply Qle_shift_div_l; [reflexivity|]. rewrite Qmult_0_l. discriminate.
    + exact Herr1.
  - apply (signed_error s (inject_Z (Zpos me) * 2 ^ ee)
             (inject_Z (Zpos mt) * 2 ^ et * (inject_Z (Zpos 8796093022208000) * 2 ^ (-43)))).
    + rewrite Een. apply SF2Q_finite.
    + rewrite Ets, SF2Q_finite.
      change (inject_Z (Zpos 8796093022208000) * 2 ^ (-43)) with
        (SF2Q (S754_finite false 8796093022208000 (-43))). rewrite Ek. ring.
    + apply Qmult_le_0_compat; (apply Qmult_le_0_compat;
        [discriminate|apply Qlt_le_weak, pow2_pos]).
    + exact Herr2.
  - unfold startMillis. rewrite Een, float_of_int_5000.
    rewrite E5 in Herr3. exact Herr3.
  - unfold startMillis. rewrite Een, float_of_int_5000. exact Hfin.
Qed.

Lemma inject_Z_le a b : inject_Z a <= inject_Z b -> (a <= b)%Z.
Proof. intros H. rewrite Zle_Qle. exact H. Qed.

Lemma inject_Z_lt a b : inject_Z a < inject_Z b -> (a < b)%Z.
Proof. intros H. rewrite Zlt_Qlt. exact H. Qed.

(** From five seconds on the subtraction of [5000.0] is exact: the
    difference has a mantissa of 53 bits. *)
Lemma sub_5000_exact me ee :
  (Zpos me < 2 ^ 53)%Z -> (-200 <= ee <= 100)%Z ->
  let x := S754_finite false me ee in
  5000 <= SF2Q x -> SF2Q x < 72057594037927936 ->
  SF2Q (SF64sub x (S754_finite false 5497558138880000 (-40))) == SF2Q x - 5000.
Proof.
  intros Hme Hee x H5 Hhi.
  assert (E5 : SF2Q (S754_finite false 5497558138880000 (-40)) == 5000) by reflexivity.
  (* the exponent is not below that of [5000.0] *)
  assert (Hlo : (-40 <= ee)%Z).
  { destruct (Z_le_gt_dec (-40) ee) as [|Hgt]; [assumption|exfalso].
    unfold x, SF2Q in H5. cbn [cond_Zopp] in H5.
    assert (Hp : 2 ^ ee <= 2 ^ (-41)) by (apply Qpower_le_compat_l; [lia|discriminate]).
    assert (Hm : inject_Z (Zpos me) <= inject_Z (2 ^ 53)) by (rewrite <- Zle_Qle; lia).
    assert (H0 : 0 <= inject_Z (Zpos me)) by discriminate.
    pose proof (pow2_pos ee) as Hpe.
    assert (Hb : inject_Z (Zpos me) * 2 ^ ee <= inject_Z (2 ^ 53) * 2 ^ (-41)).
    { apply Qle_trans with (inject_Z (Zpos me) * 2 ^ (-41)).
      - rewrite !(Qmult_comm (inject_Z (Zpos me))). apply Qmult_le_compat_r; assumption.
      - apply Qmult_le_compat_r; [assumption|discriminate]. }
    assert (E : inject_Z (2 ^ 53) * 2 ^ (-41) == 4096) by reflexivity.
    rewrite E in Hb. lra. }
  destruct (SF64sub_spec false me ee false 5497558138880000 (-40) Hme eq_refl
              ltac:(lia) ltac:(lia)) as (_ & _ & Hexact & _).
  fold x in Hexact.
  replace (Z.min ee (-40)) with (-40)%Z in Hexact by lia.
  cbn [cond_Zopp] in Hexact. change (-40 - -40)%Z with 0%Z in Hexact.
  rewrite Z.pow_0_r, Z.mul_1_r in Hexact.
  replace (ee - -40)%Z with (ee + 40)%Z in Hexact by lia.
  set (a := (Zpos me * 2 ^ (ee + 40))%Z) in *.
  (* the difference is not negative *)
  assert (Ha : (5497558138880000 <= a)%Z).
  { apply inject_Z_le.
    unfold x in H5. rewrite (SF2Q_aligned false me ee (-40) Hlo) in H5.
    cbn [cond_Zopp] in H5. replace (ee - -40)%Z with (ee + 40)%Z in H5 by lia. fold a in H5.
    assert (E : 5000 == inject_Z 5497558138880000 * 2 ^ (-40)) by reflexivity.
    rewrite E in H5. apply Qmult_le_r in H5; [exact H5|apply pow2_pos]. }
  set (mn := Z.min ee 3).
  set (k := (Zpos me * 2 ^ (ee - mn) - 625 * 2 ^ (3 - mn))%Z).
  assert (Hk : (a - 5497558138880000 = k * 2 ^ (mn + 40))%Z).
  { unfold k, a. rewrite Z.mul_sub_distr_r, <- !Z.mul_assoc, <- !Z.pow_add_r by (unfold mn; lia).
    replace (ee - mn + (mn + 40))%Z with (ee + 40)%Z by lia.
    replace (3 - mn + (mn + 40))%Z with 43%Z by lia. reflexivity. }
  assert (HT : (0 < 2 ^ (mn + 40))%Z) by (apply Z.pow_pos_nonneg; unfold mn; lia).
  assert (Hk0 : (0 <= k)%Z).
  { apply (Zmul_le_cancel _ _ (2 ^ (mn + 40)) HT). rewrite <- Hk. lia. }
  assert (Hk53 : (k < 2 ^ 53)%Z).
  { assert (H625 : (0 < 625 * 2 ^ (3 - mn))%Z).
    { assert (0 < 2 ^ (3 - mn))%Z by (apply Z.pow_pos_nonneg; unfold mn; lia). lia. }
    assert (Hx : (Zpos me * 2 ^ (ee - mn) < 2 ^ 53)%Z); [|unfold k; lia].
    destruct (Z_le_gt_dec ee 3) as [Hle|Hgt].
    - replace (ee - mn)%Z with 0%Z by (unfold mn; lia). rewrite Z.pow_0_r. lia.
    - replace (ee - mn)%Z with (ee - 3)%Z by (unfold mn; lia).
      apply inject_Z_lt. apply (Qmult_lt_r _ _ (2 ^ 3)); [reflexivity|].
      unfold x, SF2Q in Hhi. cbn [cond_Zopp] in Hhi.
      rewrite (pow2_shift ee 3) in Hhi by lia.
      rewrite inject_Z_mult.
      assert (E : inject_Z (2 ^ 53) * 2 ^ 3 == 72057594037927936) by reflexivity.
      rewrite E. rewrite <- Qmult_assoc. exact Hhi. }
  rewrite <- E5. apply (Hexact k (mn + 40)%Z).
  - rewrite Z.abs_eq by lia. exact Hk.
  - unfold mn; lia.
  - lia.
Qed.

(** What the two offsets are to each other and to the difference of the
    two timestamps, for every difference that two [datetime]s can have. *)
Lemma offsets_facts (micros : Z) :
  (Z.abs micros < 2 ^ 59)%Z ->
  let e := SF2Q (endMillis micros) in
  let b := SF2Q (startMillis micros) in
  b <= e /\
  (0 <= e <-> (0 <= micros)%Z) /\
  (0 <= b <-> (5000000 <= micros)%Z) /\
  ((5000000 <= micros)%Z -> e - b == 5000) /\
  Qabs (e - b - 5000) <= Qabs (e - 5000) * eps64.
Proof.
  intros Hlt e b.
  destruct (Z.eq_dec micros 0%Z) as [->|Hnz].
  { assert (Ee : e == 0) by reflexivity. assert (Eb : b == - 5000) by reflexivity.
    rewrite Ee, Eb. split; [lra|]. split; [split; [lia|lra]|].
    split; [split; [lra|lia]|]. split; [lia|].
    assert (E0 : 0 - - 5000 - 5000 == 0) by ring. rewrite E0.
    change (Qabs 0) with 0. apply Qmult_le_0_compat; [apply Qabs_nonneg|discriminate]. }
  destruct (Z.eq_dec micros 5000000%Z) as [->|Hn5].
  { assert (Ee : e == 5000) by reflexivity. assert (Eb : b == 0) by reflexivity.
    rewrite Ee, Eb. split; [lra|]. split; [split; [lia|lra]|].
    split; [split; [lia|lra]|]. split; [intros _; ring|].
    assert (E0 : 5000 - 0 - 5000 == 0) by ring. rewrite E0.
    change (Qabs 0) with 0. apply Qmult_le_0_compat; [apply Qabs_nonneg|discriminate]. }
  destruct (offsets_roundings micros Hnz Hlt)
    as (mt & et & me & ee & _ & Een & Hme & Hee & H1 & H2 & H3 & _).
  fold e in H2, H3. fold b in H3.
  assert (Hwin : Qabs (e - b - 5000) <= Qabs (e - 5000) * eps64).
  { assert (E : e - b - 5000 == - (b - (e - 5000))) by ring.
    rewrite E, Qabs_opp. exact H3. }
  apply near_bounds in H1, H2, H3.
  assert (Hq : inject_Z (- 2 ^ 59) <= inject_Z micros <= inject_Z (2 ^ 59))
    by (rewrite <- !Zle_Qle; lia).
  change (inject_Z (- 2 ^ 59)) with (- 576460752303423488) in Hq.
  change (inject_Z (2 ^ 59)) with 576460752303423488 in Hq.
  set (t := SF2Q (total_seconds micros)) in *.
  set (q := inject_Z micros) in *.
  change (q / 1000000) with (q * (1 # 1000000)) in H1.
  unfold eps64 in *.
  destruct (Z_lt_ge_dec micros 0%Z) as [Hneg|Hpos].
  - (* the segment ends before the call starts *)
    assert (Hq0 : q <= - 1) by (unfold q; change (- 1) with (inject_Z (- 1));
                                 rewrite <- Zle_Qle; lia).
    clearbody t q e b.
    destruct H1 as (_ & H1). specialize (H1 ltac:(lra)).
    assert (Ht : t <= 0) by lra.
    destruct H2 as (_ & H2). specialize (H2 ltac:(lra)).
    assert (He : e < 0) by lra.
    destruct H3 as (_ & H3). specialize (H3 ltac:(lra)).
    split; [lra|]. split; [split; [lra|lia]|]. split; [split; [lra|lia]|].
    split; [lia|exact Hwin].
  - assert (Hq0 : 1 <= q) by (unfold q; change 1 with (inject_Z 1);
                               rewrite <- Zle_Qle; lia).
    destruct (Z_lt_ge_dec micros 5000000%Z) as [Hlt5|Hge5].
    + (* less than five seconds after the call start *)
      assert (Hq5 : q <= 4999999) by (unfold q; change 4999999 with (inject_Z 4999999);
                                      rewrite <- Zle_Qle; lia).
      clearbody t q e b.
      destruct H1 as (H1 & _). specialize (H1 ltac:(lra)).
      assert (Ht : 0 <= t) by lra.
      destruct H2 as (H2 & _). specialize (H2 ltac:(lra)).
      assert (He : 0 < e < 5000) by lra.
      destruct H3 as (_ & H3). specialize (H3 ltac:(lra)).
      split; [lra|]. split; [split; [lia|lra]|]. split; [split; [lra|lia]|].
      split; [lia|exact Hwin].
    + assert (Hq5 : 5000001 <= q) by (unfold q; change 5000001 with (inject_Z 5000001);
                                      rewrite <- Zle_Qle; lia).
      destruct H1 as (H1 & _). specialize (H1 ltac:(lra)).
      assert (Ht : 0 <= t) by lra.
      destruct H2 as (H2 & _). specialize (H2 ltac:(lra)).
      assert (He : 5000 < e) by lra.
      destruct H3 as (H3 & _). specialize (H3 ltac:(lra)).
      assert (Hsign : (micros <? 0)%Z = false) by (apply Z.ltb_ge; lia).
      rewrite Hsign in Een.
      assert (Hexact : b == e - 5000).
      { unfold b, startMillis. rewrite Een, float_of_int_5000.
        assert (Be : 5000 <= e < 72057594037927936).
        { clearbody t q e b. lra. }
        unfold e in Be |- *. rewrite Een in Be |- *.
        apply sub_5000_exact; [exact Hme|exact Hee|apply Be|apply Be]. }
      clearbody t q e b.
      split; [lra|]. split; [split; [lia|lra]|]. split; [split; [lia|lra]|].
      split; [intros _; rewrite Hexact; ring|exact Hwin].
Qed.

(** Neither offset is an infinity or a NaN. *)
Lemma offsets_finite (micros : Z) :
  (Z.abs micros < 2 ^ 59)%Z ->
  is_finite (endMillis micros) = true /\ is_finite (startMillis micros) = true.
Proof.
  intros Hlt. destruct (Z.eq_dec micros 0%Z) as [->|Hnz]; [split; reflexivity|].
  destruct (offsets_roundings micros Hnz Hlt)
    as (mt & et & me & ee & _ & Een & _ & _ & _ & _ & _ & Hfin).
  rewrite Een. split; [reflexivity|exact Hfin].
Qed.

End Binary64.

(** ** The range of a difference of two timestamps *)

Lemma strptime_valid v d : strptime v = Returned d -> valid_datetime d = true.
Proof.
  destruct v; try discriminate. cbn [strptime]. unfold strptime_str.
  destruct (parse_fields s) as [d'|]; [|discriminate].
  destruct (valid_datetime d') eqn:E; [|discriminate].
  intros [= <-]. exact E.
Qed.

Lemma days_before_year_range y :
  1 <= y <= 9999 -> 0 <= days_before_year y <= 3651793.
Proof.
  intros H. unfold days_before_year. cbv zeta.
  Z.to_euclidean_division_equations. lia.
Qed.

Lemma days_in_month_range y m : 28 <= days_in_month y m <= 31.
Proof.
  unfold days_in_month.
  destruct (m =? 2); [destruct (is_leap y); lia|].
  destruct ((m =? 4) || (m =? 6) || (m =? 9) || (m =? 11))%bool; lia.
Qed.

Lemma days_before_month_aux_range y n :
  0 <= days_before_month_aux y n <= 31 * Z.of_nat n.
Proof.
  induction n as [|n IH]; [cbn; lia|].
  cbn [days_before_month_aux].
  pose proof (days_in_month_range y (Z.of_nat (S n))). lia.
Qed.

Lemma toordinal_range d :
  valid_datetime d = true -> 1 <= toordinal d <= 3652165.
Proof.
  unfold valid_datetime. rewrite !andb_true_iff, !Z.leb_le.
  intros H. decompose [and] H. clear H.
  unfold toordinal, days_before_month.
  pose proof (days_before_year_range (year d) ltac:(lia)).
  pose proof (days_before_month_aux_range (year d) (Z.to_nat (month d - 1))).
  pose proof (days_in_month_range (year d) (month d)). lia.
Qed.

Lemma timedelta_micros_range a b :
  valid_datetime a = true -> valid_datetime b = true ->
  Z.abs (timedelta_micros a b) < 2 ^ 59.
Proof.
  intros Ha Hb.
  pose proof (toordinal_range a Ha). pose proof (toordinal_range b Hb).
  unfold valid_datetime in Ha, Hb. rewrite !andb_true_iff, !Z.leb_le in Ha, Hb.
  decompose [and] Ha. decompose [and] Hb. clear Ha Hb.
  unfold timedelta_micros, seconds_of_day.
  change (2 ^ 59) with 576460752303423488. lia.
Qed.

(** The timestamps a run has read were parsed, so they are valid. *)
Lemma reads_offset_range env event detail w x :
  reads env event detail w x -> Z.abs (offset_micros x) < 2 ^ 59.
Proof.
  intros (_ & _ & _ & _ & A5 & _ & _ & _ & A9 & _).
  unfold offset_micros. apply timedelta_micros_range.
  - destruct (current_tone detail "endTime") as [v|]; [|discriminate].
    exact (strptime_valid _ _ A9).
  - destruct (subscript (si_callData x) "callStreamingStartTime") as [v|]; [|discriminate].
    exact (strptime_valid _ _ A5).
Qed.

Lemma lambda_handler_run env event detail w x :
  successful_event event detail ->
  reads env event detail w x ->
  KINESIS_STREAM_NAME env <> EmptyString ->
  si_callId x <> EmptyString ->
  exists w',
    lambda_handler env event w = (Returned tt, w') /\
    emitted w w' = [(KINESIS_STREAM_NAME env, segment_record env x, si_callId x)].
Proof.
  intros [Hd Hs] Hreads Hstream Hcid.
  destruct (voice_tone_successful_run env event detail (printed event w) x) as (w' & Hrun);
    [apply reads_printed; exact Hreads|exact Hstream|exact Hcid|].
  exists w'. split.
  - unfold lambda_handler.
    unfold bind at 1. change (print (PrintJson event) w) with (Returned tt, printed event w).
    cbv iota beta. rewrite (lift_run _ _ _ _ Hd), (lift_run _ _ _ _ Hs).
    change (eq_str (JStr "VoiceToneAnalysisSuccessful") "AnalyticsReady") with false.
    cbv iota. unfold bind at 1. unfold ret at 1. cbv iota beta.
    rewrite (lift_run _ _ _ _ Hs).
    change (eq_str (JStr "VoiceToneAnalysisSuccessful") "VoiceToneAnalysisSuccessful")
      with true.
    cbv iota. unfold bind at 1. rewrite Hrun. reflexivity.
  - apply voice_tone_successful_inv in Hrun as (x' & l & Hreads' & Hc & Hk & _).
    apply reads_printed in Hreads'.
    rewrite (reads_functional _ _ _ _ _ _ Hreads Hreads').
    rewrite (emitted_one w w' l _ Hc Hk). reflexivity.
Qed.

(** Every record a run puts on the stream is the [segment_record] of what
    the run read. *)
Lemma emitted_record env event w o w' s d k :
  lambda_handler env event w = (o, w') ->
  In (s, d, k) (emitted w w') ->
  exists detail x,
    o = Returned tt /\ successful_event event detail /\ reads env event detail w x /\
    s = KINESIS_STREAM_NAME env /\ d = segment_record env x /\ k = si_callId x.
Proof.
  intros H Hin. apply lambda_handler_emits in H as [E | (detail & x & Ho & Hev & Hr & E)].
  - rewrite E in Hin. destruct Hin.
  - rewrite E in Hin. destruct Hin as [Hin|[]]. inversion Hin; subst.
    exists detail, x. split; [reflexivity|]. split; [assumption|].
    split; [assumption|]. auto.
Qed.

(** ** Offsets *)

(** C1, as the code has it: for every record put on the stream, whatever
    call start and segment end were parsed, [EndOffsetMillis] is at least
    [BeginOffsetMillis]; [EndOffsetMillis] is non-negative exactly when the
    segment does not end before the call starts, and [BeginOffsetMillis] is
    non-negative exactly when the segment ends five seconds or more after
    the call starts. *)
Theorem offsets_order_and_sign env event w o w' s d k :
  lambda_handler env event w = (o, w') ->
  In (s, d, k) (emitted w w') ->
  exists detail x b e,
    successful_event event detail /\ reads env event detail w x /\
    BeginOffsetMillis d = Some b /\ EndOffsetMillis d = Some e /\
    (b <= e)%Q /\
    ((0 <= e)%Q <-> 0 <= timedelta_micros (si_segmentEnd x) (si_callStart x)) /\
    ((0 <= b)%Q <-> 5000000 <= timedelta_micros (si_segmentEnd x) (si_callStart x)).
Proof.
  intros H Hin.
  destruct (emitted_record _ _ _ _ _ _ _ _ H Hin) as (detail & x & _ & Hev & Hr & _ & -> & _).
  exists detail, x, (begin_millis x), (end_millis x).
  split; [exact Hev|]. split; [exact Hr|].
  split; [reflexivity|]. split; [reflexivity|].
  pose proof (offsets_facts (offset_micros x) (reads_offset_range _ _ _ _ _ Hr)) as F.
  cbv zeta in F. destruct F as (A & B & C & _).
  split; [exact A|]. split; [exact B|exact C].
Qed.

(** C2, as the code has it: for every record put on the stream,
    [EndOffsetMillis] is the binary64 product of the seconds between call
    start and segment end with [1000] and [BeginOffsetMillis] the binary64
    difference of [EndOffsetMillis] and [5000]; the segment's own start
    time plays no part.  The two differ by 5000 whenever the segment ends
    five seconds or more after the call starts, and in every case by 5000
    up to the rounding of that one subtraction. *)
Theorem window_is_5000_up_to_rounding env event w o w' s d k :
  lambda_handler env event w = (o, w') ->
  In (s, d, k) (emitted w w') ->
  exists detail x b e,
    successful_event event detail /\ reads env event detail w x /\
    BeginOffsetMillis d = Some b /\ EndOffsetMillis d = Some e /\
    e = SF2Q (endMillis (timedelta_micros (si_segmentEnd x) (si_callStart x))) /\
    b = SF2Q (SF64sub (endMillis (timedelta_micros (si_segmentEnd x) (si_callStart x)))
                      (float_of_int 5000)) /\
    (5000000 <= timedelta_micros (si_segmentEnd x) (si_callStart x) ->
     (e - b == 5000)%Q) /\
    (Qabs (e - b - 5000) <= Qabs (e - 5000) * eps64)%Q.
Proof.
  intros H Hin.
  destruct (emitted_record _ _ _ _ _ _ _ _ H Hin) as (detail & x & _ & Hev & Hr & _ & -> & _).
  exists detail, x, (begin_millis x), (end_millis x).
  split; [exact Hev|]. split; [exact Hr|].
  split; [reflexivity|]. split; [reflexivity|].
  split; [reflexivity|]. split; [reflexivity|].
  pose proof (offsets_facts (offset_micros x) (reads_offset_range _ _ _ _ _ Hr)) as F.
  cbv zeta in F. destruct F as (_ & _ & _ & D & E).
  split; [exact D|exact E].
Qed.

(** The two offsets of a run are finite binary64 numbers, so each has a
    value. *)
Lemma emitted_offsets_are_finite env event detail w x :
  reads env event detail w x ->
  is_finite (endMillis (offset_micros x)) = true /\
  is_finite (startMillis (offset_micros x)) = true.
Proof. intros Hr. apply offsets_finite. exact (reads_offset_range _ _ _ _ _ Hr). Qed.

(** C4: with a call record whose [callStreamingStartTime] is
    [2024-01-01T00:00:00.000Z] and a segment whose [endTime] is
    [2024-01-01T00:00:10.000Z], the handler returns and the record it puts
    on the stream has [BeginOffsetMillis] 5000 and [EndOffsetMillis]
    10000.  The stream name and the call id are not empty, as the client's
    parameter validation wants them. *)
Theorem scenario_offsets env event detail w x :
  successful_event event detail ->
  reads env event detail w x ->
  KINESIS_STREAM_NAME env <> EmptyString ->
  si_callId x <> EmptyString ->
  subscript (si_callData x) "callStreamingStartTime"
    = Returned (JStr "2024-01-01T00:00:00.000Z") ->
  current_tone detail "endTime" = Returned (JStr "2024-01-01T00:00:10.000Z") ->
  exists w' d b e,
    lambda_handler env event w = (Returned tt, w') /\
    emitted w w' = [(KINESIS_STREAM_NAME env, d, si_callId x)] /\
    BeginOffsetMillis d = Some b /\ EndOffsetMillis d = Some e /\
    (b == 5000)%Q /\ (e == 10000)%Q.
Proof.
  intros Hev Hr Hstream Hcid Hstart Hend.
  destruct (lambda_handler_run _ _ _ _ _ Hev Hr Hstream Hcid) as (w' & Hrun & Hem).
  exists w', (segment_record env x), (begin_millis x), (end_millis x).
  split; [exact Hrun|]. split; [exact Hem|].
  split; [reflexivity|]. split; [reflexivity|].
  destruct Hr as (_ & _ & _ & _ & A5 & _ & _ & _ & A9 & _).
  rewrite Hstart in A5. rewrite Hend in A9.
  assert (P0 : strptime (JStr "2024-01-01T00:00:00.000Z")
               = Returned (mkDatetime 2024 1 1 0 0 0 0)) by reflexivity.
  assert (P10 : strptime (JStr "2024-01-01T00:00:10.000Z")
                = Returned (mkDatetime 2024 1 1 0 0 10 0)) by reflexivity.
  cbn [obind] in A5, A9. rewrite P0 in A5. rewrite P10 in A9.
  injection A5 as Hcs. injection A9 as Hse.
  unfold begin_millis, end_millis, offset_micros. rewrite <- Hcs, <- Hse.
  split; vm_compute; reflexivity.
Qed.

(** ** The shape of an emitted record *)

(** C8: every record put on the stream has [EventType]
    ["ADD_TRANSCRIPT_SEGMENT"], a top-level [CallId] that is the call id
    the task id of the event resolves to, an [UtteranceEvent] with
    [UtteranceId], [ParticipantRole], [isPartial] false, [Transcript]
    ["voice tone"], [Sentiment], [BeginOffsetMillis] and [EndOffsetMillis],
    then [CreatedAt] and [UpdatedAt] holding the same formatted time; it goes
    to the configured stream under the call id as partition key. *)
Theorem emitted_record_shape env event w o w' s d k :
  lambda_handler env event w = (o, w') ->
  In (s, d, k) (emitted w w') ->
  exists detail t callId utteranceId role sentiment b e,
    successful_event event detail /\
    subscript detail "taskId" = Returned (JStr t) /\
    resolved_callId w t = Some (JStr callId) /\
    d = JObj [("EventType", JStr "ADD_TRANSCRIPT_SEGMENT");
              ("CallId", JStr callId);
              ("UtteranceEvent",
                JObj [("UtteranceId", utteranceId);
                      ("ParticipantRole", JStr role);
                      ("isPartial", JBool false);
                      ("Transcript", JStr "voice tone");
                      ("Sentiment", JStr sentiment);
                      ("BeginOffsetMillis", JNum b);
                      ("EndOffsetMillis", JNum e)]);
              ("CreatedAt", JStr (strftime (now env)));
              ("UpdatedAt", JStr (strftime (now env)))]%string /\
    k = callId /\
    s = KINESIS_STREAM_NAME env.
Proof.
  intros H Hin.
  destruct (emitted_record _ _ _ _ _ _ _ _ H Hin)
    as (detail & x & _ & Hev & Hr & -> & -> & ->).
  destruct Hr as (A1 & A2 & _).
  exists detail, (si_taskId x), (si_callId x), (si_utteranceId x),
    (participant_role (si_isCaller x)), (upper (si_label x)),
    (begin_millis x), (end_millis x).
  repeat (split; [first [assumption | reflexivity]|]). reflexivity.
Qed.

Lemma eq_True_cases v :
  eq_True v = true <-> v = JBool true \/ exists q, v = JNum q /\ (q == 1)%Q.
Proof.
  split.
  - destruct v; simpl; try discriminate.
    + intros ->. left. reflexivity.
    + intros H. right. exists q. split; [reflexivity|]. apply Qeq_bool_eq. exact H.
  - intros [-> | (q & -> & H)]; simpl; [reflexivity|]. apply Qeq_eq_bool. exact H.
Qed.

(** C9, as the code has it: the emitted [ParticipantRole] is
    ["AGENT_VOICE_SENTIMENT"] exactly when [isCaller] compares equal to
    [True], which the JSON value [true] and the numbers of value one do,
    and ["CALLER_VOICE_SENTIMENT"] for every other value present; the
    [Sentiment] is the upper-cased [voiceToneLabel]. *)
Theorem role_and_sentiment env event w o w' s d k :
  lambda_handler env event w = (o, w') ->
  In (s, d, k) (emitted w w') ->
  exists detail isCaller label,
    successful_event event detail /\
    subscript detail "isCaller" = Returned isCaller /\
    current_tone detail "voiceToneLabel" = Returned (JStr label) /\
    utterance_field "ParticipantRole" d =
      Some (JStr (if eq_True isCaller then "AGENT_VOICE_SENTIMENT"
                  else "CALLER_VOICE_SENTIMENT")) /\
    (eq_True isCaller = true <->
       isCaller = JBool true \/ exists q, isCaller = JNum q /\ (q == 1)%Q) /\
    utterance_field "Sentiment" d = Some (JStr (upper label)).
Proof.
  intros H Hin.
  destruct (emitted_record _ _ _ _ _ _ _ _ H Hin)
    as (detail & x & _ & Hev & Hr & _ & -> & _).
  destruct Hr as (_ & _ & _ & _ & _ & A6 & A7 & _).
  exists detail, (si_isCaller x), (si_label x).
  split; [exact Hev|]. split; [exact A6|]. split; [exact A7|].
  split; [|split; [apply eq_True_cases|reflexivity]].
  unfold segment_record, participant_role, ne_True.
  destruct (eq_True (si_isCaller x)); reflexivity.
Qed.

(** ** Runs on the sample environment *)

Example start_event_scenario :
  fst (lambda_handler sample_env ready_event sample_world) = Returned tt /\
  new_calls sample_world started_world =
    [ChimeStartVoiceToneAnalysisTask "vc1" "tx1" "en-US" "call1";
     DynamoPutItem (vta_item "task1" (JStr "call1"))] /\
  voiceTaskCache started_world !! "task1"%string = Some (JStr "call1") /\
  dynamoTable started_world !! ("vta#task1", "VTA")%string
    = Some (vta_item "task1" (JStr "call1")).
Proof. repeat split; vm_compute; reflexivity. Qed.

Example start_time_plays_no_part :
  emitted started_world
    (snd (lambda_handler sample_env
            (tone_event (JBool false) "2024-01-01T00:00:05.000Z" "2024-01-01T00:00:10.000Z")
            started_world)) =
  emitted started_world
    (snd (lambda_handler sample_env
            (tone_event (JBool false) "2024-01-01T00:00:09.250Z" "2024-01-01T00:00:10.000Z")
            started_world)).
Proof. vm_compute. reflexivity. Qed.

Example unparsable_start_time_stops_the_run :
  lambda_handler sample_env
    (tone_event (JBool false) "2024-01-01T00:00:05Z" "2024-01-01T00:00:10.000Z")
    started_world
  = (Raised ValueError,
     printed (tone_event (JBool false) "2024-01-01T00:00:05Z" "2024-01-01T00:00:10.000Z")
       (snd (get_call_record (JStr "call1") started_world))).
Proof. vm_compute. reflexivity. Qed.

(** ** From the start event to the mapping *)

Lemma chime_start_Returned env a b c response w w1 :
  chime_start env a b c w = (Returned response, w1) ->
  exists vc tx tk,
    a = JStr vc /\ b = JStr tx /\ c = JStr tk /\
    start_voice_tone_analysis_task env vc tx "en-US" tk = Returned response /\
    voiceTaskCache w1 = voiceTaskCache w /\
    callDetailCache w1 = callDetailCache w /\
    dynamoTable w1 = dynamoTable w /\
    calls w1 = calls w ++ [ChimeStartVoiceToneAnalysisTask vc tx "en-US" tk].
Proof.
  unfold chime_start. intros H.
  pure H vc Hvc. pure H tx Htx. pure H tk Htk.
  step H u w2 Hcall. apply lift_inv in H as [H ->].
  apply param_str_min1_Returned in Hvc as [-> _].
  apply param_str_min1_Returned in Htx as [-> _].
  destruct c; try discriminate Htk. inversion Htk; subst.
  inversion Hcall; subst. exists vc, tx, tk. cbn. auto 10.
Qed.

(** A start event that is handled leaves the mapping from the task id the
    service answered with to the call id of the event, in the cache and in
    the table. *)
Lemma start_event_records_mapping env detail w w1 :
  analytics_ready env detail w = (Returned tt, w1) ->
  exists vc tx c t,
    subscript detail "callId" = Returned (JStr c) /\
    obind (start_voice_tone_analysis_task env vc tx "en-US" c) (fun response =>
    obind (subscript response "VoiceToneAnalysisTask") (fun task =>
    subscript task "VoiceToneAnalysisTaskId")) = Returned (JStr t) /\
    new_calls w w1 = [ChimeStartVoiceToneAnalysisTask vc tx "en-US" c;
                      DynamoPutItem (vta_item t (JStr c))] /\
    resolved_callId w1 t = Some (JStr c) /\
    resolved_callId (cold w1) t = Some (JStr c).
Proof.
  unfold analytics_ready. intros H.
  pure H voiceConnectorId Hvc. pure H transactionId Htx. pure H token Htk.
  step H response w2 Hchime.
  pure H task Htask. pure H taskId Hid. pure H msg Hmsg.
  step H u w3 Hprint. pure H callId HcallId.
  apply chime_start_Returned in Hchime
    as (vc & tx & tk & -> & -> & -> & Hanswer & Hvtc & Hcdc & Htab & Hcalls).
  rewrite Htk in HcallId. inversion HcallId; subst callId.
  destruct taskId as [| | |t| |]; try discriminate Hmsg.
  inversion Hprint; subst w3 u. rewrite put_voice_task_eq in H. inversion H; subst w1.
  exists vc, tx, tk, t. split; [exact Htk|]. split.
  { rewrite Hanswer. cbn [obind]. rewrite Htask. exact Hid. }
  split.
  { apply new_calls_app. cbn [calls]. rewrite Hcalls, <- app_assoc. reflexivity. }
  unfold resolved_callId, cold; cbn [voiceTaskCache dynamoTable].
  rewrite lookup_insert_eq, lookup_empty, lookup_insert_eq. cbn. rewrite vta_item_CallId. auto.
Qed.

(** ** The properties at the sample runs *)

Lemma other_status_is_ignored_witness :
  exists w',
    lambda_handler sample_env failed_event started_world = (Returned tt, w') /\
    calls w' = calls started_world /\
    new_calls started_world w' = [] /\
    emitted started_world w' = [] /\
    dynamoTable w' = dynamoTable started_world /\
    voiceTaskCache w' = voiceTaskCache started_world /\
    callDetailCache w' = callDetailCache started_world /\
    stdout w' = stdout started_world ++ [PrintJson failed_event].
Proof.
  apply (other_status_is_ignored sample_env failed_event (detail_of failed_event)
           (JStr "VoiceToneAnalysisFailed") started_world).
  - reflexivity.
  - reflexivity.
  - discriminate.
  - discriminate.
Defined.

(** The scenario: the call starts at 00:00:00, the segment ends at
    00:00:10. *)
Lemma scenario_offsets_witness :
  exists w' d b e,
    lambda_handler sample_env scenario_event started_world = (Returned tt, w') /\
    emitted started_world w' = [(KINESIS_STREAM_NAME sample_env, d, "call1"%string)] /\
    BeginOffsetMillis d = Some b /\ EndOffsetMillis d = Some e /\
    (b == 5000)%Q /\ (e == 10000)%Q.
Proof.
  apply (scenario_offsets sample_env scenario_event (detail_of scenario_event)
           started_world scenario_inputs).
  - split; vm_compute; reflexivity.
  - repeat split; vm_compute; reflexivity.
  - discriminate.
  - discriminate.
  - vm_compute. reflexivity.
  - vm_compute. reflexivity.
Defined.

(** The same event in a fresh execution environment: the call id comes
    from the table. *)
Example scenario_from_cold_caches :
  emitted (cold started_world)
    (snd (lambda_handler sample_env scenario_event (cold started_world)))
  = [("CallDataStream"%string, segment_record sample_env scenario_inputs, "call1"%string)] /\
  new_calls (cold started_world)
    (snd (lambda_handler sample_env scenario_event (cold started_world)))
  = [DynamoGetItem "vta#task1" "VTA"; DynamoGetItem "cd#call1" "BOTH";
     KinesisPutRecord "CallDataStream" (segment_record sample_env scenario_inputs) "call1"].
Proof. split; vm_compute; reflexivity. Qed.

Lemma offsets_order_and_sign_witness :
  let run := lambda_handler sample_env scenario_event started_world in
  let d := segment_record sample_env scenario_inputs in
  exists detail x b e,
    successful_event scenario_event detail /\
    reads sample_env scenario_event detail started_world x /\
    BeginOffsetMillis d = Some b /\ EndOffsetMillis d = Some e /\
    (b <= e)%Q /\
    ((0 <= e)%Q <-> 0 <= timedelta_micros (si_segmentEnd x) (si_callStart x)) /\
    ((0 <= b)%Q <-> 5000000 <= timedelta_micros (si_segmentEnd x) (si_callStart x)).
Proof.
  intros run d.
  apply (offsets_order_and_sign sample_env scenario_event started_world
           (fst run) (snd run) "CallDataStream" d "call1").
  - apply surjective_pairing.
  - vm_compute. left. reflexivity.
Defined.

(** C1 fails as stated: a segment that ends two seconds after the call
    starts is emitted with [BeginOffsetMillis] -3000. *)
Lemma early_segment_begins_below_zero :
  let run := lambda_handler sample_env early_event started_world in
  fst run = Returned tt /\
  exists s d k b e,
    emitted started_world (snd run) = [(s, d, k)] /\
    BeginOffsetMillis d = Some b /\ EndOffsetMillis d = Some e /\
    (b == -3000)%Q /\ (e == 2000)%Q /\ (b < 0)%Q.
Proof.
  split; [vm_compute; reflexivity|].
  eexists _, _, _, _, _.
  split; [vm_compute; reflexivity|].
  split; [reflexivity|]. split; [reflexivity|].
  split; [reflexivity|]. split; reflexivity.
Qed.

Lemma window_is_5000_up_to_rounding_witness :
  let run := lambda_handler sample_env scenario_event (cold started_world) in
  let d := snd (fst (hd (EmptyString, JNull, EmptyString)
                        (emitted (cold started_world) (snd run)))) in
  exists detail x b e,
    successful_event scenario_event detail /\
    reads sample_env scenario_event detail (cold started_world) x /\
    BeginOffsetMillis d = Some b /\ EndOffsetMillis d = Some e /\
    e = SF2Q (endMillis (timedelta_micros (si_segmentEnd x) (si_callStart x))) /\
    b = SF2Q (SF64sub (endMillis (timedelta_micros (si_segmentEnd x) (si_callStart x)))
                      (float_of_int 5000)) /\
    (5000000 <= timedelta_micros (si_segmentEnd x) (si_callStart x) ->
     (e - b == 5000)%Q) /\
    (Qabs (e - b - 5000) <= Qabs (e - 5000) * eps64)%Q.
Proof.
  intros run d.
  apply (window_is_5000_up_to_rounding sample_env scenario_event (cold started_world)
           (fst run) (snd run) "CallDataStream" d "call1").
  - apply surjective_pairing.
  - vm_compute. left. reflexivity.
Defined.

(** C2 fails as stated: a segment that ends 1.001 seconds after the call
    starts is emitted with [EndOffsetMillis] 1000.9999999999999 (the
    binary64 number [8804889115230207 / 2 ^ 43]) and [BeginOffsetMillis]
    -3999.0, which are less than 5000 apart. *)
Lemma window_off_by_rounding :
  let run := lambda_handler sample_env fraction_event started_world in
  fst run = Returned tt /\
  exists s d k b e,
    emitted started_world (snd run) = [(s, d, k)] /\
    BeginOffsetMillis d = Some b /\ EndOffsetMillis d = Some e /\
    (e == 8804889115230207 # 8796093022208)%Q /\ (b == -3999)%Q /\
    ~ (e - b == 5000)%Q /\ (e - b < 5000)%Q.
Proof.
  split; [vm_compute; reflexivity|].
  eexists _, _, _, _, _.
  split; [vm_compute; reflexivity|].
  split; [reflexivity|]. split; [reflexivity|].
  split; [reflexivity|]. split; [reflexivity|].
  split; [discriminate|reflexivity].
Qed.

(** Before the call start the binary64 difference of the two offsets is
    not [5000.0] either: a segment that ends 3.192004 seconds before the
    call starts has offsets -3192.004 and -8192.004, whose binary64
    difference is 5000.000000000001. *)
Example window_before_call_start :
  endMillis (-3192004) = S754_finite true 7019291027815006 (-41) /\
  startMillis (-3192004) = S754_finite true 4503601826393752 (-39) /\
  SF64sub (endMillis (-3192004)) (startMillis (-3192004))
    = S754_finite false 5497558138880001 (-40) /\
  float_of_int 5000 = S754_finite false 5497558138880000 (-40) /\
  exists s d k,
    emitted started_world (snd (lambda_handler sample_env before_start_event started_world))
      = [(s, d, k)] /\
    EndOffsetMillis d = Some (SF2Q (endMillis (-3192004))) /\
    BeginOffsetMillis d = Some (SF2Q (startMillis (-3192004))).
Proof.
  repeat split; try (vm_compute; reflexivity).
  eexists _, _, _. split; [vm_compute; reflexivity|]. split; reflexivity.
Qed.

Lemma emitted_record_shape_witness :
  let run := lambda_handler sample_env scenario_event (cold started_world) in
  let d := segment_record sample_env scenario_inputs in
  exists detail t callId utteranceId role sentiment b e,
    successful_event scenario_event detail /\
    subscript detail "taskId" = Returned (JStr t) /\
    resolved_callId (cold started_world) t = Some (JStr callId) /\
    d = JObj [("EventType", JStr "ADD_TRANSCRIPT_SEGMENT");
              ("CallId", JStr callId);
              ("UtteranceEvent",
                JObj [("UtteranceId", utteranceId);
                      ("ParticipantRole", JStr role);
                      ("isPartial", JBool false);
                      ("Transcript", JStr "voice tone");
                      ("Sentiment", JStr sentiment);
                      ("BeginOffsetMillis", JNum b);
                      ("EndOffsetMillis", JNum e)]);
              ("CreatedAt", JStr (strftime (now sample_env)));
              ("UpdatedAt", JStr (strftime (now sample_env)))]%string /\
    "call1"%string = callId /\
    "CallDataStream"%string = KINESIS_STREAM_NAME sample_env.
Proof.
  intros run d.
  apply (emitted_record_shape sample_env scenario_event (cold started_world)
           (fst run) (snd run) "CallDataStream" d "call1").
  - apply surjective_pairing.
  - vm_compute. left. reflexivity.
Defined.

(** C9 fails as stated: [isCaller] given as the number one is no boolean,
    and the record carries the agent role. *)
Lemma numeric_isCaller_gives_agent :
  subscript (detail_of numeric_event) "isCaller" = Returned (JNum 1) /\
  JNum 1 <> JBool true /\
  let run := lambda_handler sample_env numeric_event started_world in
  fst run = Returned tt /\
  exists s d k,
    emitted started_world (snd run) = [(s, d, k)] /\
    utterance_field "ParticipantRole" d = Some (JStr "AGENT_VOICE_SENTIMENT").
Proof.
  split; [reflexivity|]. split; [discriminate|].
  split; [vm_compute; reflexivity|].
  eexists _, _, _.
  split; [vm_compute; reflexivity|]. reflexivity.
Qed.

Lemma role_and_sentiment_witness :
  let run := lambda_handler sample_env numeric_event started_world in
  let d := snd (fst (hd (EmptyString, JNull, EmptyString)
                        (emitted started_world (snd run)))) in
  exists detail isCaller label,
    successful_event numeric_event detail /\
    subscript detail "isCaller" = Returned isCaller /\
    current_tone detail "voiceToneLabel" = Returned (JStr label) /\
    utterance_field "ParticipantRole" d =
      Some (JStr (if eq_True isCaller then "AGENT_VOICE_SENTIMENT"
                  else "CALLER_VOICE_SENTIMENT")) /\
    (eq_True isCaller = true <->
       isCaller = JBool true \/ exists q, isCaller = JNum q /\ (q == 1)%Q) /\
    utterance_field "Sentiment" d = Some (JStr (upper label)).
Proof.
  intros run d.
  apply (role_and_sentiment sample_env numeric_event started_world
           (fst run) (snd run) "CallDataStream" d "call1").
  - apply surjective_pairing.
  - vm_compute. left. reflexivity.
Defined.

(** ** Mutation dispatch *)

Example dispatch_table :
  MUTATION_FUNCTION_NAME (Some "Demo Asterisk PBX Server"%string)
    = Some execute_process_transcribe_event_api_mutation /\
  MUTATION_FUNCTION_NAME (Some "Chime Voice Connector (SIPREC)"%string)
    = Some execute_process_transcribe_event_api_mutation /\
  MUTATION_FUNCTION_NAME (Some "Genesys Cloud Audiohook Web Socket"%string)
    = Some execute_process_transcribe_event_api_mutation /\
  MUTATION_FUNCTION_NAME (Some "Amazon Connect Contact Lens"%string)
    = Some execute_process_contact_lens_event_api_mutation.
Proof. repeat split; vm_compute; reflexivity. Qed.

(** C5: a configured audio source that is none of the four labels of the
    table, the unset one included, resolves to [None]; the look-up is a
    total function and raises nothing. *)
Theorem unrecognized_source_selects_nothing (CALL_AUDIO_SOURCE : option string) :
  CALL_AUDIO_SOURCE <> Some "Demo Asterisk PBX Server"%string ->
  CALL_AUDIO_SOURCE <> Some "Chime Voice Connector (SIPREC)"%string ->
  CALL_AUDIO_SOURCE <> Some "Genesys Cloud Audiohook Web Socket"%string ->
  CALL_AUDIO_SOURCE <> Some "Amazon Connect Contact Lens"%string ->
  MUTATION_FUNCTION_NAME CALL_AUDIO_SOURCE = None.
Proof.
  intros H1 H2 H3 H4. destruct CALL_AUDIO_SOURCE as [label|]; [|reflexivity].
  unfold MUTATION_FUNCTION_NAME, MUTATION_FUNCTION_MAPPING.
  rewrite !lookup_insert_ne by (intros <-; congruence). apply lookup_empty.
Qed.

Lemma unrecognized_source_selects_nothing_witness :
  MUTATION_FUNCTION_NAME None = None /\
  MUTATION_FUNCTION_NAME (Some "Amazon Connect"%string) = None.
Proof.
  split.
  - apply (unrecognized_source_selects_nothing None); discriminate.
  - apply (unrecognized_source_selects_nothing (Some "Amazon Connect"%string)); discriminate.
Defined.

(** ** The transcript handler and the errors of a batch *)

Lemma log_errors_run errs l :
  log_errors errs l = (Returned tt, l ++ error_entries errs).
Proof.
  revert l. induction errs as [|e errs IH]; intros l.
  - simpl. unfold ret. rewrite app_nil_r. reflexivity.
  - cbn [log_errors]. unfold bind at 1. unfold log at 1. cbv iota beta.
    unfold bind at 1.
    destruct e; cbn [is_exception]; unfold log, ret; cbv iota beta;
      rewrite IH; cbn [error_entries flat_map is_exception];
      rewrite <- ?app_assoc; reflexivity.
Qed.

Lemma fold_updates_app sm a b m :
  fold_updates sm (a ++ b) m = obind (fold_updates sm a m) (fold_updates sm b).
Proof.
  revert m. induction a as [|it a IH]; intros m; [reflexivity|].
  simpl. destruct (manager_update_state sm m it) as [[m1 st]|e]; simpl; [apply IH|reflexivity].
Qed.

Lemma fold_items_run sm items m l :
  exists dbg, Forall is_debug dbg /\
    fold_items sm items m l = (fold_updates sm (List.filter truthy items) m, l ++ dbg).
Proof.
  revert m l. induction items as [|it items IH]; intros m l.
  - exists []. rewrite app_nil_r. split; [constructor|reflexivity].
  - cbn [fold_items List.filter]. unfold bind at 1. unfold log at 1. cbv iota beta.
    unfold bind at 1. destruct (truthy it).
    + unfold bind at 1. unfold lift at 1. cbn [fold_updates].
      destruct (manager_update_state sm m it) as [[m1 st]|e]; cbn [obind fst].
      * unfold bind at 1. unfold log at 1. cbv iota beta. unfold ret at 1. cbv iota beta.
        destruct (IH m1 ((l ++ [LogDebug "event_processor item"]) ++ [LogDebug "updated state"]))
          as (dbg & Hd & ->).
        exists ([LogDebug "event_processor item"; LogDebug "updated state"] ++ dbg).
        split.
        { repeat constructor; try (eexists; reflexivity). exact Hd. }
        rewrite <- !app_assoc. reflexivity.
      * exists [LogDebug "event_processor item"].
        split; [repeat constructor; eexists; reflexivity|reflexivity].
    + unfold ret at 1. cbv iota beta.
      destruct (IH m (l ++ [LogDebug "event_processor item"])) as (dbg & Hd & ->).
      exists (LogDebug "event_processor item" :: dbg).
      split; [constructor; [eexists; reflexivity|exact Hd]|].
      rewrite <- app_assoc. reflexivity.
Qed.

Lemma fold_results_run sm results m l :
  exists dbg, Forall is_debug dbg /\
    fold_results sm results m l =
    (fold_updates sm
       (List.filter truthy (flat_map (fun r => get_or_empty (item_successes r)) results)) m,
     l ++ dbg).
Proof.
  revert m l. induction results as [|r results IH]; intros m l.
  - exists []. rewrite app_nil_r. split; [constructor|reflexivity].
  - cbn [fold_results flat_map]. unfold bind at 1. unfold log at 1. cbv iota beta.
    unfold bind at 1.
    destruct (fold_items_run sm (get_or_empty (item_successes r)) m
                (l ++ [LogDebug "event_processor result"])) as (d1 & Hd1 & ->).
    rewrite List.filter_app, fold_updates_app.
    destruct (fold_updates sm (List.filter truthy (get_or_empty (item_successes r))) m)
      as [m1|e]; cbn [obind].
    + destruct (IH m1 ((l ++ [LogDebug "event_processor result"]) ++ d1)) as (d2 & Hd2 & ->).
      exists ((LogDebug "event_processor result" :: d1) ++ d2). split.
      { apply Forall_app. split; [constructor; [eexists; reflexivity|exact Hd1]|exact Hd2]. }
      rewrite <- !app_assoc. reflexivity.
    + exists (LogDebug "event_processor result" :: d1).
      split; [constructor; [eexists; reflexivity|exact Hd1]|].
      rewrite <- app_assoc. reflexivity.
Qed.

Lemma update_state_run sm event r l :
  exists dbg, Forall is_debug dbg /\
    update_state sm event r l =
    (obind (event_get_state event) (fun _ =>
     obind (aenter sm event) (fun m =>
     obind (fold_updates sm (List.filter truthy (nested_items (successes r))) m) (fun m' =>
     obind (aexit sm m') (fun _ => Returned (manager_state sm m'))))),
     l ++ dbg).
Proof.
  unfold update_state, nested_items.
  unfold bind at 1. unfold lift at 1.
  destruct (event_get_state event) as [st0|e]; cbn [obind].
  2:{ exists []. rewrite app_nil_r. split; [constructor|reflexivity]. }
  unfold bind at 1. unfold lift at 1.
  destruct (aenter sm event) as [m|e]; cbn [obind].
  2:{ exists []. rewrite app_nil_r. split; [constructor|reflexivity]. }
  unfold bind at 1.
  destruct (fold_results_run sm (get_or_empty (successes r)) m l) as (dbg & Hd & ->).
  exists dbg. split; [exact Hd|].
  destruct (fold_updates sm _ m) as [m'|e]; cbn [obind]; [|reflexivity].
  unfold bind, lift, ret. destruct (aexit sm m') as [[]|e]; reflexivity.
Qed.

Lemma filter_debug dbg : Forall is_debug dbg -> List.filter is_error_entry dbg = [].
Proof.
  induction 1 as [|e dbg [msg ->] _ IH]; [reflexivity|]. simpl. exact IH.
Qed.

Lemma handler_run p event r l :
  process_event p event = Returned r ->
  exists dbg,
    Forall is_debug dbg /\
    handler p event l =
      (outgoing (state_manager p) event (successes r),
       l ++ [LogDebug "lambda event"; LogDebug "event processor results"]
         ++ error_entries (get_or_empty (errors r)) ++ dbg).
Proof.
  intros Hr. unfold handler.
  unfold bind at 1. unfold log at 1. cbv iota beta.
  unfold bind at 1. unfold lift at 1. rewrite Hr.
  unfold bind at 1. unfold log at 1. cbv iota beta.
  unfold bind at 1. rewrite log_errors_run.
  unfold bind at 1.
  destruct (update_state_run (state_manager p) event r
              (((l ++ [LogDebug "lambda event"]) ++ [LogDebug "event processor results"])
                 ++ error_entries (get_or_empty (errors r)))) as (dbg & Hd & ->).
  unfold outgoing.
  destruct (event_get_state event) as [st0|e]; cbn [obind].
  2:{ exists dbg. split; [exact Hd|]. rewrite <- !app_assoc. reflexivity. }
  destruct (aenter (state_manager p) event) as [m|e]; cbn [obind].
  2:{ exists dbg. split; [exact Hd|]. rewrite <- !app_assoc. reflexivity. }
  destruct (fold_updates (state_manager p) _ m) as [m'|e]; cbn [obind].
  2:{ exists dbg. split; [exact Hd|]. rewrite <- !app_assoc. reflexivity. }
  destruct (aexit (state_manager p) m') as [[]|e]; cbn [obind].
  2:{ exists dbg. split; [exact Hd|]. rewrite <- !app_assoc. reflexivity. }
  unfold bind, lift, log, ret.
  exists (dbg ++ [LogDebug "state"]). split.
  - apply Forall_app. split; [exact Hd|]. repeat constructor. eexists; reflexivity.
  - rewrite <- !app_assoc. reflexivity.
Qed.

(** C6: the handler logs every element of the errors list and goes on;
    what it returns is [outgoing], a function of the event and of the
    successes alone, so any other errors list gives the same result; with
    one success and one error the result is the state folded over that
    success and the log holds one error entry. *)
Theorem errors_are_logged_not_folded (p : Processor) (event : json)
    (r : batch_results) (l : list log_entry) :
  process_event p event = Returned r ->
  (forall l0, log_errors (get_or_empty (errors r)) l0
              = (Returned tt, l0 ++ error_entries (get_or_empty (errors r)))) /\
  (forall e, In e (get_or_empty (errors r)) ->
     In (LogError "event processor error: %s" e) (drop (length l) (snd (handler p event l)))) /\
  fst (handler p event l) = outgoing (state_manager p) event (successes r) /\
  (forall errs',
     fst (handler (mkProcessor (fun _ => Returned (mkBatchResults (successes r) errs'))
                               (state_manager p)) event l)
     = fst (handler p event l)) /\
  (forall rr e, successes r = Some [rr] -> errors r = Some [e] ->
     fst (handler p event l) = outgoing (state_manager p) event (Some [rr]) /\
     List.filter is_error_entry (drop (length l) (snd (handler p event l)))
       = [LogError "event processor error: %s" e]).
Proof.
  intros Hr.
  destruct (handler_run p event r l Hr) as (dbg & Hd & Hrun).
  assert (Hnew : drop (length l) (snd (handler p event l)) =
                 [LogDebug "lambda event"; LogDebug "event processor results"]
                   ++ error_entries (get_or_empty (errors r)) ++ dbg).
  { rewrite Hrun. cbn [snd]. apply drop_app_length. }
  split; [intros l0; apply log_errors_run|].
  split; [|split; [|split]].
  - intros e Hin. rewrite Hnew. apply in_or_app. right. apply in_or_app. left.
    unfold error_entries. apply in_flat_map. exists e. split; [exact Hin|]. left. reflexivity.
  - rewrite Hrun. reflexivity.
  - intros errs'.
    destruct (handler_run (mkProcessor (fun _ => Returned (mkBatchResults (successes r) errs'))
                                       (state_manager p)) event
                (mkBatchResults (successes r) errs') l eq_refl) as (dbg' & _ & Hrun').
    rewrite Hrun', Hrun. reflexivity.
  - intros rr e Hs He. split.
    + rewrite Hrun, Hs. reflexivity.
    + rewrite Hnew, He. cbn [get_or_empty error_entries flat_map].
      rewrite !List.filter_app, (filter_debug _ Hd).
      destruct e; reflexivity.
Qed.

Lemma errors_are_logged_not_folded_witness :
  let l := [LogDebug "cold start"] in
  (forall l0, log_errors (get_or_empty (errors one_success_one_error)) l0
              = (Returned tt, l0 ++ error_entries (get_or_empty (errors one_success_one_error)))) /\
  (forall e, In e (get_or_empty (errors one_success_one_error)) ->
     In (LogError "event processor error: %s" e)
        (drop (length l) (snd (handler sample_processor transcript_event l)))) /\
  fst (handler sample_processor transcript_event l)
    = outgoing collecting_manager transcript_event (successes one_success_one_error) /\
  (forall errs',
     fst (handler (mkProcessor
                     (fun _ => Returned (mkBatchResults (successes one_success_one_error) errs'))
                     collecting_manager) transcript_event l)
     = fst (handler sample_processor transcript_event l)) /\
  (forall rr e, successes one_success_one_error = Some [rr] ->
     errors one_success_one_error = Some [e] ->
     fst (handler sample_processor transcript_event l)
       = outgoing collecting_manager transcript_event (Some [rr]) /\
     List.filter is_error_entry (drop (length l) (snd (handler sample_processor transcript_event l)))
       = [LogError "event processor error: %s" e]).
Proof.
  intros l.
  apply (errors_are_logged_not_folded sample_processor transcript_event
           one_success_one_error l).
  reflexivity.
Defined.

(** The scenario on the sample processor: the falsy item and the nested
    error are passed over, the exception is logged twice. *)
Example one_success_one_error_run :
  handler sample_processor transcript_event [] =
  (Returned (JObj [("state"%string,
                    JArr [JNum 7;
                          JObj [("CallId", JStr "call1"); ("Status", JStr "STARTED")]%string])]),
   [LogDebug "lambda event"; LogDebug "event processor results";
    LogError "event processor error: %s" (ErrException "ClientError('throttled')");
    LogException "event processor exception";
    LogDebug "event_processor result"; LogDebug "event_processor item";
    LogDebug "updated state"; LogDebug "event_processor item"; LogDebug "state"]).
Proof. reflexivity. Qed.

(** A state manager that raises stops the run after the errors are logged. *)
Example refused_item_stops_the_run :
  handler (mkProcessor
             (fun _ => Returned (mkBatchResults
                                   (Some [mkRecordResult (Some [JStr "text"]) None])
                                   (Some [ErrValue JNull])))
             collecting_manager) transcript_event [] =
  (Raised ValueError,
   [LogDebug "lambda event"; LogDebug "event processor results";
    LogError "event processor error: %s" (ErrValue JNull);
    LogDebug "event_processor result"; LogDebug "event_processor item"]).
Proof. reflexivity. Qed.

(** * Further properties of the voice-tone processor *)

(** ** The handler, branch by branch *)

Lemma lambda_handler_successful_eq env event detail w :
  successful_event event detail ->
  lambda_handler env event w = voice_tone_successful env event detail (printed event w).
Proof.
  intros [Hd Hs]. unfold lambda_handler.
  unfold bind at 1. change (print (PrintJson event) w) with (Returned tt, printed event w).
  cbv iota beta. rewrite (lift_run _ _ _ _ Hd), (lift_run _ _ _ _ Hs).
  change (eq_str (JStr "VoiceToneAnalysisSuccessful") "AnalyticsReady") with false.
  cbv iota. unfold bind at 1. unfold ret at 1. cbv iota beta.
  rewrite (lift_run _ _ _ _ Hs).
  change (eq_str (JStr "VoiceToneAnalysisSuccessful") "VoiceToneAnalysisSuccessful")
    with true.
  cbv iota. unfold bind at 1.
  destruct (voice_tone_successful env event detail (printed event w)) as [[[]|e] w'];
    reflexivity.
Qed.

Lemma lambda_handler_start_eq env event detail w :
  start_event event detail ->
  lambda_handler env event w = analytics_ready env detail (printed event w).
Proof.
  intros [Hd Hs]. unfold lambda_handler.
  unfold bind at 1. change (print (PrintJson event) w) with (Returned tt, printed event w).
  cbv iota beta. rewrite (lift_run _ _ _ _ Hd), (lift_run _ _ _ _ Hs).
  change (eq_str (JStr "AnalyticsReady") "AnalyticsReady") with true.
  cbv iota. unfold bind at 1.
  destruct (analytics_ready env detail (printed event w)) as [[[]|e] w']; [|reflexivity].
  rewrite (lift_run _ _ _ _ Hs).
  change (eq_str (JStr "AnalyticsReady") "VoiceToneAnalysisSuccessful") with false.
  reflexivity.
Qed.

(** ** Relations kept along a run *)

Lemma steps_within_bind (R : World -> World -> Prop) {A B} (m : M A) (f : A -> M B) :
  (forall w1 w2 w3, R w1 w2 -> R w2 w3 -> R w1 w3) ->
  steps_within R m -> (forall a, steps_within R (f a)) -> steps_within R (bind m f).
Proof.
  intros Htrans Hm Hf w o w' E. unfold bind in E.
  destruct (m w) as [[a|e] w1] eqn:E1.
  - eapply Htrans; [eapply Hm; eauto|eapply Hf; eauto].
  - inversion E; subst. eapply Hm; eauto.
Qed.

Lemma raises_within_bind (R : World -> World -> Prop) {A B} (m : M A) (f : A -> M B) :
  (forall w1 w2 w3, R w1 w2 -> R w2 w3 -> R w1 w3) ->
  steps_within R m -> (forall a, raises_within R (f a)) -> raises_within R (bind m f).
Proof.
  intros Htrans Hm Hf w e w' E. apply bind_Raised in E as [E | (a & w1 & E1 & E2)].
  - eapply Hm; eauto.
  - eapply Htrans; [eapply Hm; eauto|eapply Hf; eauto].
Qed.

Lemma steps_within_raises (R : World -> World -> Prop) {A} (m : M A) :
  steps_within R m -> raises_within R m.
Proof. intros H w e w' E. eapply H; eauto. Qed.

Lemma steps_within_if (R : World -> World -> Prop) {A} (b : bool) (m1 m2 : M A) :
  steps_within R m1 -> steps_within R m2 -> steps_within R (if b then m1 else m2).
Proof. destruct b; auto. Qed.

Lemma same_state_steps {A} (m : M A) :
  (forall w o w', m w = (o, w') -> same_state w w') ->
  forall R : World -> World -> Prop,
  (forall w w', same_state w w' -> R w w') -> steps_within R m.
Proof. intros H R HR w o w' E. apply HR. eapply H; eauto. Qed.

Lemma same_state_lift {A} (x : outcome A) w o w' : lift x w = (o, w') -> same_state w w'.
Proof. intros E. apply lift_inv in E as [_ ->]. repeat split. Qed.

Lemma same_state_ret {A} (a : A) w (o : outcome A) w' : ret a w = (o, w') -> same_state w w'.
Proof. intros E. inversion E. repeat split. Qed.

Lemma same_state_print l w o w' : print l w = (o, w') -> same_state w w'.
Proof. intros E. inversion E. repeat split. Qed.

(** *** Growth of the caches and coherence *)

Lemma coherent_same_state w w' : same_state w w' -> coherent w -> coherent w'.
Proof.
  intros (Hv & Hc & Ht & _) [H1 H2]. unfold coherent. rewrite Hv, Hc, Ht. auto.
Qed.

Lemma grows_same_state w w' : same_state w w' -> grows w w'.
Proof.
  intros H. split; [|split].
  - destruct H as (_ & -> & _). reflexivity.
  - destruct H as (-> & _). reflexivity.
  - apply coherent_same_state. exact H.
Qed.

Lemma grows_same_caches w w' :
  voiceTaskCache w' = voiceTaskCache w -> callDetailCache w' = callDetailCache w ->
  dynamoTable w' = dynamoTable w -> grows w w'.
Proof.
  intros Hv Hc Ht. split; [rewrite Hc; reflexivity|]. split; [rewrite Hv; reflexivity|].
  intros [H1 H2]. unfold coherent. rewrite Hv, Hc, Ht. auto.
Qed.

Lemma grows_trans w1 w2 w3 : grows w1 w2 -> grows w2 w3 -> grows w1 w3.
Proof.
  intros (A1 & A2 & A3) (B1 & B2 & B3). split; [|split].
  - etransitivity; eauto.
  - etransitivity; eauto.
  - auto.
Qed.

Lemma vta_key_inj t t' : "vta#" +:+ t = "vta#" +:+ t' -> t = t'.
Proof.
  intros H. change (string_drop 4 ("vta#" +:+ t) = string_drop 4 ("vta#" +:+ t')).
  rewrite H. reflexivity.
Qed.

Lemma cd_key_inj c c' : "cd#" +:+ c = "cd#" +:+ c' -> c = c'.
Proof.
  intros H. change (string_drop 3 ("cd#" +:+ c) = string_drop 3 ("cd#" +:+ c')).
  rewrite H. reflexivity.
Qed.

Lemma grows_get_callId v : steps_within grows (get_callId_for_voiceTask v).
Proof.
  intros w o w' E. destruct v as [| | |t| |];
    try solve [apply grows_same_state; inversion E; repeat split].
  destruct (voiceTaskCache w !! t) as [c0|] eqn:Hc.
  - rewrite (get_callId_hit t c0) in E by exact Hc. inversion E; subst.
    apply grows_same_state. repeat split.
  - rewrite get_callId_miss in E by exact Hc. cbv zeta in E.
    destruct (dynamoTable w !! ("vta#" +:+ t, "VTA"%string)) as [it|] eqn:Ht;
      [destruct (it !! "CallId"%string) as [c|] eqn:Hi|];
      inversion E; subst; try solve [apply grows_same_caches; reflexivity].
    split; [reflexivity|]. split.
    + cbn [voiceTaskCache]. rewrite dom_insert_L. set_solver.
    + intros [H1 H2]. split; cbn [voiceTaskCache callDetailCache dynamoTable].
      * intros t0 c0 Hl. destruct (decide (t = t0)) as [<-|Hne].
        -- rewrite lookup_insert_eq in Hl. inversion Hl; subst. eauto.
        -- rewrite lookup_insert_ne in Hl by exact Hne. auto.
      * exact H2.
Qed.

Lemma grows_get_call_record v : steps_within grows (get_call_record v).
Proof.
  intros w o w' E. destruct v as [| | |c| |];
    try solve [apply grows_same_state; inversion E; repeat split].
  destruct (callDetailCache w !! c) as [r0|] eqn:Hc.
  - rewrite (get_call_record_hit c r0) in E by exact Hc. inversion E; subst.
    apply grows_same_state. repeat split.
  - rewrite get_call_record_miss in E by exact Hc.
    destruct (dynamoTable w !! ("cd#" +:+ c, "BOTH"%string)) as [it|] eqn:Ht;
      inversion E; subst; try solve [apply grows_same_caches; reflexivity].
    split; [|split].
    + cbn [callDetailCache]. apply insert_subseteq. exact Hc.
    + reflexivity.
    + intros [H1 H2]. split; cbn [voiceTaskCache callDetailCache dynamoTable].
      * exact H1.
      * intros c0 rec Hl. destruct (decide (c = c0)) as [<-|Hne].
        -- rewrite lookup_insert_eq in Hl. inversion Hl; subst. exact Ht.
        -- rewrite lookup_insert_ne in Hl by exact Hne. auto.
Qed.

Lemma grows_put_voice_task v c : steps_within grows (put_voice_task v c).
Proof.
  intros w o w' E. destruct v as [| | |t| |];
    try solve [apply grows_same_state; inversion E; repeat split].
  rewrite put_voice_task_eq in E. inversion E; subst. split; [reflexivity|]. split.
  - cbn [voiceTaskCache]. rewrite dom_insert_L. set_solver.
  - intros [H1 H2]. split; cbn [voiceTaskCache callDetailCache dynamoTable].
    + intros t0 c0 Hl. destruct (decide (t = t0)) as [<-|Hne].
      * rewrite lookup_insert_eq in Hl. inversion Hl; subst.
        exists (vta_item t c0). rewrite lookup_insert_eq. split; [reflexivity|].
        apply vta_item_CallId.
      * rewrite lookup_insert_ne in Hl by exact Hne.
        rewrite lookup_insert_ne; [auto|].
        intros Hk. apply Hne, vta_key_inj. exact (f_equal fst Hk).
    + intros c0 rec Hl. rewrite lookup_insert_ne by discriminate. auto.
Qed.

Lemma same_state_chime_start env a b c w o w' :
  chime_start env a b c w = (o, w') ->
  voiceTaskCache w' = voiceTaskCache w /\ callDetailCache w' = callDetailCache w /\
  dynamoTable w' = dynamoTable w /\
  exists l, calls w' = calls w ++ l /\ Forall is_chime_start l.
Proof.
  unfold chime_start, bind, lift, record_call.
  destruct (param_str_min1 a) as [vc|e1]; [|intros E; inversion E; subst; repeat split;
    exists []; rewrite app_nil_r; auto].
  destruct (param_str_min1 b) as [tx|e2]; [|intros E; inversion E; subst; repeat split;
    exists []; rewrite app_nil_r; auto].
  destruct (param_str c) as [tk|e3]; [|intros E; inversion E; subst; repeat split;
    exists []; rewrite app_nil_r; auto].
  intros E. inversion E; subst. cbn. repeat split.
  eexists. split; [reflexivity|]. repeat constructor.
Qed.

Lemma same_caches_kinesis env putObj callId w o w' :
  kinesis_put_record env putObj callId w = (o, w') ->
  voiceTaskCache w' = voiceTaskCache w /\ callDetailCache w' = callDetailCache w /\
  dynamoTable w' = dynamoTable w /\
  exists l, calls w' = calls w ++ l /\ Forall is_read_or_emit l.
Proof.
  unfold kinesis_put_record, bind, lift, record_call.
  destruct (param_str_min1 (JStr (KINESIS_STREAM_NAME env))) as [sn|e1];
    [|intros E; inversion E; subst; repeat split; exists []; rewrite app_nil_r; auto].
  destruct (param_str_min1 callId) as [pk|e2];
    [|intros E; inversion E; subst; repeat split; exists []; rewrite app_nil_r; auto].
  intros E. inversion E; subst. cbn. repeat split.
  eexists. split; [reflexivity|]. repeat constructor.
Qed.

Lemma grows_chime_start env a b c : steps_within grows (chime_start env a b c).
Proof.
  intros w o w' E. apply same_state_chime_start in E as (Hv & Hc & Ht & _).
  apply grows_same_caches; assumption.
Qed.

Lemma grows_kinesis env putObj callId : steps_within grows (kinesis_put_record env putObj callId).
Proof.
  intros w o w' E. apply same_caches_kinesis in E as (Hv & Hc & Ht & _).
  apply grows_same_caches; assumption.
Qed.

Lemma grows_lift {A} (x : outcome A) : steps_within grows (lift x).
Proof. intros w o w' E. apply grows_same_state. eapply same_state_lift; eauto. Qed.

Lemma grows_ret {A} (a : A) : steps_within grows (ret a).
Proof. intros w o w' E. apply grows_same_state. eapply same_state_ret; eauto. Qed.

Lemma grows_print l : steps_within grows (print l).
Proof. intros w o w' E. apply grows_same_state. eapply same_state_print; eauto. Qed.

Create HintDb grows.
#[local] Hint Resolve grows_lift grows_ret grows_print grows_get_callId grows_get_call_record
  grows_put_voice_task grows_chime_start grows_kinesis : grows.

Ltac grows_steps :=
  repeat first
    [ solve [auto with grows]
    | apply steps_within_if
    | apply steps_within_bind; [exact grows_trans| |intros ?] ].

Lemma grows_lambda_handler env event : steps_within grows (lambda_handler env event).
Proof. unfold lambda_handler, analytics_ready, voice_tone_successful. grows_steps. Qed.

(** X1: every run keeps what the caches hold: a cached call record stays
    cached unchanged and a cached task id stays cached, whatever the event
    and the outcome. *)
Theorem caches_only_grow env event w o w' :
  lambda_handler env event w = (o, w') ->
  (forall c rec, callDetailCache w !! c = Some rec -> callDetailCache w' !! c = Some rec) /\
  (forall t, is_Some (voiceTaskCache w !! t) -> is_Some (voiceTaskCache w' !! t)).
Proof.
  intros H. destruct (grows_lambda_handler env event _ _ _ H) as (Hc & Hv & _). split.
  - intros c rec Hl. eapply lookup_weaken; eauto.
  - intros t Hl. apply elem_of_dom. apply Hv. apply elem_of_dom. exact Hl.
Qed.

Lemma caches_only_grow_witness :
  let run := lambda_handler sample_env scenario_event (cold started_world) in
  let run2 := lambda_handler sample_env ready_event (snd run) in
  (forall c rec, callDetailCache (snd run) !! c = Some rec ->
                 callDetailCache (snd run2) !! c = Some rec) /\
  (forall t, is_Some (voiceTaskCache (snd run) !! t) ->
             is_Some (voiceTaskCache (snd run2) !! t)).
Proof.
  intros run run2.
  apply (caches_only_grow sample_env ready_event (snd run) (fst run2) (snd run2)).
  apply surjective_pairing.
Defined.

(** X2: a run on caches that agree with the table leaves caches that agree
    with the table, whatever the event and the outcome. *)
Theorem handler_keeps_caches_coherent env event w o w' :
  coherent w ->
  lambda_handler env event w = (o, w') ->
  coherent w'.
Proof.
  intros Hco H. destruct (grows_lambda_handler env event _ _ _ H) as (_ & _ & Hk). auto.
Qed.

Lemma handler_keeps_caches_coherent_witness : coherent started_world.
Proof.
  apply (handler_keeps_caches_coherent sample_env ready_event sample_world
           (fst (lambda_handler sample_env ready_event sample_world)) started_world).
  - split; cbn [sample_world voiceTaskCache callDetailCache]; intros ? ? Hl;
      rewrite lookup_empty in Hl; discriminate Hl.
  - apply surjective_pairing.
Defined.

(** *** Runs that only read *)

Lemma reads_only_same_state w w' : same_state w w' -> reads_only w w'.
Proof.
  intros (Hv & _ & Ht & Hc). split; [exact Ht|]. split; [rewrite Hv; reflexivity|].
  exists []. rewrite app_nil_r. auto.
Qed.

Lemma reads_only_trans w1 w2 w3 : reads_only w1 w2 -> reads_only w2 w3 -> reads_only w1 w3.
Proof.
  intros (A1 & A2 & l1 & A3 & A4) (B1 & B2 & l2 & B3 & B4). split; [congruence|].
  split; [etransitivity; eauto|].
  exists (l1 ++ l2). split; [rewrite B3, A3, app_assoc; reflexivity|].
  apply Forall_app. auto.
Qed.

Lemma reads_only_lift {A} (x : outcome A) : steps_within reads_only (lift x).
Proof. intros w o w' E. apply reads_only_same_state. eapply same_state_lift; eauto. Qed.

Lemma reads_only_ret {A} (a : A) : steps_within reads_only (ret a).
Proof. intros w o w' E. apply reads_only_same_state. eapply same_state_ret; eauto. Qed.

Lemma reads_only_print l : steps_within reads_only (print l).
Proof. intros w o w' E. apply reads_only_same_state. eapply same_state_print; eauto. Qed.

Lemma reads_only_get_callId v : steps_within reads_only (get_callId_for_voiceTask v).
Proof.
  intros w o w' E. destruct v as [| | |t| |];
    try solve [apply reads_only_same_state; inversion E; repeat split].
  destruct (voiceTaskCache w !! t) as [c0|] eqn:Hc.
  - rewrite (get_callId_hit t c0) in E by exact Hc. inversion E; subst.
    apply reads_only_same_state. repeat split.
  - rewrite get_callId_miss in E by exact Hc. cbv zeta in E.
    destruct (dynamoTable w !! ("vta#" +:+ t, "VTA"%string)) as [it|];
      [destruct (it !! "CallId"%string) as [c|]|];
      inversion E; subst; (split; [reflexivity|]);
      (split; [cbn [voiceTaskCache]; first [reflexivity | apply insert_subseteq; exact Hc]|]);
      (eexists; split; [reflexivity|repeat constructor]).
Qed.

Lemma reads_only_get_call_record v : steps_within reads_only (get_call_record v).
Proof.
  intros w o w' E. destruct v as [| | |c| |];
    try solve [apply reads_only_same_state; inversion E; repeat split].
  destruct (callDetailCache w !! c) as [r0|] eqn:Hc.
  - rewrite (get_call_record_hit c r0) in E by exact Hc. inversion E; subst.
    apply reads_only_same_state. repeat split.
  - rewrite get_call_record_miss in E by exact Hc.
    destruct (dynamoTable w !! ("cd#" +:+ c, "BOTH"%string)) as [it|];
      inversion E; subst; (split; [reflexivity|]); (split; [reflexivity|]);
      (eexists; split; [reflexivity|repeat constructor]).
Qed.

Lemma reads_only_kinesis env putObj callId :
  steps_within reads_only (kinesis_put_record env putObj callId).
Proof.
  intros w o w' E. apply same_caches_kinesis in E as (Hv & _ & Ht & Hl).
  split; [exact Ht|]. split; [rewrite Hv; reflexivity|exact Hl].
Qed.

Create HintDb reads_only.
#[local] Hint Resolve reads_only_lift reads_only_ret reads_only_print reads_only_get_callId
  reads_only_get_call_record reads_only_kinesis : reads_only.

Lemma reads_only_voice_tone_successful env event detail :
  steps_within reads_only (voice_tone_successful env event detail).
Proof.
  unfold voice_tone_successful.
  repeat first
    [ solve [auto with reads_only]
    | apply steps_within_bind; [exact reads_only_trans| |intros ?] ].
Qed.

(** X3: an event whose status is not ["AnalyticsReady"] never makes the
    handler write: the table is left as it is, no cached call id is
    replaced, and the client calls made are table reads and stream puts
    only (no [put_item], no task started), whatever the outcome. *)
Theorem only_start_events_write env event w o w' :
  (forall detail, subscript event "detail" = Returned detail ->
     subscript detail "detailStatus" <> Returned (JStr "AnalyticsReady")) ->
  lambda_handler env event w = (o, w') ->
  dynamoTable w' = dynamoTable w /\
  (forall t c, voiceTaskCache w !! t = Some c -> voiceTaskCache w' !! t = Some c) /\
  Forall is_read_or_emit (new_calls w w').
Proof.
  intros Hns H.
  assert (Hro : reads_only w w').
  { unfold lambda_handler in H. unfold bind at 1 in H.
    change (print (PrintJson event) w) with (Returned tt, printed event w) in H.
    cbv iota beta in H.
    apply (reads_only_trans _ (printed event w)); [apply reads_only_same_state; repeat split|].
    unfold bind at 1 in H. unfold lift at 1 in H.
    destruct (subscript event "detail") as [detail|e] eqn:Hd.
    2:{ inversion H; subst. apply reads_only_same_state. repeat split. }
    specialize (Hns detail eq_refl).
    unfold bind at 1 in H. unfold lift at 1 in H.
    destruct (subscript detail "detailStatus") as [status|e] eqn:Hs.
    2:{ inversion H; subst. apply reads_only_same_state. repeat split. }
    destruct (eq_str status "AnalyticsReady") eqn:Hready.
    { apply eq_str_true in Hready. subst status. congruence. }
    revert H. generalize (printed event w). intros w0 H.
    assert (Hst : steps_within reads_only
                    (ret tt ;;; status' <- lift (Returned status) ;;
                     (if eq_str status' "VoiceToneAnalysisSuccessful"
                      then voice_tone_successful env event detail else ret tt) ;;; ret tt)).
    { repeat first
        [ solve [auto with reads_only]
        | apply reads_only_voice_tone_successful
        | apply steps_within_if
        | apply steps_within_bind; [exact reads_only_trans| |intros ?] ]. }
    exact (Hst _ _ _ H). }
  destruct Hro as (Ht & Hv & l & Hc & Hl). split; [exact Ht|]. split.
  - intros t c Hlk. eapply lookup_weaken; eauto.
  - rewrite (new_calls_app _ _ _ Hc). exact Hl.
Qed.

Lemma only_start_events_write_witness :
  let run := lambda_handler sample_env scenario_event (cold started_world) in
  dynamoTable (snd run) = dynamoTable (cold started_world) /\
  (forall t c, voiceTaskCache (cold started_world) !! t = Some c ->
               voiceTaskCache (snd run) !! t = Some c) /\
  Forall is_read_or_emit (new_calls (cold started_world) (snd run)).
Proof.
  intros run.
  apply (only_start_events_write sample_env scenario_event (cold started_world)
           (fst run) (snd run)).
  - intros detail Hd. vm_compute in Hd. inversion Hd; subst. vm_compute. discriminate.
  - apply surjective_pairing.
Defined.

(** *** Runs that write nothing *)

Lemma writes_nothing_same_state w w' : same_state w w' -> writes_nothing w w'.
Proof.
  intros (Hv & Hc & Ht & Hcalls). repeat (split; [assumption|]).
  exists []. rewrite app_nil_r. auto.
Qed.

Lemma writes_nothing_trans w1 w2 w3 :
  writes_nothing w1 w2 -> writes_nothing w2 w3 -> writes_nothing w1 w3.
Proof.
  intros (A1 & A2 & A3 & l1 & A4 & A5) (B1 & B2 & B3 & l2 & B4 & B5).
  split; [congruence|]. split; [congruence|]. split; [congruence|].
  exists (l1 ++ l2). split; [rewrite B4, A4, app_assoc; reflexivity|].
  apply Forall_app. auto.
Qed.

Lemma writes_nothing_lift {A} (x : outcome A) : steps_within writes_nothing (lift x).
Proof. intros w o w' E. apply writes_nothing_same_state. eapply same_state_lift; eauto. Qed.

Lemma writes_nothing_print l : steps_within writes_nothing (print l).
Proof. intros w o w' E. apply writes_nothing_same_state. eapply same_state_print; eauto. Qed.

Lemma writes_nothing_chime_start env a b c : steps_within writes_nothing (chime_start env a b c).
Proof.
  intros w o w' E. apply same_state_chime_start in E as (Hv & Hc & Ht & Hl).
  repeat (split; [assumption|]). exact Hl.
Qed.

Lemma put_voice_task_raises v c : raises_within writes_nothing (put_voice_task v c).
Proof.
  intros w e w' E.
  destruct v; inversion E; subst; apply writes_nothing_same_state; repeat split.
Qed.

Lemma analytics_ready_raises env detail :
  raises_within writes_nothing (analytics_ready env detail).
Proof.
  unfold analytics_ready.
  repeat first
    [ apply put_voice_task_raises
    | apply raises_within_bind;
        [exact writes_nothing_trans
        |first [apply writes_nothing_lift | apply writes_nothing_print
               | apply writes_nothing_chime_start]
        |intros ?] ].
Qed.

(** X4: a start event that is not handled to the end leaves nothing
    behind: when the handler raises on an ["AnalyticsReady"] event (a field
    is missing or of the wrong type, the service refuses), the table and
    both caches are as before, nothing is on the stream, and the only
    client call that can have been made is the start request. *)
Theorem failed_start_writes_nothing env event detail w e w' :
  start_event event detail ->
  lambda_handler env event w = (Raised e, w') ->
  dynamoTable w' = dynamoTable w /\
  voiceTaskCache w' = voiceTaskCache w /\
  callDetailCache w' = callDetailCache w /\
  Forall is_chime_start (new_calls w w') /\
  emitted w w' = [].
Proof.
  intros Hev H. rewrite (lambda_handler_start_eq _ _ _ _ Hev) in H.
  apply analytics_ready_raises in H as (Ht & Hv & Hc & l & Hl & Hf).
  cbn [printed dynamoTable voiceTaskCache callDetailCache calls] in *.
  repeat (split; [assumption|]).
  assert (Hn : new_calls w w' = l) by (apply new_calls_app; exact Hl).
  split; [rewrite Hn; exact Hf|].
  unfold emitted. rewrite Hn. clear -Hf.
  induction Hf as [|c l Hc _ IH]; [reflexivity|].
  destruct c; try contradiction. exact IH.
Qed.

Lemma failed_start_writes_nothing_witness :
  let run := lambda_handler refusing_env ready_event sample_world in
  fst run = Raised ClientError /\
  dynamoTable (snd run) = dynamoTable sample_world /\
  voiceTaskCache (snd run) = voiceTaskCache sample_world /\
  callDetailCache (snd run) = callDetailCache sample_world /\
  Forall is_chime_start (new_calls sample_world (snd run)) /\
  emitted sample_world (snd run) = [].
Proof.
  intros run. split; [reflexivity|].
  apply (failed_start_writes_nothing refusing_env ready_event (detail_of ready_event)
           sample_world ClientError (snd run)).
  - split; reflexivity.
  - reflexivity.
Defined.

(** ** The success branch, world for world *)

Lemma world_eta w :
  mkWorld (voiceTaskCache w) (callDetailCache w) (dynamoTable w) (calls w) (stdout w) = w.
Proof. destruct w. reflexivity. Qed.

Lemma get_callId_world t c w w1 :
  get_callId_for_voiceTask (JStr t) w = (Returned c, w1) ->
  w1 = mkWorld (<[t := c]> (voiceTaskCache w)) (callDetailCache w) (dynamoTable w)
               (calls w ++ task_reads w t) (stdout w).
Proof.
  intros H. unfold task_reads. destruct (voiceTaskCache w !! t) as [c0|] eqn:E.
  - rewrite (get_callId_hit t c0) in H by exact E. inversion H; subst.
    rewrite insert_id by exact E. rewrite app_nil_r. symmetry. apply world_eta.
  - rewrite get_callId_miss in H by exact E. cbv zeta in H.
    destruct (dynamoTable w !! _) as [it|]; [|discriminate H].
    destruct (it !! _) as [c1|]; [|discriminate H].
    inversion H; subst. reflexivity.
Qed.

Lemma get_call_record_world c rec w w1 :
  get_call_record (JStr c) w = (Returned rec, w1) ->
  w1 = mkWorld (voiceTaskCache w) (<[c := rec]> (callDetailCache w)) (dynamoTable w)
               (calls w ++ record_reads w c) (stdout w).
Proof.
  intros H. unfold record_reads. destruct (callDetailCache w !! c) as [r0|] eqn:E.
  - rewrite (get_call_record_hit c r0) in H by exact E. inversion H; subst.
    rewrite insert_id by exact E. rewrite app_nil_r. symmetry. apply world_eta.
  - rewrite get_call_record_miss in H by exact E.
    destruct (dynamoTable w !! _) as [it|]; [|discriminate H].
    inversion H; subst. reflexivity.
Qed.

Lemma voice_tone_successful_world env event detail w x :
  reads env event detail w x ->
  KINESIS_STREAM_NAME env <> EmptyString ->
  si_callId x <> EmptyString ->
  voice_tone_successful env event detail w =
  (Returned tt,
   mkWorld (<[si_taskId x := JStr (si_callId x)]> (voiceTaskCache w))
           (<[si_callId x := si_callRecord x]> (callDetailCache w))
           (dynamoTable w)
           (calls w ++ task_reads w (si_taskId x) ++ record_reads w (si_callId x) ++
              [KinesisPutRecord (KINESIS_STREAM_NAME env) (segment_record env x) (si_callId x)])
           (stdout w ++ [PrintJson (segment_record env x)])).
Proof.
  intros Hreads Hstream Hcid.
  pose proof Hreads as (A1 & A2 & A3 & A4 & A5 & A6 & A7 & A8 & A9 & A10).
  apply obind_Returned in A4 as (callDataStr & A4 & A4').
  apply obind_Returned in A5 as (startStr & A5 & A5').
  apply obind_Returned in A8 as (segStartStr & A8 & A8').
  apply obind_Returned in A9 as (segEndStr & A9 & A9').
  apply obind_Returned in A10 as (eid & A10 & A10').
  destruct (get_callId_run _ _ _ A2) as (w1 & G1 & Hhit & Hcdc & Htab).
  pose proof (get_callId_world _ _ _ _ G1) as Hw1.
  assert (A3' : resolved_call_record w1 (si_callId x) = Some (si_callRecord x)).
  { unfold resolved_call_record in *. rewrite Hcdc, Htab. exact A3. }
  destruct (get_call_record_run _ _ _ A3') as (w3 & G3).
  pose proof (get_call_record_world _ _ _ _ G3) as Hw3.
  unfold voice_tone_successful.
  rewrite (lift_run _ _ _ _ A1), (bind_run _ _ _ _ _ G1).
  rewrite (lift_run _ _ _ _ A1), (bind_run _ _ _ _ _ (get_callId_hit _ _ _ Hhit)).
  rewrite (bind_run _ _ _ _ _ G3).
  rewrite (lift_run _ _ _ _ A4), (lift_run _ _ _ _ A4'), (lift_run _ _ _ _ A5),
    (lift_run _ _ _ _ A5'), (lift_run _ _ _ _ A6), (lift_run _ _ _ _ A7).
  cbn [call_upper]. rewrite (lift_run _ _ (JStr (upper (si_label x))) _ eq_refl).
  rewrite (lift_run _ _ _ _ A8), (lift_run _ _ _ _ A8'), (lift_run _ _ _ _ A9),
    (lift_run _ _ _ _ A9'), (lift_run _ _ _ _ A10), (lift_run _ _ _ _ A10').
  unfold bind at 1. unfold print at 1. cbv iota beta.
  unfold kinesis_put_record.
  rewrite (lift_run _ _ _ _ (param_str_min1_run _ Hstream)),
    (lift_run _ _ _ _ (param_str_min1_run _ Hcid)).
  unfold record_call. cbn [voiceTaskCache callDetailCache dynamoTable calls stdout].
  rewrite Hw3. cbn [voiceTaskCache callDetailCache dynamoTable calls stdout].
  assert (Hrr : record_reads w1 (si_callId x) = record_reads w (si_callId x))
    by (unfold record_reads; rewrite Hcdc; reflexivity).
  rewrite Hrr. rewrite Hw1. cbn [voiceTaskCache callDetailCache dynamoTable calls stdout].
  rewrite <- !app_assoc. reflexivity.
Qed.

Lemma voice_tone_successful_validated env event detail w w' x :
  voice_tone_successful env event detail w = (Returned tt, w') ->
  reads env event detail w x ->
  KINESIS_STREAM_NAME env <> EmptyString /\ si_callId x <> EmptyString.
Proof.
  intros H Hreads.
  pose proof (voice_tone_successful_inv _ _ _ _ _ H) as (x' & l & Hr' & Hcalls & _ & _).
  rewrite <- (reads_functional _ _ _ _ _ _ Hreads Hr') in Hcalls.
  unfold voice_tone_successful in H.
  do 19 (apply bind_Returned in H; destruct H as (? & ? & _ & H)).
  apply kinesis_put_record_Returned in H as (c & _ & Hc & Hs & Hcalls' & _).
  split; [exact Hs|].
  rewrite Hcalls, app_assoc in Hcalls'. apply app_inj_tail in Hcalls' as [_ Heq].
  inversion Heq; subst. exact Hc.
Qed.

Lemma after_segment_printed env event w x :
  mkWorld (<[si_taskId x := JStr (si_callId x)]> (voiceTaskCache (printed event w)))
          (<[si_callId x := si_callRecord x]> (callDetailCache (printed event w)))
          (dynamoTable (printed event w))
          (calls (printed event w) ++ task_reads (printed event w) (si_taskId x) ++
             record_reads (printed event w) (si_callId x) ++
             [KinesisPutRecord (KINESIS_STREAM_NAME env) (segment_record env x) (si_callId x)])
          (stdout (printed event w) ++ [PrintJson (segment_record env x)])
  = after_segment env event w x.
Proof.
  unfold after_segment, printed, task_reads, record_reads.
  cbn [voiceTaskCache callDetailCache dynamoTable calls stdout].
  rewrite <- app_assoc. reflexivity.
Qed.

Lemma successful_run_iff env event detail w w' :
  successful_event event detail ->
  lambda_handler env event w = (Returned tt, w') <->
  exists x,
    reads env event detail w x /\
    KINESIS_STREAM_NAME env <> EmptyString /\
    si_callId x <> EmptyString /\
    w' = after_segment env event w x.
Proof.
  intros Hev. rewrite (lambda_handler_successful_eq _ _ _ _ Hev). split.
  - intros H.
    pose proof (voice_tone_successful_inv _ _ _ _ _ H) as (x & l & Hr & _).
    destruct (voice_tone_successful_validated _ _ _ _ _ _ H Hr) as [Hs Hc].
    exists x. split; [apply reads_printed; exact Hr|]. split; [exact Hs|]. split; [exact Hc|].
    rewrite (voice_tone_successful_world _ _ _ _ _ Hr Hs Hc) in H.
    inversion H. apply after_segment_printed.
  - intros (x & Hr & Hs & Hc & ->).
    apply reads_printed in Hr.
    rewrite (voice_tone_successful_world _ _ _ _ _ Hr Hs Hc).
    rewrite after_segment_printed. reflexivity.
Qed.

(** X5: a ["VoiceToneAnalysisSuccessful"] event is handled to the end
    exactly when everything the handler reads is there (the task id resolves
    to a call id, the call id to a call record whose call data decode and
    hold a start time that parses, and the event holds [isCaller], a label,
    two times that parse and an [id]) and the stream name and the call id
    are not empty.  The world it leaves is then [after_segment]: the table
    untouched, both look-ups cached, a table read for each look-up the caches
    did not hold, one record put, the event and the record printed. *)
Theorem successful_run_characterised env event detail w w' :
  successful_event event detail ->
  lambda_handler env event w = (Returned tt, w') <->
  exists x,
    reads env event detail w x /\
    KINESIS_STREAM_NAME env <> EmptyString /\
    si_callId x <> EmptyString /\
    w' = after_segment env event w x.
Proof. exact (successful_run_iff env event detail w w'). Qed.


Lemma successful_run_characterised_witness :
  lambda_handler sample_env scenario_event (cold started_world)
    = (Returned tt, snd (lambda_handler sample_env scenario_event (cold started_world))) <->
  exists x,
    reads sample_env scenario_event (detail_of scenario_event) (cold started_world) x /\
    KINESIS_STREAM_NAME sample_env <> EmptyString /\
    si_callId x <> EmptyString /\
    snd (lambda_handler sample_env scenario_event (cold started_world))
      = after_segment sample_env scenario_event (cold started_world) x.
Proof.
  apply (successful_run_characterised sample_env scenario_event (detail_of scenario_event)
           (cold started_world)).
  split; vm_compute; reflexivity.
Defined.





(** X7: a successful event whose task id is in neither the cache nor the
    table makes the handler raise [KeyError] after one table read:
    [KeyError('Item')] when the table has no item for the task,
    [KeyError('CallId')] when it has one without [CallId]; nothing is
    cached, written or put on the stream. *)
Theorem unknown_task_raises env event detail t w :
  successful_event event detail ->
  subscript detail "taskId" = Returned (JStr t) ->
  resolved_callId w t = None ->
  exists key,
    lambda_handler env event w =
    (Raised (KeyError key),
     mkWorld (voiceTaskCache w) (callDetailCache w) (dynamoTable w)
             (calls w ++ [DynamoGetItem ("vta#" +:+ t) "VTA"])
             (stdout w ++ [PrintJson event])) /\
    (key = "Item"%string <-> dynamoTable w !! ("vta#" +:+ t, "VTA"%string) = None) /\
    (key = "CallId"%string <->
     exists it, dynamoTable w !! ("vta#" +:+ t, "VTA"%string) = Some it /\
                it !! "CallId"%string = None) /\
    key = match dynamoTable w !! ("vta#" +:+ t, "VTA"%string) with
          | None => "Item"%string
          | Some _ => "CallId"%string
          end.
Proof.
  intros Hev Ht Hres. rewrite (lambda_handler_successful_eq _ _ _ _ Hev).
  unfold voice_tone_successful. rewrite (lift_run _ _ _ _ Ht).
  unfold resolved_callId in Hres.
  assert (Hmiss : voiceTaskCache (printed event w) !! t = None).
  { cbn [printed voiceTaskCache]. destruct (voiceTaskCache w !! t); [discriminate|reflexivity]. }
  unfold bind at 1. rewrite get_callId_miss by exact Hmiss. cbv zeta.
  cbn [printed voiceTaskCache callDetailCache dynamoTable calls stdout].
  destruct (voiceTaskCache w !! t); [discriminate|].
  destruct (dynamoTable w !! ("vta#" +:+ t, "VTA"%string)) as [it|].
  - simpl in Hres. rewrite Hres. exists "CallId"%string. split; [reflexivity|].
    split; [split; discriminate|]. split; [|reflexivity].
    split; [intros _; exists it; auto|reflexivity].
  - exists "Item"%string. split; [reflexivity|]. split; [split; reflexivity|].
    split; [|reflexivity]. split; [discriminate|intros (it & Hit & _); discriminate].
Qed.

Lemma unknown_task_raises_witness :
  exists key,
    lambda_handler sample_env scenario_event damaged_world =
    (Raised (KeyError key),
     mkWorld (voiceTaskCache damaged_world) (callDetailCache damaged_world)
             (dynamoTable damaged_world)
             (calls damaged_world ++ [DynamoGetItem ("vta#" +:+ "task1") "VTA"])
             (stdout damaged_world ++ [PrintJson scenario_event])) /\
    (key = "Item"%string <->
     dynamoTable damaged_world !! ("vta#" +:+ "task1", "VTA"%string) = None) /\
    (key = "CallId"%string <->
     exists it, dynamoTable damaged_world !! ("vta#" +:+ "task1", "VTA"%string) = Some it /\
                it !! "CallId"%string = None) /\
    key = match dynamoTable damaged_world !! ("vta#" +:+ "task1", "VTA"%string) with
          | None => "Item"%string
          | Some _ => "CallId"%string
          end.
Proof.
  apply (unknown_task_raises sample_env scenario_event (detail_of scenario_event)
           "task1" damaged_world).
  - split; vm_compute; reflexivity.
  - vm_compute. reflexivity.
  - vm_compute. reflexivity.
Defined.

(** X8: when the task id resolves but the table holds no call record for
    the call id, the handler raises [KeyError('Item')] and puts nothing on
    the stream; the call id it found stays cached for the task, the cache
    of call records is as before. *)
Theorem missing_call_record_raises env event detail t c w :
  successful_event event detail ->
  subscript detail "taskId" = Returned (JStr t) ->
  resolved_callId w t = Some (JStr c) ->
  resolved_call_record w c = None ->
  exists w',
    lambda_handler env event w = (Raised (KeyError "Item"), w') /\
    voiceTaskCache w' = <[t := JStr c]> (voiceTaskCache w) /\
    callDetailCache w' = callDetailCache w /\
    dynamoTable w' = dynamoTable w /\
    new_calls w w' = task_reads w t ++ [DynamoGetItem ("cd#" +:+ c) "BOTH"] /\
    emitted w w' = [].
Proof.
  intros Hev Ht Hres Hrec. rewrite (lambda_handler_successful_eq _ _ _ _ Hev).
  unfold voice_tone_successful. rewrite (lift_run _ _ _ _ Ht).
  assert (Hres' : resolved_callId (printed event w) t = Some (JStr c)) by exact Hres.
  destruct (get_callId_run _ _ _ Hres') as (w1 & G1 & Hhit & Hcdc & Htab).
  pose proof (get_callId_world _ _ _ _ G1) as Hw1.
  rewrite (bind_run _ _ _ _ _ G1), (lift_run _ _ _ _ Ht),
    (bind_run _ _ _ _ _ (get_callId_hit _ _ _ Hhit)).
  unfold resolved_call_record in Hrec.
  assert (Hmiss : callDetailCache w1 !! c = None).
  { rewrite Hcdc. cbn [printed callDetailCache].
    destruct (callDetailCache w !! c); [discriminate|reflexivity]. }
  unfold bind at 1. rewrite get_call_record_miss by exact Hmiss.
  rewrite Htab. cbn [printed dynamoTable].
  destruct (callDetailCache w !! c); [discriminate|]. rewrite Hrec.
  eexists. split; [reflexivity|].
  rewrite Hw1. cbn [printed voiceTaskCache callDetailCache dynamoTable calls stdout].
  repeat (split; [reflexivity|]).
  assert (Hn : forall l, calls w ++ l = calls w ++ l) by reflexivity.
  split.
  - apply new_calls_app. cbn [calls]. rewrite <- app_assoc. reflexivity.
  - unfold emitted. erewrite new_calls_app; [|cbn [calls]; rewrite <- app_assoc; reflexivity].
    rewrite kinesis_records_app. unfold task_reads. cbn [printed voiceTaskCache].
    destruct (voiceTaskCache w !! t); reflexivity.
Qed.

Lemma missing_call_record_raises_witness :
  exists w',
    lambda_handler sample_env scenario_event orphan_world = (Raised (KeyError "Item"), w') /\
    voiceTaskCache w' = <["task1"%string := JStr "call1"]> (voiceTaskCache orphan_world) /\
    callDetailCache w' = callDetailCache orphan_world /\
    dynamoTable w' = dynamoTable orphan_world /\
    new_calls orphan_world w'
      = task_reads orphan_world "task1" ++ [DynamoGetItem ("cd#" +:+ "call1") "BOTH"] /\
    emitted orphan_world w' = [].
Proof.
  apply (missing_call_record_raises sample_env scenario_event (detail_of scenario_event)
           "task1" "call1" orphan_world).
  - split; vm_compute; reflexivity.
  - vm_compute. reflexivity.
  - vm_compute. reflexivity.
  - vm_compute. reflexivity.
Defined.

(** ** What reaches the stream *)

(** X9: a run puts at most one record on the stream, and none unless it
    returns and the event reports a successful analysis: a run that raises,
    a start event and an event of any other status put nothing. *)
Theorem at_most_one_record env event w o w' :
  lambda_handler env event w = (o, w') ->
  (length (emitted w w') <= 1)%nat /\
  (emitted w w' <> [] ->
     o = Returned tt /\ exists detail, successful_event event detail).
Proof.
  intros H. apply lambda_handler_emits in H as [E | (detail & x & Ho & Hev & _ & E)];
    rewrite E; split.
  - simpl. lia.
  - intros Hne. contradiction.
  - simpl. lia.
  - intros _. split; [exact Ho|]. exists detail. exact Hev.
Qed.

Lemma at_most_one_record_witness :
  let run := lambda_handler sample_env scenario_event started_world in
  (length (emitted started_world (snd run)) <= 1)%nat /\
  (emitted started_world (snd run) <> [] ->
     fst run = Returned tt /\ exists detail, successful_event scenario_event detail).
Proof.
  intros run.
  apply (at_most_one_record sample_env scenario_event started_world (fst run) (snd run)).
  apply surjective_pairing.
Defined.

(** ** From the start of a call to its segments *)

Lemma chime_start_world env a b c response w w1 :
  chime_start env a b c w = (Returned response, w1) ->
  exists vc tx tk,
    a = JStr vc /\ b = JStr tx /\ c = JStr tk /\
    start_voice_tone_analysis_task env vc tx "en-US" tk = Returned response /\
    w1 = mkWorld (voiceTaskCache w) (callDetailCache w) (dynamoTable w)
                 (calls w ++ [ChimeStartVoiceToneAnalysisTask vc tx "en-US" tk]) (stdout w).
Proof.
  unfold chime_start. intros H.
  pure H vc Hvc. pure H tx Htx. pure H tk Htk.
  step H u w2 Hcall. apply lift_inv in H as [H ->].
  apply param_str_min1_Returned in Hvc as [-> _].
  apply param_str_min1_Returned in Htx as [-> _].
  destruct c; try discriminate Htk. inversion Htk; subst.
  inversion Hcall; subst. exists vc, tx, tk. auto.
Qed.

Lemma analytics_ready_Returned env detail w w1 :
  analytics_ready env detail w = (Returned tt, w1) ->
  exists vc tx c t,
    subscript detail "voiceConnectorId" = Returned (JStr vc) /\
    subscript detail "transactionId" = Returned (JStr tx) /\
    subscript detail "callId" = Returned (JStr c) /\
    obind (start_voice_tone_analysis_task env vc tx "en-US" c) (fun response =>
    obind (subscript response "VoiceToneAnalysisTask") (fun task =>
    subscript task "VoiceToneAnalysisTaskId")) = Returned (JStr t) /\
    w1 = mkWorld (<[t := JStr c]> (voiceTaskCache w)) (callDetailCache w)
                 (<[("vta#" +:+ t, "VTA"%string) := vta_item t (JStr c)]> (dynamoTable w))
                 (calls w ++ [ChimeStartVoiceToneAnalysisTask vc tx "en-US" c;
                              DynamoPutItem (vta_item t (JStr c))])
                 (stdout w ++ [PrintText ("RESPONSE TASK_ID: " +:+ t)]).
Proof.
  unfold analytics_ready. intros H.
  pure H voiceConnectorId Hvc. pure H transactionId Htx. pure H token Htk.
  step H response w2 Hchime.
  pure H task Htask. pure H taskId Hid. pure H msg Hmsg.
  step H u w3 Hprint. pure H callId HcallId.
  apply chime_start_world in Hchime as (vc & tx & tk & -> & -> & -> & Hanswer & ->).
  rewrite Htk in HcallId. inversion HcallId; subst callId.
  destruct taskId as [| | |t| |]; try discriminate Hmsg.
  inversion Hmsg; subst msg.
  inversion Hprint; subst w3 u. rewrite put_voice_task_eq in H. inversion H; subst w1.
  exists vc, tx, tk, t. split; [exact Hvc|]. split; [exact Htx|]. split; [exact Htk|].
  split.
  { rewrite Hanswer. cbn [obind]. rewrite Htask. exact Hid. }
  cbn [voiceTaskCache callDetailCache dynamoTable calls stdout].
  rewrite <- app_assoc. reflexivity.
Qed.

Lemma start_event_facts env event detail w w1 :
  start_event event detail ->
  lambda_handler env event w = (Returned tt, w1) ->
  exists vc tx c t,
    subscript detail "voiceConnectorId" = Returned (JStr vc) /\
    subscript detail "transactionId" = Returned (JStr tx) /\
    subscript detail "callId" = Returned (JStr c) /\
    obind (start_voice_tone_analysis_task env vc tx "en-US" c) (fun response =>
    obind (subscript response "VoiceToneAnalysisTask") (fun task =>
    subscript task "VoiceToneAnalysisTaskId")) = Returned (JStr t) /\
    new_calls w w1 = [ChimeStartVoiceToneAnalysisTask vc tx "en-US" c;
                      DynamoPutItem (vta_item t (JStr c))] /\
    emitted w w1 = [] /\
    callDetailCache w1 = callDetailCache w /\
    resolved_callId w1 t = Some (JStr c) /\
    resolved_callId (cold w1) t = Some (JStr c).
Proof.
  intros Hev H. rewrite (lambda_handler_start_eq _ _ _ _ Hev) in H.
  apply analytics_ready_Returned in H as (vc & tx & c & t & Hvc & Htx & Hc & Hans & ->).
  exists vc, tx, c, t. repeat (split; [assumption|]).
  cbn [printed voiceTaskCache callDetailCache dynamoTable calls stdout].
  assert (Hn : forall l st, new_calls w (mkWorld (<[t := JStr c]> (voiceTaskCache w))
              (callDetailCache w)
              (<[("vta#" +:+ t, "VTA"%string) := vta_item t (JStr c)]> (dynamoTable w))
              (calls w ++ l) st) = l).
  { intros l st. apply new_calls_app. reflexivity. }
  split; [apply Hn|]. split; [unfold emitted; rewrite Hn; reflexivity|].
  split; [reflexivity|].
  unfold resolved_callId, cold; cbn [voiceTaskCache dynamoTable].
  rewrite lookup_insert_eq, lookup_empty, lookup_insert_eq. cbn. rewrite vta_item_CallId. auto.
Qed.

(** X10: a start event that is handled makes one start request to Chime,
    for the connector and the transaction of the event, in ["en-US"] and
    with the call id as request token, then one [put_item]; it puts nothing
    on the stream, and the task id the service answered with resolves to
    the call id from then on, from the cache and from the table. *)
Theorem start_event_is_recorded env event detail w w1 :
  start_event event detail ->
  lambda_handler env event w = (Returned tt, w1) ->
  exists vc tx c t,
    subscript detail "voiceConnectorId" = Returned (JStr vc) /\
    subscript detail "transactionId" = Returned (JStr tx) /\
    subscript detail "callId" = Returned (JStr c) /\
    obind (start_voice_tone_analysis_task env vc tx "en-US" c) (fun response =>
    obind (subscript response "VoiceToneAnalysisTask") (fun task =>
    subscript task "VoiceToneAnalysisTaskId")) = Returned (JStr t) /\
    new_calls w w1 = [ChimeStartVoiceToneAnalysisTask vc tx "en-US" c;
                      DynamoPutItem (vta_item t (JStr c))] /\
    emitted w w1 = [] /\
    callDetailCache w1 = callDetailCache w /\
    resolved_callId w1 t = Some (JStr c) /\
    resolved_callId (cold w1) t = Some (JStr c).
Proof. exact (start_event_facts env event detail w w1). Qed.


Lemma start_event_is_recorded_witness :
  exists vc tx c t,
    subscript (detail_of ready_event) "voiceConnectorId" = Returned (JStr vc) /\
    subscript (detail_of ready_event) "transactionId" = Returned (JStr tx) /\
    subscript (detail_of ready_event) "callId" = Returned (JStr c) /\
    obind (start_voice_tone_analysis_task sample_env vc tx "en-US" c) (fun response =>
    obind (subscript response "VoiceToneAnalysisTask") (fun task =>
    subscript task "VoiceToneAnalysisTaskId")) = Returned (JStr t) /\
    new_calls sample_world started_world
      = [ChimeStartVoiceToneAnalysisTask vc tx "en-US" c;
         DynamoPutItem (vta_item t (JStr c))] /\
    emitted sample_world started_world = [] /\
    callDetailCache started_world = callDetailCache sample_world /\
    resolved_callId started_world t = Some (JStr c) /\
    resolved_callId (cold started_world) t = Some (JStr c).
Proof.
  apply (start_event_is_recorded sample_env ready_event (detail_of ready_event)
           sample_world started_world).
  - split; vm_compute; reflexivity.
  - vm_compute. reflexivity.
Defined.

(** *** What a task id stands for, along later runs *)

Lemma keeps_task_trans t c w1 w2 w3 :
  keeps_task t c w1 w2 -> keeps_task t c w2 w3 -> keeps_task t c w1 w3.
Proof.
  intros (l1 & E1 & H1) (l2 & E2 & H2). exists (l1 ++ l2). split.
  - rewrite E2, E1, app_assoc. reflexivity.
  - intros HF Hr. apply Forall_app in HF as [F1 F2]. auto.
Qed.

Lemma registered_same t c w w' :
  voiceTaskCache w' = voiceTaskCache w -> dynamoTable w' = dynamoTable w ->
  registered t c w -> registered t c w'.
Proof. intros Hv Ht [H1 H2]. unfold registered. rewrite Hv, Ht. auto. Qed.

Lemma keeps_task_same t c w w' l :
  voiceTaskCache w' = voiceTaskCache w -> dynamoTable w' = dynamoTable w ->
  calls w' = calls w ++ l -> keeps_task t c w w'.
Proof.
  intros Hv Ht Hc. exists l. split; [exact Hc|]. intros _. apply registered_same; assumption.
Qed.

Lemma keeps_task_same_state t c w w' : same_state w w' -> keeps_task t c w w'.
Proof.
  intros (Hv & _ & Ht & Hc). apply (keeps_task_same t c w w' []); [assumption..|].
  rewrite app_nil_r. exact Hc.
Qed.

Lemma keeps_lift t c {A} (x : outcome A) : steps_within (keeps_task t c) (lift x).
Proof. intros w o w' E. apply keeps_task_same_state. eapply same_state_lift; eauto. Qed.

Lemma keeps_ret t c {A} (a : A) : steps_within (keeps_task t c) (ret a).
Proof. intros w o w' E. apply keeps_task_same_state. eapply same_state_ret; eauto. Qed.

Lemma keeps_print t c l : steps_within (keeps_task t c) (print l).
Proof. intros w o w' E. apply keeps_task_same_state. eapply same_state_print; eauto. Qed.

Lemma keeps_get_callId t c v : steps_within (keeps_task t c) (get_callId_for_voiceTask v).
Proof.
  intros w o w' E. destruct v as [| | |t'| |];
    try solve [apply keeps_task_same_state; inversion E; repeat split].
  destruct (voiceTaskCache w !! t') as [c0|] eqn:Hc.
  - rewrite (get_callId_hit t' c0) in E by exact Hc. inversion E; subst.
    apply keeps_task_same_state. repeat split.
  - rewrite get_callId_miss in E by exact Hc. cbv zeta in E.
    destruct (dynamoTable w !! ("vta#" +:+ t', "VTA"%string)) as [it|] eqn:Ht;
      [destruct (it !! "CallId"%string) as [c1|] eqn:Hi|];
      inversion E; subst;
      try solve [eapply keeps_task_same; cbn [voiceTaskCache dynamoTable calls]; reflexivity].
    eexists. split; [cbn [calls]; reflexivity|]. intros _ [(it0 & Hit0 & Hc0) Hcache].
    split; cbn [voiceTaskCache dynamoTable].
    + eauto.
    + intros v Hl. destruct (decide (t' = t)) as [->|Hne].
      * rewrite lookup_insert_eq in Hl. inversion Hl; subst.
        rewrite Hit0 in Ht. inversion Ht; subst. congruence.
      * rewrite lookup_insert_ne in Hl by exact Hne. auto.
Qed.

Lemma keeps_get_call_record t c v : steps_within (keeps_task t c) (get_call_record v).
Proof.
  intros w o w' E. destruct v as [| | |c'| |];
    try solve [apply keeps_task_same_state; inversion E; repeat split].
  destruct (callDetailCache w !! c') as [r0|] eqn:Hc.
  - rewrite (get_call_record_hit c' r0) in E by exact Hc. inversion E; subst.
    apply keeps_task_same_state. repeat split.
  - rewrite get_call_record_miss in E by exact Hc.
    destruct (dynamoTable w !! ("cd#" +:+ c', "BOTH"%string)) as [it|] eqn:Ht;
      inversion E; subst;
      eapply keeps_task_same; cbn [voiceTaskCache dynamoTable calls]; reflexivity.
Qed.

Lemma vta_item_PK t callId : vta_item t callId !! "PK"%string = Some (JStr ("vta#" +:+ t)).
Proof. unfold vta_item. by simplify_map_eq. Qed.

Lemma keeps_put_voice_task t c v callId :
  steps_within (keeps_task t c) (put_voice_task v callId).
Proof.
  intros w o w' E. destruct v as [| | |t'| |];
    try solve [apply keeps_task_same_state; inversion E; repeat split].
  rewrite put_voice_task_eq in E. inversion E; subst.
  eexists. split; [cbn [calls]; reflexivity|]. intros HF [Htab Hcache].
  apply Forall_cons in HF as [Hput _]. cbn [puts_task] in Hput.
  rewrite vta_item_PK in Hput.
  assert (Hne : t' <> t) by (intros ->; apply Hput; reflexivity).
  split; cbn [voiceTaskCache dynamoTable].
  - rewrite lookup_insert_ne; [exact Htab|].
    intros Hk. apply Hne, vta_key_inj. exact (f_equal fst Hk).
  - intros v Hl. rewrite lookup_insert_ne in Hl by exact Hne. auto.
Qed.

Lemma keeps_chime_start t c env a b d : steps_within (keeps_task t c) (chime_start env a b d).
Proof.
  intros w o w' E. apply same_state_chime_start in E as (Hv & _ & Ht & l & Hl & _).
  eapply keeps_task_same; eassumption.
Qed.

Lemma keeps_kinesis t c env putObj callId :
  steps_within (keeps_task t c) (kinesis_put_record env putObj callId).
Proof.
  intros w o w' E. apply same_caches_kinesis in E as (Hv & _ & Ht & l & Hl & _).
  eapply keeps_task_same; eassumption.
Qed.

Create HintDb keeps.
#[local] Hint Resolve keeps_lift keeps_ret keeps_print keeps_get_callId keeps_get_call_record
  keeps_put_voice_task keeps_chime_start keeps_kinesis : keeps.

Lemma keeps_lambda_handler t c env event :
  steps_within (keeps_task t c) (lambda_handler env event).
Proof.
  unfold lambda_handler, analytics_ready, voice_tone_successful.
  repeat first
    [ solve [auto with keeps]
    | apply steps_within_if
    | apply steps_within_bind; [exact (keeps_task_trans t c)| |intros ?] ].
Qed.

Lemma registered_later t c w w' : later t w w' -> registered t c w -> registered t c w'.
Proof.
  induction 1 as [w|w w1 env event o w2 _ IH Hrun HF|w w1 _ IH|w w1 tbl _ IH Htbl];
    intros Hr.
  - exact Hr.
  - destruct (keeps_lambda_handler t c env event _ _ _ Hrun) as (l & Hl & Hk).
    rewrite (new_calls_app _ _ _ Hl) in HF. auto.
  - destruct (IH Hr) as [Htab _]. split; [exact Htab|].
    intros v Hl. cbn [cold voiceTaskCache] in Hl. rewrite lookup_empty in Hl. discriminate.
  - destruct (IH Hr) as [Htab Hcache]. split; cbn [with_table voiceTaskCache dynamoTable].
    + rewrite Htbl. exact Htab.
    + exact Hcache.
Qed.

Lemma registered_resolved t c w : registered t c w -> resolved_callId w t = Some (JStr c).
Proof.
  intros [(it & Hit & Hc) Hcache]. unfold resolved_callId.
  destruct (voiceTaskCache w !! t) as [v|] eqn:E.
  - rewrite (Hcache v eq_refl). reflexivity.
  - rewrite Hit. cbn. exact Hc.
Qed.

(** X11: after a start event is handled, every record that a successful
    event for the answered task id puts on the stream carries the call id
    of the start event, as [CallId] and as partition key, however many
    events the handler has been run on in between, in the same execution
    environment or in a fresh one, and whatever other items of the table
    were written, as long as no run wrote the item of that task id again
    (the service answers every start request with a task id of its own). *)
Theorem segments_carry_the_call_of_their_start
    env event detail w w1 vc tx c t env2 event2 detail2 o w2 w3 s d k :
  start_event event detail ->
  subscript detail "voiceConnectorId" = Returned (JStr vc) ->
  subscript detail "transactionId" = Returned (JStr tx) ->
  subscript detail "callId" = Returned (JStr c) ->
  obind (start_voice_tone_analysis_task env vc tx "en-US" c) (fun response =>
  obind (subscript response "VoiceToneAnalysisTask") (fun task =>
  subscript task "VoiceToneAnalysisTaskId")) = Returned (JStr t) ->
  lambda_handler env event w = (Returned tt, w1) ->
  later t w1 w2 ->
  successful_event event2 detail2 ->
  subscript detail2 "taskId" = Returned (JStr t) ->
  lambda_handler env2 event2 w2 = (o, w3) ->
  In (s, d, k) (emitted w2 w3) ->
  k = c /\ field "CallId" d = Some (JStr c).
Proof.
  intros Hev Hvc Htx Hc Hans H Hw Hev2 Htask H2 Hin.
  destruct (start_event_facts _ _ _ _ _ Hev H)
    as (vc' & tx' & c' & t' & Hvc' & Htx' & Hc' & Hans' & _ & _ & _ & Hres & Hcold).
  rewrite Hvc in Hvc'. rewrite Htx in Htx'. rewrite Hc in Hc'.
  inversion Hvc'; inversion Htx'; inversion Hc'; subst vc' tx' c'.
  rewrite Hans in Hans'. inversion Hans'; subst t'.
  assert (Hreg : registered t c w1).
  { split.
    - unfold resolved_callId, cold in Hcold. cbn [voiceTaskCache dynamoTable] in Hcold.
      rewrite lookup_empty in Hcold.
      destruct (dynamoTable w1 !! ("vta#" +:+ t, "VTA"%string)) as [it|]; [|discriminate].
      exists it. split; [reflexivity|exact Hcold].
    - intros v Hv. unfold resolved_callId in Hres. rewrite Hv in Hres. congruence. }
  pose proof (registered_resolved _ _ _ (registered_later _ _ _ _ Hw Hreg)) as Hres2.
  destruct (emitted_record _ _ _ _ _ _ _ _ H2 Hin)
    as (detail2' & x & _ & Hev2' & Hr & _ & -> & ->).
  assert (detail2' = detail2) as ->.
  { destruct Hev2 as [A _], Hev2' as [B _]. congruence. }
  destruct Hr as (A1 & A2 & _).
  rewrite Htask in A1. inversion A1 as [Ht].
  assert (Hk : Some (JStr (si_callId x)) = Some (JStr c)).
  { rewrite <- A2, <- Ht. exact Hres2. }
  inversion Hk. split; reflexivity.
Qed.

Ltac no_put_of_task :=
  match goal with
  | |- Forall ?P ?l => let l' := eval vm_compute in l in change (Forall P l')
  end;
  repeat first [apply List.Forall_nil | apply List.Forall_cons];
  cbn [puts_task]; intros H; vm_compute in H; first [discriminate H | destruct H].

Lemma busy_world_later : later "task1" started_world busy_world.
Proof.
  apply later_cold.
  eapply (later_run "task1" started_world _ other_env other_ready_event);
    [|apply surjective_pairing|].
  - eapply (later_run "task1" started_world started_world sample_env early_event);
      [apply later_now|apply surjective_pairing|].
    no_put_of_task.
  - no_put_of_task.
Qed.

Lemma segments_carry_the_call_of_their_start_witness :
  let run := lambda_handler sample_env scenario_event busy_world in
  let r := hd (EmptyString, JNull, EmptyString) (emitted busy_world (snd run)) in
  snd r = "call1"%string /\ field "CallId" (snd (fst r)) = Some (JStr "call1").
Proof.
  intros run r.
  apply (segments_carry_the_call_of_their_start
           sample_env ready_event (detail_of ready_event) sample_world started_world
           "vc1" "tx1" "call1" "task1"
           sample_env scenario_event (detail_of scenario_event) (fst run)
           busy_world (snd run)
           (fst (fst r)) (snd (fst r)) (snd r)).
  - split; vm_compute; reflexivity.
  - vm_compute. reflexivity.
  - vm_compute. reflexivity.
  - vm_compute. reflexivity.
  - vm_compute. reflexivity.
  - vm_compute. reflexivity.
  - exact busy_world_later.
  - split; vm_compute; reflexivity.
  - vm_compute. reflexivity.
  - apply surjective_pairing.
  - vm_compute. left. reflexivity.
Defined.

(** ** Writing a mapping twice *)

(** X12: of two [put_voice_task] for one task id the second wins, and a
    put for another task id leaves the first mapping alone; both as the
    cache answers and as the table answers a fresh execution environment. *)
Theorem last_put_wins (t t' c c' : string) (w : World) :
  let w2 := snd (put_voice_task (JStr t') (JStr c')
                   (snd (put_voice_task (JStr t) (JStr c) w))) in
  let expected := JStr (if String.eqb t t' then c' else c) in
  fst (get_callId_for_voiceTask (JStr t) w2) = Returned expected /\
  fst (get_callId_for_voiceTask (JStr t) (cold w2)) = Returned expected.
Proof.
  rewrite !put_voice_task_eq. cbn [snd voiceTaskCache callDetailCache dynamoTable calls stdout].
  destruct (String.eqb_spec t t') as [<-|Hne]; cbv zeta.
  - split.
    + rewrite (get_callId_hit t (JStr c')) by (cbn; apply lookup_insert_eq). reflexivity.
    + rewrite get_callId_miss by (cbn; apply lookup_empty).
      cbn [cold dynamoTable calls]. rewrite lookup_insert_eq, vta_item_CallId. reflexivity.
  - assert (Hk : ("vta#" +:+ t', "VTA"%string) <> ("vta#" +:+ t, "VTA"%string)).
    { intros Hk. apply Hne. symmetry. apply vta_key_inj. exact (f_equal fst Hk). }
    split.
    + rewrite (get_callId_hit t (JStr c)); [reflexivity|].
      cbn. rewrite lookup_insert_ne by congruence. apply lookup_insert_eq.
    + rewrite get_callId_miss by (cbn; apply lookup_empty).
      cbn [cold dynamoTable calls].
      rewrite lookup_insert_ne by exact Hk. rewrite lookup_insert_eq, vta_item_CallId.
      reflexivity.
Qed.

(** ** The caches do not show *)

Lemma cache_blind_bind {A B} (m : M A) (f : A -> M B) :
  cache_blind m -> (forall a, cache_blind (f a)) -> cache_blind (bind m f).
Proof.
  intros Hm Hf w1 w2 Ha. destruct (Hm _ _ Ha) as [Ho Ha']. unfold bind.
  destruct (m w1) as [[a1|e1] v1], (m w2) as [[a2|e2] v2]; cbn [fst snd] in *;
    try discriminate Ho.
  - inversion Ho; subst. apply Hf. exact Ha'.
  - inversion Ho; subst. auto.
Qed.

Lemma alike_same w1 w2 v1 v2 :
  alike w1 w2 ->
  same_state w1 v1 -> same_state w2 v2 -> stdout v1 = stdout v2 ->
  alike v1 v2.
Proof.
  intros (Ht & C1 & C2 & Hs & _) S1 S2 Ho.
  pose proof (coherent_same_state _ _ S1 C1). pose proof (coherent_same_state _ _ S2 C2).
  destruct S1 as (_ & _ & T1 & K1), S2 as (_ & _ & T2 & K2).
  unfold alike, stream_of. rewrite T1, T2, K1, K2. auto.
Qed.

Lemma cache_blind_lift {A} (x : outcome A) : cache_blind (lift x).
Proof. intros w1 w2 Ha. split; [reflexivity|exact Ha]. Qed.

Lemma cache_blind_ret {A} (a : A) : cache_blind (ret a).
Proof. intros w1 w2 Ha. split; [reflexivity|exact Ha]. Qed.

Lemma cache_blind_print l : cache_blind (print l).
Proof.
  intros w1 w2 Ha. split; [reflexivity|].
  apply (alike_same w1 w2); [exact Ha|repeat split|repeat split|].
  cbn. destruct Ha as (_ & _ & _ & _ & ->). reflexivity.
Qed.

Lemma cache_blind_if {A} (b : bool) (m1 m2 : M A) :
  cache_blind m1 -> cache_blind m2 -> cache_blind (if b then m1 else m2).
Proof. destruct b; auto. Qed.

(** On caches that agree with the table a look-up answers as the table
    does. *)
Lemma get_callId_outcome t w :
  coherent w ->
  fst (get_callId_for_voiceTask (JStr t) w) = table_callId (dynamoTable w) t.
Proof.
  intros [H1 _]. unfold table_callId.
  destruct (voiceTaskCache w !! t) as [c|] eqn:E.
  - rewrite (get_callId_hit t c) by exact E.
    destruct (H1 _ _ E) as (it & -> & ->). reflexivity.
  - rewrite get_callId_miss by exact E. cbv zeta.
    destruct (dynamoTable w !! _) as [it|]; [destruct (it !! _)|]; reflexivity.
Qed.

Lemma get_call_record_outcome c w :
  coherent w ->
  fst (get_call_record (JStr c) w) = table_call_record (dynamoTable w) c.
Proof.
  intros [_ H2]. unfold table_call_record.
  destruct (callDetailCache w !! c) as [rec|] eqn:E.
  - rewrite (get_call_record_hit c rec) by exact E. rewrite (H2 _ _ E). reflexivity.
  - rewrite get_call_record_miss by exact E.
    destruct (dynamoTable w !! _) as [it|]; reflexivity.
Qed.

(** A step that makes no print and puts nothing on the stream. *)
Lemma silent_get_callId v w :
  dynamoTable (snd (get_callId_for_voiceTask v w)) = dynamoTable w /\
  stdout (snd (get_callId_for_voiceTask v w)) = stdout w /\
  stream_of (snd (get_callId_for_voiceTask v w)) = stream_of w.
Proof.
  destruct (get_callId_for_voiceTask v w) as [o w'] eqn:E. cbn [snd].
  destruct (quiet_get_callId_for_voiceTask v _ _ _ E) as (l & Hc & Hk).
  destruct (reads_only_get_callId v _ _ _ E) as (Ht & _).
  split; [exact Ht|]. split.
  - destruct v as [| | |t| |]; try (inversion E; reflexivity).
    destruct (voiceTaskCache w !! t) as [c0|] eqn:Hh.
    + rewrite (get_callId_hit t c0) in E by exact Hh. inversion E. reflexivity.
    + rewrite get_callId_miss in E by exact Hh. cbv zeta in E.
      destruct (dynamoTable w !! _) as [it|]; [destruct (it !! _)|]; inversion E; reflexivity.
  - unfold stream_of. rewrite Hc, kinesis_records_app, Hk, app_nil_r. reflexivity.
Qed.

Lemma silent_get_call_record v w :
  dynamoTable (snd (get_call_record v w)) = dynamoTable w /\
  stdout (snd (get_call_record v w)) = stdout w /\
  stream_of (snd (get_call_record v w)) = stream_of w.
Proof.
  destruct (get_call_record v w) as [o w'] eqn:E. cbn [snd].
  destruct (quiet_get_call_record v _ _ _ E) as (l & Hc & Hk).
  destruct (reads_only_get_call_record v _ _ _ E) as (Ht & _).
  split; [exact Ht|]. split.
  - destruct v as [| | |c| |]; try (inversion E; reflexivity).
    destruct (callDetailCache w !! c) as [r0|] eqn:Hh.
    + rewrite (get_call_record_hit c r0) in E by exact Hh. inversion E. reflexivity.
    + rewrite get_call_record_miss in E by exact Hh.
      destruct (dynamoTable w !! _) as [it|]; inversion E; reflexivity.
  - unfold stream_of. rewrite Hc, kinesis_records_app, Hk, app_nil_r. reflexivity.
Qed.

Lemma coherent_after {A} (m : M A) w :
  steps_within grows m -> coherent w -> coherent (snd (m w)).
Proof.
  intros Hg Hc. destruct (m w) as [o w'] eqn:E. destruct (Hg _ _ _ E) as (_ & _ & Hk). auto.
Qed.

Lemma cache_blind_get_callId v : cache_blind (get_callId_for_voiceTask v).
Proof.
  intros w1 w2 (Ht & C1 & C2 & Hs & Ho). split.
  - destruct v as [| | |t| |]; try reflexivity.
    rewrite !get_callId_outcome by assumption. rewrite Ht. reflexivity.
  - destruct (silent_get_callId v w1) as (T1 & O1 & S1).
    destruct (silent_get_callId v w2) as (T2 & O2 & S2).
    unfold alike. rewrite T1, T2, O1, O2, S1, S2.
    repeat split; try assumption; apply coherent_after; auto using grows_get_callId.
Qed.

Lemma cache_blind_get_call_record v : cache_blind (get_call_record v).
Proof.
  intros w1 w2 (Ht & C1 & C2 & Hs & Ho). split.
  - destruct v as [| | |c| |]; try reflexivity.
    rewrite !get_call_record_outcome by assumption. rewrite Ht. reflexivity.
  - destruct (silent_get_call_record v w1) as (T1 & O1 & S1).
    destruct (silent_get_call_record v w2) as (T2 & O2 & S2).
    unfold alike. rewrite T1, T2, O1, O2, S1, S2.
    repeat split; try assumption; apply coherent_after; auto using grows_get_call_record.
Qed.

Lemma cache_blind_put_voice_task v c : cache_blind (put_voice_task v c).
Proof.
  intros w1 w2 Ha. pose proof Ha as (Ht & C1 & C2 & Hs & Ho).
  destruct v as [| | |t| |]; try (split; [reflexivity|exact Ha]).
  split; [reflexivity|].
  pose proof (coherent_after (put_voice_task (JStr t) c) w1 (grows_put_voice_task _ _) C1) as D1.
  pose proof (coherent_after (put_voice_task (JStr t) c) w2 (grows_put_voice_task _ _) C2) as D2.
  rewrite !put_voice_task_eq in *. cbn [snd] in *.
  unfold alike, stream_of. cbn [dynamoTable calls stdout].
  split; [rewrite Ht; reflexivity|]. split; [exact D1|]. split; [exact D2|].
  split; [rewrite !kinesis_records_app; unfold stream_of in Hs; rewrite Hs; reflexivity|exact Ho].
Qed.

Lemma cache_blind_chime_start env a b c : cache_blind (chime_start env a b c).
Proof.
  intros w1 w2 Ha. pose proof Ha as (Ht & C1 & C2 & Hs & Ho).
  pose proof (coherent_after (chime_start env a b c) w1 (grows_chime_start _ _ _ _) C1) as D1.
  pose proof (coherent_after (chime_start env a b c) w2 (grows_chime_start _ _ _ _) C2) as D2.
  revert D1 D2. unfold chime_start, bind, lift, record_call.
  destruct (param_str_min1 a) as [vc|e1]; [|intros; split; [reflexivity|exact Ha]].
  destruct (param_str_min1 b) as [tx|e2]; [|intros; split; [reflexivity|exact Ha]].
  destruct (param_str c) as [tk|e3]; [|intros; split; [reflexivity|exact Ha]].
  cbn [fst snd]. intros D1 D2. split; [reflexivity|].
  unfold alike, stream_of. cbn [dynamoTable calls stdout].
  split; [rewrite Ht; reflexivity|]. split; [exact D1|]. split; [exact D2|].
  split; [rewrite !kinesis_records_app; unfold stream_of in Hs; rewrite Hs; reflexivity|exact Ho].
Qed.

Lemma cache_blind_kinesis env putObj callId : cache_blind (kinesis_put_record env putObj callId).
Proof.
  intros w1 w2 Ha. pose proof Ha as (Ht & C1 & C2 & Hs & Ho).
  pose proof (coherent_after (kinesis_put_record env putObj callId) w1 (grows_kinesis _ _ _) C1)
    as D1.
  pose proof (coherent_after (kinesis_put_record env putObj callId) w2 (grows_kinesis _ _ _) C2)
    as D2.
  revert D1 D2. unfold kinesis_put_record, bind, lift, record_call.
  destruct (param_str_min1 (JStr (KINESIS_STREAM_NAME env))) as [sn|e1];
    [|intros; split; [reflexivity|exact Ha]].
  destruct (param_str_min1 callId) as [pk|e2]; [|intros; split; [reflexivity|exact Ha]].
  cbn [fst snd]. intros D1 D2. split; [reflexivity|].
  unfold alike, stream_of. cbn [dynamoTable calls stdout].
  split; [rewrite Ht; reflexivity|]. split; [exact D1|]. split; [exact D2|].
  split; [rewrite !kinesis_records_app; unfold stream_of in Hs; rewrite Hs; reflexivity|exact Ho].
Qed.

Create HintDb cache_blind.
#[local] Hint Resolve cache_blind_lift cache_blind_ret cache_blind_print
  cache_blind_get_callId cache_blind_get_call_record cache_blind_put_voice_task
  cache_blind_chime_start cache_blind_kinesis : cache_blind.

Lemma cache_blind_lambda_handler env event : cache_blind (lambda_handler env event).
Proof.
  unfold lambda_handler, analytics_ready, voice_tone_successful.
  repeat first
    [ solve [auto with cache_blind]
    | apply cache_blind_if
    | apply cache_blind_bind; [|intros ?] ].
Qed.

Lemma extends_trans w1 w2 w3 : extends w1 w2 -> extends w2 w3 -> extends w1 w3.
Proof.
  intros [l1 H1] [l2 H2]. exists (l1 ++ l2). rewrite H2, H1, app_assoc. reflexivity.
Qed.

Lemma extends_quiet {A} (m : M A) : quiet m -> steps_within extends m.
Proof. intros Hq w o w' E. destruct (Hq _ _ _ E) as (l & Hl & _). exists l. exact Hl. Qed.

Lemma extends_kinesis env putObj callId :
  steps_within extends (kinesis_put_record env putObj callId).
Proof.
  intros w o w' E. apply same_caches_kinesis in E as (_ & _ & _ & l & Hl & _).
  exists l. exact Hl.
Qed.

Lemma extends_lambda_handler env event : steps_within extends (lambda_handler env event).
Proof.
  unfold lambda_handler, analytics_ready, voice_tone_successful.
  repeat first
    [ apply extends_kinesis
    | apply extends_quiet; solve [auto with quiet]
    | apply steps_within_if
    | apply steps_within_bind; [exact extends_trans| |intros ?] ].
Qed.

Lemma stream_of_emitted env event w o w' :
  lambda_handler env event w = (o, w') -> stream_of w' = stream_of w ++ emitted w w'.
Proof.
  intros H. destruct (extends_lambda_handler _ _ _ _ _ H) as [l Hl].
  unfold stream_of, emitted. rewrite (new_calls_app _ _ _ Hl), Hl.
  apply kinesis_records_app.
Qed.

(** X13: the caches do not show in what a run does.  Over the same table,
    an execution environment whose caches agree with the table and any
    other one whose caches agree with it too (a fresh one, say) have the
    same outcome on every event, put the same records on the stream, print
    the same lines and leave the same table. *)
Theorem caches_do_not_show env event w vtc cdc :
  let w2 := mkWorld vtc cdc (dynamoTable w) (calls w) (stdout w) in
  coherent w ->
  coherent w2 ->
  fst (lambda_handler env event w) = fst (lambda_handler env event w2) /\
  emitted w (snd (lambda_handler env event w))
    = emitted w2 (snd (lambda_handler env event w2)) /\
  stdout (snd (lambda_handler env event w)) = stdout (snd (lambda_handler env event w2)) /\
  dynamoTable (snd (lambda_handler env event w))
    = dynamoTable (snd (lambda_handler env event w2)).
Proof.
  intros w2 C1 C2.
  assert (Ha : alike w w2).
  { split; [reflexivity|]. split; [exact C1|]. split; [exact C2|]. split; reflexivity. }
  destruct (cache_blind_lambda_handler env event _ _ Ha) as (Ho & Ht & _ & _ & Hs & Hout).
  split; [exact Ho|]. split; [|split; assumption].
  pose proof (stream_of_emitted env event w _ _ (surjective_pairing _)) as E1.
  pose proof (stream_of_emitted env event w2 _ _ (surjective_pairing _)) as E2.
  rewrite E1, E2 in Hs. change (stream_of w2) with (stream_of w) in Hs.
  apply app_inv_head in Hs. exact Hs.
Qed.

Lemma coherent_cold w : coherent (cold w).
Proof. split; cbn [cold voiceTaskCache callDetailCache]; intros ? ? Hl;
  rewrite lookup_empty in Hl; discriminate Hl. Qed.

Lemma coherent_started_world : coherent started_world.
Proof.
  destruct (grows_lambda_handler sample_env ready_event sample_world _ _
              (surjective_pairing _)) as (_ & _ & Hk).
  apply Hk. split; cbn [sample_world voiceTaskCache callDetailCache]; intros ? ? Hl;
    rewrite lookup_empty in Hl; discriminate Hl.
Qed.

Lemma caches_do_not_show_witness :
  let w2 := mkWorld ∅ ∅ (dynamoTable started_world) (calls started_world)
                    (stdout started_world) in
  fst (lambda_handler sample_env scenario_event started_world)
    = fst (lambda_handler sample_env scenario_event w2) /\
  emitted started_world (snd (lambda_handler sample_env scenario_event started_world))
    = emitted w2 (snd (lambda_handler sample_env scenario_event w2)) /\
  stdout (snd (lambda_handler sample_env scenario_event started_world))
    = stdout (snd (lambda_handler sample_env scenario_event w2)) /\
  dynamoTable (snd (lambda_handler sample_env scenario_event started_world))
    = dynamoTable (snd (lambda_handler sample_env scenario_event w2)).
Proof.
  apply (caches_do_not_show sample_env scenario_event started_world ∅ ∅).
  - exact coherent_started_world.
  - exact (coherent_cold started_world).
Defined.

(** ** Times that do not parse *)

Lemma occurs_match_seq c p s m rest :
  match_seq p s = Some (m, rest) -> occurs c rest -> occurs c s.
Proof.
  revert s m rest. induction p as [|k p IH]; intros s m rest H Ho.
  - inversion H; subst. exact Ho.
  - destruct s as [|a r]; [discriminate H|]. simpl in H.
    destruct (in_cls a k); [|discriminate H].
    destruct (match_seq p r) as [[m' rest']|] eqn:E; [|discriminate H].
    inversion H; subst. right. eapply IH; eauto.
Qed.

Lemma occurs_match_alt c alts s m rest :
  match_alt alts s = Some (m, rest) -> occurs c rest -> occurs c s.
Proof.
  induction alts as [|p alts IH]; intros H Ho; [discriminate H|]. simpl in H.
  destruct (match_seq p s) as [[m' rest']|] eqn:E.
  - inversion H; subst. eapply occurs_match_seq; eauto.
  - auto.
Qed.

Lemma occurs_group c alts s v rest :
  group alts s = Some (v, rest) -> occurs c rest -> occurs c s.
Proof.
  unfold group. destruct (match_alt alts s) as [[m r]|] eqn:E; [|discriminate].
  intros H Ho. inversion H; subst. eapply occurs_match_alt; eauto.
Qed.

Lemma occurs_match_lit c l s rest :
  match_lit l s = Some rest -> occurs c rest -> occurs c s.
Proof.
  destruct s as [|a r]; [discriminate|]. simpl.
  destruct (Ascii.eqb _ _); [|discriminate]. intros H Ho. inversion H; subst. right. exact Ho.
Qed.

Lemma match_lit_dot s rest : match_lit "." s = Some rest -> occurs "." s.
Proof.
  destruct s as [|a r]; [discriminate|]. simpl.
  destruct (Ascii.eqb (upper_ascii a) (upper_ascii ".")) eqn:E; [|discriminate].
  intros _. left. apply Ascii.eqb_eq in E. revert E.
  destruct a as [[] [] [] [] [] [] [] []]; vm_compute; intros E; try discriminate E; reflexivity.
Qed.

(** X14: a time without a fraction of a second does not parse: a text
    with no ["."] in it makes [strptime] raise [ValueError]. *)
Theorem strptime_needs_fraction (s : string) :
  ~ occurs "." s -> strptime (JStr s) = Raised ValueError.
Proof.
  intros Hno. cbn [strptime]. unfold strptime_str.
  destruct (parse_fields s) as [d|] eqn:E; [|reflexivity]. exfalso. apply Hno.
  unfold parse_fields in E.
  repeat match type of E with
         | (mbind _ ?o) = Some _ =>
             let H := fresh "Hp" in
             destruct o as [?|] eqn:H; [cbn [mbind option_bind] in E|discriminate E]
         | (let '(_, _) := ?p in _) = Some _ => destruct p
         | match ?p with (_, _) => _ end = Some _ => destruct p
         end.
  apply match_lit_dot in Hp10.
  eapply occurs_group; [exact Hp|].
  eapply occurs_match_lit; [exact Hp0|].
  eapply occurs_group; [exact Hp1|].
  eapply occurs_match_lit; [exact Hp2|].
  eapply occurs_group; [exact Hp3|].
  eapply occurs_match_lit; [exact Hp4|].
  eapply occurs_group; [exact Hp5|].
  eapply occurs_match_lit; [exact Hp6|].
  eapply occurs_group; [exact Hp7|].
  eapply occurs_match_lit; [exact Hp8|].
  eapply occurs_group; [exact Hp9|].
  exact Hp10.
Qed.

Lemma strptime_needs_fraction_witness :
  strptime (JStr "2024-01-01T00:00:10Z") = Raised ValueError.
Proof.
  apply (strptime_needs_fraction "2024-01-01T00:00:10Z").
  simpl. intros H. repeat (destruct H as [H|H]; [discriminate H|]). exact H.
Defined.

(** X15: the start time of the segment must parse although no offset is
    computed from it: on a successful event whose [startTime] makes
    [strptime] raise, the handler raises and puts nothing on the stream. *)
Theorem start_time_must_parse env event detail v e w o w' :
  successful_event event detail ->
  current_tone detail "startTime" = Returned v ->
  strptime v = Raised e ->
  lambda_handler env event w = (o, w') ->
  (exists e', o = Raised e') /\ emitted w w' = [].
Proof.
  intros Hev Hv Hp H.
  assert (Hno : forall x, ~ reads env event detail w x).
  { intros x (_ & _ & _ & _ & _ & _ & _ & A8 & _). rewrite Hv in A8. cbn [obind] in A8.
    congruence. }
  split.
  - destruct o as [[]|e']; [|eauto]. exfalso.
    apply (successful_run_iff _ _ _ _ _ Hev) in H as (x & Hr & _).
    exact (Hno x Hr).
  - apply lambda_handler_emits in H as [E | (detail' & x & _ & Hev' & Hr & _)]; [exact E|].
    exfalso. assert (detail' = detail) as ->.
    { destruct Hev as [A _], Hev' as [B _]. congruence. }
    exact (Hno x Hr).
Qed.

Lemma start_time_must_parse_witness :
  let event := tone_event (JBool false) "2024-01-01T00:00:05Z" "2024-01-01T00:00:10.000Z" in
  let run := lambda_handler sample_env event started_world in
  (exists e', fst run = Raised e') /\ emitted started_world (snd run) = [].
Proof.
  intros event run.
  apply (start_time_must_parse sample_env event (detail_of event)
           (JStr "2024-01-01T00:00:05Z") ValueError started_world (fst run) (snd run)).
  - split; vm_compute; reflexivity.
  - vm_compute. reflexivity.
  - vm_compute. reflexivity.
  - apply surjective_pairing.
Defined.

(** * Further properties of the call-event processor *)

(** X16: the dispatch table read backwards: the Contact Lens mutation is
    selected by the label ["Amazon Connect Contact Lens"] and by no other
    source, the transcribe mutation by the three other labels and by no
    other source; labels are compared as they are written. *)
Theorem dispatch_read_backwards (CALL_AUDIO_SOURCE : option string) :
  (MUTATION_FUNCTION_NAME CALL_AUDIO_SOURCE
     = Some execute_process_contact_lens_event_api_mutation <->
   CALL_AUDIO_SOURCE = Some "Amazon Connect Contact Lens"%string) /\
  (MUTATION_FUNCTION_NAME CALL_AUDIO_SOURCE
     = Some execute_process_transcribe_event_api_mutation <->
   CALL_AUDIO_SOURCE = Some "Demo Asterisk PBX Server"%string \/
   CALL_AUDIO_SOURCE = Some "Chime Voice Connector (SIPREC)"%string \/
   CALL_AUDIO_SOURCE = Some "Genesys Cloud Audiohook Web Socket"%string).
Proof.
  destruct CALL_AUDIO_SOURCE as [label|].
  2:{ split; split; [discriminate | discriminate | discriminate
                     | intros [H|[H|H]]; discriminate H]. }
  unfold MUTATION_FUNCTION_NAME, MUTATION_FUNCTION_MAPPING.
  rewrite !lookup_insert. rewrite lookup_empty.
  repeat case_decide; subst; split; split;
    first [ reflexivity
          | discriminate
          | intros [?|[?|?]]; congruence
          | intros; congruence
          | intros; (left; reflexivity) || (right; left; reflexivity) || (right; right; reflexivity)
          | idtac ].
Qed.

(** X17: of a batch only the truthy nested success items count, in their
    order: two batches whose truthy success items are the same list give
    the same result, however the items are grouped into records, whatever
    falsy items lie between them and whatever errors, nested or not, come
    with them. *)
Theorem only_truthy_success_items_count (sm : StateManager) (event : json)
    (r1 r2 : batch_results) (l1 l2 : list log_entry) :
  List.filter truthy (nested_items (successes r1))
    = List.filter truthy (nested_items (successes r2)) ->
  fst (handler (mkProcessor (fun _ => Returned r1) sm) event l1)
    = fst (handler (mkProcessor (fun _ => Returned r2) sm) event l2).
Proof.
  intros Hsame.
  destruct (handler_run (mkProcessor (fun _ => Returned r1) sm) event r1 l1 eq_refl)
    as (d1 & _ & ->).
  destruct (handler_run (mkProcessor (fun _ => Returned r2) sm) event r2 l2 eq_refl)
    as (d2 & _ & ->).
  cbn [fst state_manager]. unfold outgoing. rewrite Hsame. reflexivity.
Qed.

Lemma only_truthy_success_items_count_witness :
  fst (handler (mkProcessor (fun _ => Returned one_success_one_error) collecting_manager)
         transcript_event [])
    = fst (handler (mkProcessor (fun _ => Returned regrouped_results) collecting_manager)
             transcript_event [LogDebug "warm"]).
Proof.
  apply (only_truthy_success_items_count collecting_manager transcript_event
           one_success_one_error regrouped_results [] [LogDebug "warm"]).
  reflexivity.
Defined.

Lemma filter_error_entries errs :
  List.filter is_error_entry (error_entries errs)
    = map (LogError "event processor error: %s") errs.
Proof.
  induction errs as [|e errs IH]; [reflexivity|].
  unfold error_entries in *. cbn [flat_map]. rewrite List.filter_app, IH.
  destruct e; reflexivity.
Qed.

Lemma filter_exception_entries errs :
  length (List.filter is_exception_entry (error_entries errs))
    = length (List.filter is_exception errs).
Proof.
  induction errs as [|e errs IH]; [reflexivity|].
  unfold error_entries in *. cbn [flat_map]. rewrite List.filter_app, length_app, IH.
  destruct e; reflexivity.
Qed.

Lemma filter_debug_exception dbg :
  Forall is_debug dbg -> List.filter is_exception_entry dbg = [].
Proof.
  induction 1 as [|e dbg [msg ->] _ IH]; [reflexivity|]. simpl. exact IH.
Qed.

(** X18: the log of a run holds one error entry for each element of the
    errors list, in the order of the list, and one exception entry for each
    element that is an exception instance; nothing else is logged as an
    error, whatever the successes and however the state manager fares. *)
Theorem one_error_entry_per_error (p : Processor) (event : json)
    (r : batch_results) (l : list log_entry) :
  process_event p event = Returned r ->
  List.filter is_error_entry (drop (length l) (snd (handler p event l)))
    = map (LogError "event processor error: %s") (get_or_empty (errors r)) /\
  length (List.filter is_exception_entry (drop (length l) (snd (handler p event l))))
    = length (List.filter is_exception (get_or_empty (errors r))).
Proof.
  intros Hr. destruct (handler_run p event r l Hr) as (dbg & Hd & ->).
  cbn [snd]. rewrite drop_app_length.
  rewrite !List.filter_app, !length_app, (filter_debug _ Hd), (filter_debug_exception _ Hd).
  rewrite filter_error_entries, filter_exception_entries, app_nil_r. cbn.
  split; [reflexivity|]. lia.
Qed.

Lemma one_error_entry_per_error_witness :
  List.filter is_error_entry
    (drop (length [LogDebug "warm"])
          (snd (handler sample_processor transcript_event [LogDebug "warm"])))
    = map (LogError "event processor error: %s") (get_or_empty (errors one_success_one_error)) /\
  length (List.filter is_exception_entry
            (drop (length [LogDebug "warm"])
                  (snd (handler sample_processor transcript_event [LogDebug "warm"]))))
    = length (List.filter is_exception (get_or_empty (errors one_success_one_error))).
Proof.
  apply (one_error_entry_per_error sample_processor transcript_event one_success_one_error
           [LogDebug "warm"]).
  reflexivity.
Defined.

(** X19: a batch with no truthy success item (no ["successes"] key, an
    empty list, records without items, falsy items only) never reaches
    [update_state] of the state manager: the handler enters and leaves the
    context and returns the state as it was entered; and whenever the
    handler returns, it returns a dict with the one key ["state"]. *)
Theorem batch_without_items_returns_entered_state (p : Processor) (event : json)
    (r : batch_results) (l : list log_entry) :
  process_event p event = Returned r ->
  (List.filter truthy (nested_items (successes r)) = [] ->
   fst (handler p event l) =
   obind (event_get_state event) (fun _ =>
   obind (aenter (state_manager p) event) (fun m =>
   obind (aexit (state_manager p) m) (fun _ =>
   Returned (JObj [("state"%string, manager_state (state_manager p) m)]))))) /\
  (forall v, fst (handler p event l) = Returned v ->
     exists st, v = JObj [("state"%string, st)]).
Proof.
  intros Hr. destruct (handler_run p event r l Hr) as (dbg & _ & ->). cbn [fst].
  unfold outgoing. split.
  - intros ->. reflexivity.
  - intros v.
    destruct (event_get_state event); cbn [obind]; [|discriminate].
    destruct (aenter (state_manager p) event); cbn [obind]; [|discriminate].
    destruct (fold_updates _ _ _) as [m'|]; cbn [obind]; [|discriminate].
    destruct (aexit (state_manager p) m'); cbn [obind]; [|discriminate].
    intros H. inversion H. eauto.
Qed.

Lemma batch_without_items_returns_entered_state_witness :
  (List.filter truthy (nested_items (successes empty_results)) = [] ->
   fst (handler (mkProcessor (fun _ => Returned empty_results) collecting_manager)
          transcript_event []) =
   obind (event_get_state transcript_event) (fun _ =>
   obind (aenter collecting_manager transcript_event) (fun m =>
   obind (aexit collecting_manager m) (fun _ =>
   Returned (JObj [("state"%string, manager_state collecting_manager m)]))))) /\
  (forall v, fst (handler (mkProcessor (fun _ => Returned empty_results) collecting_manager)
                    transcript_event []) = Returned v ->
     exists st, v = JObj [("state"%string, st)]).
Proof.
  apply (batch_without_items_returns_entered_state
           (mkProcessor (fun _ => Returned empty_results) collecting_manager)
           transcript_event empty_results []).
  reflexivity.
Defined.

(** ** Feature flags *)

Lemma lower_upper_ascii c : lower_ascii (upper_ascii c) = lower_ascii c.
Proof. destruct c as [[] [] [] [] [] [] [] []]; reflexivity. Qed.

Lemma lower_lower_ascii c : lower_ascii (lower_ascii c) = lower_ascii c.
Proof. destruct c as [[] [] [] [] [] [] [] []]; reflexivity. Qed.

Lemma lower_upper s : lower (upper s) = lower s.
Proof. induction s as [|c s IH]; [reflexivity|]. simpl. rewrite lower_upper_ascii, IH. reflexivity. Qed.

Lemma lower_lower s : lower (lower s) = lower s.
Proof. induction s as [|c s IH]; [reflexivity|]. simpl. rewrite lower_lower_ascii, IH. reflexivity. Qed.

Lemma upper_lower_ascii c : upper_ascii (lower_ascii c) = upper_ascii c.
Proof. destruct c as [[] [] [] [] [] [] [] []]; reflexivity. Qed.

Lemma upper_lower s : upper (lower s) = upper s.
Proof. induction s as [|c s IH]; [reflexivity|]. simpl. rewrite upper_lower_ascii, IH. reflexivity. Qed.

(** X20: a feature flag is on when its variable is unset and, when set,
    exactly when the value is [true] in any mix of upper and lower case,
    that is when its upper-cased text is [TRUE]; every other value (["1"],
    ["yes"], a padded ["true "], the empty text) turns it off, and the
    Comprehend client is [None] exactly then. *)
Theorem flags_default_on_and_ignore_case (value : string) :
  flag_enabled None = true /\
  (flag_enabled (Some value) = true <-> upper value = "TRUE"%string) /\
  flag_enabled (Some (upper value)) = flag_enabled (Some value) /\
  flag_enabled (Some (lower value)) = flag_enabled (Some value) /\
  (forall (C : Type) (client : C),
     COMPREHEND_CLIENT client (Some value) = None <-> flag_enabled (Some value) = false).
Proof.
  split; [reflexivity|]. unfold flag_enabled.
  split.
  { rewrite String.eqb_eq. split; intros H.
    - rewrite <- upper_lower, H. reflexivity.
    - rewrite <- lower_upper, H. reflexivity. }
  split; [rewrite lower_upper; reflexivity|].
  split; [rewrite lower_lower; reflexivity|].
  intros C client. unfold COMPREHEND_CLIENT, flag_enabled.
  destruct (String.eqb _ _); split; intros H; try reflexivity; discriminate H.
Qed.

Example flag_values :
  flag_enabled (Some "TRUE"%string) = true /\
  flag_enabled (Some "True"%string) = true /\
  flag_enabled (Some "false"%string) = false /\
  flag_enabled (Some "1"%string) = false /\
  flag_enabled (Some "true "%string) = false /\
  flag_enabled (Some EmptyString) = false.
Proof. repeat split. Qed.
